(** * Tiered hybrid retrieval and ranking: a shallow embedding

    The development follows the Python sources of the candidate search
    backend:

    - [backend/utils/helpers.py]                  (module [Helpers])
    - [backend/search/candidate_scorer.py]        (module [Scorer])
    - [backend/search/elasticsearch_search.py]    (module [Fusion])
    - [backend/search/elasticsearch_service.py]   (module [Retrieval])
    - [backend/search/query_processor.py] and the [/search] endpoint of
      [backend/main.py]                           (module [Api])

    Python floats are embedded as rationals [Q]: every constant of the
    sources (0.1, 1.2, 365.25, ...) is a decimal and is represented
    exactly, and the arithmetic of the scores is exact.  The one float
    whose rounding decides a result is the sort key of the fusion step, a
    sum of a tier priority and a score below it by six orders of
    magnitude; that sum is rounded to binary64 (module [Float64]).
    Python dictionaries with a fixed set of keys are records whose
    optional keys are [option] fields; [d.get(k, default)] is [default]
    exactly when the field is [None].  The text columns are always
    present, and [None] is their null value, which [d.get] hands on as it
    is. *)

From Stdlib Require Import QArith Qabs Qround Qpower Lqa ZArith List Ascii String.
From Stdlib Require Import Sorted Permutation Lia.
From stdpp Require Import gmap strings list.
Import ListNotations.

Open Scope string_scope.
Open Scope list_scope.
Open Scope Q_scope.

(** ** Python built-ins used by the sources *)

Module Py.

Definition Qlt_bool (x y : Q) : bool := negb (Qle_bool y x).

(** [max(a, b)] and [min(a, b)] on numbers: the first argument wins ties. *)
Definition max (a b : Q) : Q := if Qlt_bool a b then b else a.
Definition min (a b : Q) : Q := if Qlt_bool b a then b else a.

(** [sum(xs)]: left fold starting from 0. *)
Definition sum (xs : list Q) : Q := fold_left Qplus xs 0.

(** [l[i:j]] for non-negative constant bounds. *)
Definition slice {A} (i j : nat) (l : list A) : list A :=
  firstn (j - i) (skipn i l).

(** [l[:n]] for an arbitrary integer [n]: a negative [n] counts from the
    end of the list. *)
Definition slice_to {A} (n : Z) (l : list A) : list A :=
  if (0 <=? n)%Z then firstn (Z.to_nat n) l
  else firstn (length l - Z.to_nat (- n)) l.

(** [sorted(l, key=k, reverse=True)] and [l.sort(key=k, reverse=True)]:
    a stable sort into descending key order.  [gtb a b] is [k a > k b];
    elements with equal keys keep their input order. *)
Section Sort.
Context {A : Type} (gtb : A -> A -> bool).

Fixpoint insert_desc (x : A) (l : list A) : list A :=
  match l with
  | [] => [x]
  | y :: l' => if gtb y x then y :: insert_desc x l' else x :: y :: l'
  end.

Fixpoint sorted_reverse (l : list A) : list A :=
  match l with
  | [] => []
  | x :: l' => insert_desc x (sorted_reverse l')
  end.

(** [ngt a b]: [b] is not greater than [a], the order of the output. *)
Definition ngt (a b : A) : Prop := gtb b a = false.
End Sort.

(** Truthiness of [d.get(k)] for a string-valued key. *)
Definition truthy (s : option string) : bool :=
  match s with
  | Some s' => negb (String.eqb s' "")
  | None => false
  end.

(** [any(p(x) for x in l)]. *)
Definition any {A} (p : A -> bool) (l : list A) : bool := existsb p l.

(** [d.get(k, default)]. *)
Definition get {A} (o : option A) (default : A) : A :=
  match o with Some v => v | None => default end.

(** [d.get(k) == s] for a string [s]. *)
Definition get_eq (o : option string) (s : string) : bool :=
  match o with Some v => String.eqb v s | None => false end.

End Py.

(** ** Binary64 rounding *)

Module Float64.
Import Py.

(** [2 ** k] for an integer [k]. *)
Definition pow2 (k : Z) : Q := Qpower 2 k.

(** The binary exponent of a positive rational: the [e] with
    [2 ** e <= x < 2 ** (e + 1)]. *)
Definition exponent (x : Q) : Z :=
  let k := (Z.log2 (Qnum x) - Z.log2 (Zpos (Qden x)))%Z in
  if Qle_bool (pow2 k) x then k else (k - 1)%Z.

(** The integer nearest to a non-negative rational, the even one of the
    two when it lies half-way. *)
Definition nearest_even (x : Q) : Z :=
  let f := Qfloor x in
  match Qcompare (x - inject_Z f) (1 # 2) with
  | Lt => f
  | Gt => (f + 1)%Z
  | Eq => if Z.even f then f else (f + 1)%Z
  end.

(** Rounding of a real result to binary64: 53 significant bits, the
    spacing never below [2 ** -1074], round to nearest, ties to even.
    Results beyond the largest binary64 value are outside the model. *)
Definition round (x : Q) : Q :=
  if Qeq_bool x 0 then 0
  else
    let a := Qabs x in
    let q := Z.max (exponent a - 52) (-1074) in
    let m := nearest_even (a / pow2 q) in
    (if Qlt_bool x 0 then - inject_Z m else inject_Z m) * pow2 q.

(** [x + y] on floats. *)
Definition add (x y : Q) : Q := round (x + y).

Arguments round : simpl never.
Arguments add : simpl never.

End Float64.

(** ** Exceptions

    The exceptions that can reach the modelled code, and the outcome of a
    call that may raise. *)

Inductive exn :=
| HTTPException (status_code : Z) (detail : string)
| ConnectionError (msg : string)
| TransportError (msg : string)
| OtherException (msg : string).

Inductive Outcome (A : Type) :=
| Returned (a : A)
| Raised (e : exn).
Arguments Returned {A} a.
Arguments Raised {A} e.

(** The list a call has returned, the empty list when it has raised. *)
Definition returned_or_nil {A} (o : Outcome (list A)) : list A :=
  match o with
  | Returned l => l
  | Raised _ => []
  end.

(** [try: body except Exception as e: handler(e)]. *)
Definition try_except {A} (body : Outcome A) (handler : exn -> Outcome A)
    : Outcome A :=
  match body with
  | Returned a => Returned a
  | Raised e => handler e
  end.

(** ** backend/utils/helpers.py *)

Module Helpers.

Definition calculate_experience_multiplier (years : Q) : Q :=
  if Qle_bool years 1 then 1.0
  else if Qle_bool years 2 then 1.2
  else if Qle_bool years 3 then 1.4
  else if Qle_bool years 4 then 1.6
  else if Qle_bool years 5 then 1.8
  else 2.0.

End Helpers.

(** ** Result rows

    One record stands for the dictionaries that flow from the retrievers
    through fusion into the scorer.  Dates are day ordinals
    ([date.toordinal()]); [None] is a missing or null date.  A text
    column holds a string or is null ([None]): the rows of
    [db.search_experiences] carry the columns of the table as they are.
    The numeric keys hold numbers when present. *)

Record Row := {
  id : Z;
  candidate_id : Z;
  structured_content_en : option string;
  structured_content_mn : option string;
  company_name : option string;
  position_title : option string;
  start_date : option Z;
  end_date : option Z;
  match_type : option string;
  match_quality : option string;
  match_tier : option string;
  elasticsearch_score : option Q;
  norm_cos_sim : option Q;
  fts_vector_en_rank : option Q;
  fts_vector_mn_rank : option Q;
  tier_priority : option Z;
  combined_search_score : option Q;
  es_component_score : option Q;
  semantic_component_score : option Q;
  final_score : option Q
}.

(** A row none of whose text columns is null. *)
Definition text_present (r : Row) : Prop :=
  structured_content_en r <> None /\ structured_content_mn r <> None
  /\ company_name r <> None /\ position_title r <> None.

(** ** backend/search/candidate_scorer.py *)

Module Scorer.
Import Py Helpers.

(** The [exp_data] dictionary.  An [ExperienceResponse] is the same data
    after validation; its four text fields are declared [str], so that
    they hold strings then. *)
Record Experience := {
  content : option string;
  exp_structured_content_mn : option string;
  exp_company_name : option string;
  exp_position_title : option string;
  years : Q;
  combined_score : Q;
  exp_match_tier : option string;
  exp_elasticsearch_score : option Q;
  exp_tier_priority : option Z
}.

Record CandidateResponse := {
  cand_candidate_id : Z;
  cand_final_score : Q;
  experiences : list Experience
}.

(** [ExperienceResponse] built from the dictionary [exp]: pydantic refuses a null for a field
    declared [str]; the numeric fields hold numbers and the remaining
    fields are optional. *)
Definition ExperienceResponse (exp : Experience) : Outcome Experience :=
  match content exp, exp_structured_content_mn exp,
        exp_company_name exp, exp_position_title exp with
  | Some _, Some _, Some _, Some _ => Returned exp
  | _, _, _, _ => Raised (OtherException "ValidationError")
  end.

(** The list of the [ExperienceResponse] objects built from [exps]: the
    first failure is raised. *)
Fixpoint ExperienceResponses (exps : list Experience) : Outcome (list Experience) :=
  match exps with
  | [] => Returned []
  | exp :: exps' =>
      match ExperienceResponse exp with
      | Returned r =>
          match ExperienceResponses exps' with
          | Returned rs => Returned (r :: rs)
          | Raised e => Raised e
          end
      | Raised e => Raised e
      end
  end.

(** [OptimizedCandidateScorer.__init__]: the two legacy weights. *)
Record Weights := { keyword_weight : Q; semantic_weight : Q }.
Definition default_weights : Weights :=
  {| keyword_weight := 0.8; semantic_weight := 0.2 |}.

(** [tier_priority_map.get(tier, 1000)]. *)
Definition tier_priority_map (tier : string) : Z :=
  if String.eqb tier "exact" then 1000000
  else if String.eqb tier "relevant" then 100000
  else if String.eqb tier "similar" then 10000
  else if String.eqb tier "semantic_only" then 5000
  else if String.eqb tier "unknown" then 1000
  else 1000.

(** The sort key of [sorted_results]: the pair (tier priority,
    elasticsearch score), compared lexicographically. *)
Definition sort_key (x : Row) : Z * Q :=
  (tier_priority_map (get (match_tier x) "unknown"),
   get (elasticsearch_score x) 0).

Definition key_gtb (a b : Z * Q) : bool :=
  (fst b <? fst a)%Z || ((fst a =? fst b)%Z && Qlt_bool (snd b) (snd a)).

Definition row_gtb (x y : Row) : bool := key_gtb (sort_key x) (sort_key y).

(** [_calculate_experience_years]; [today] is [date.today()]. *)
Definition _calculate_experience_years (today : Z)
    (start_date end_date : option Z) : Q :=
  let end_date := match end_date with Some e => e | None => today end in
  match start_date with
  | Some s =>
      let years := inject_Z (end_date - s) / 365.25 in
      max years 0.0
  | None => 0.0
  end.

(** [_calculate_tier_score_fixed]. *)
Definition _calculate_tier_score_fixed (row : Row) (years : Q) : Q :=
  let tier := get (match_tier row) "similar" in
  let elasticsearch_score := get (elasticsearch_score row) 0 in
  let experience_multiplier := calculate_experience_multiplier years in
  if String.eqb tier "exact" then
    let base_score := 100.0 + (elasticsearch_score / 100.0) in
    base_score * (1.0 + experience_multiplier * 0.3)
  else if String.eqb tier "relevant" then
    let base_score := 10.0 + (elasticsearch_score / 1000.0) in
    base_score * (1.0 + experience_multiplier * 0.2)
  else
    let base_score := 1.0 + (elasticsearch_score / 10000.0) in
    base_score * (1.0 + experience_multiplier * 0.1).

(** [max(experiences, key=lambda x: x['combined_score'])] on a non-empty
    list: the first experience with the largest score. *)
Fixpoint max_by_score (best : Experience) (l : list Experience) : Experience :=
  match l with
  | [] => best
  | e :: l' =>
      if Qlt_bool (combined_score best) (combined_score e)
      then max_by_score e l' else max_by_score best l'
  end.

(** [_calculate_candidate_final_score_fixed]. *)
Definition _calculate_candidate_final_score_fixed
    (experiences : list Experience) : Q :=
  match experiences with
  | [] => 0.0
  | e0 :: rest =>
      let best_experience := max_by_score e0 rest in
      let best_score := combined_score best_experience in
      let boost :=
        if get_eq (exp_match_tier best_experience) "exact"
        then 1000.0 + best_score
        else best_score in
      let additional_score :=
        sum (map (fun exp => combined_score exp * 0.1) (slice 1 3 experiences)) in
      boost + additional_score
  end.

(** The [exp_data] built for a row in the tier-based path. *)
Definition tier_exp_data (today : Z) (row : Row) : Experience :=
  let years := _calculate_experience_years today (start_date row) (end_date row) in
  let tier_score := _calculate_tier_score_fixed row years in
  {| content := structured_content_en row;
     exp_structured_content_mn := structured_content_mn row;
     exp_company_name := company_name row;
     exp_position_title := position_title row;
     years := years;
     combined_score := tier_score;
     exp_match_tier := Some (get (match_tier row) "unknown");
     exp_elasticsearch_score := Some (get (elasticsearch_score row) 0);
     exp_tier_priority :=
       Some (tier_priority_map (get (match_tier row) "unknown")) |}.

(** [candidate_experiences]: a dictionary keyed by candidate id.  Python
    dictionaries iterate in insertion order, so it is an association
    list; [append_experience] is
    [candidate_experiences.setdefault(cid, []).append(exp)]. *)
Fixpoint append_experience (d : list (Z * list Experience))
    (cid : Z) (exp : Experience) : list (Z * list Experience) :=
  match d with
  | [] => [(cid, [exp])]
  | (k, exps) :: d' =>
      if (k =? cid)%Z then (k, exps ++ [exp]) :: d'
      else (k, exps) :: append_experience d' cid exp
  end.

Definition aggregate (exp_data : Row -> Experience) (rows : list Row)
    : list (Z * list Experience) :=
  fold_left (fun d row => append_experience d (candidate_id row) (exp_data row))
            rows [].

Definition cand_gtb (x y : CandidateResponse) : bool :=
  Qlt_bool (cand_final_score y) (cand_final_score x).

(** The body of the loop over [candidate_experiences.items()] in
    [_score_tier_based_results_fixed]: the candidates kept for one entry
    (none or one).  The response objects are built inside
    [try: ... except Exception: continue], so that a candidate whose
    response cannot be built is skipped. *)
Definition tier_candidate (score_threshold : Q)
    (entry : Z * list Experience) : list CandidateResponse :=
  let '(candidate_id, experiences) := entry in
  let final_score := _calculate_candidate_final_score_fixed experiences in
  let relevant_experiences :=
    List.filter (fun exp => Qlt_bool score_threshold (combined_score exp))
                experiences in
  match relevant_experiences with
  | [] => []
  | _ =>
      match ExperienceResponses relevant_experiences with
      | Returned responses =>
          [ {| cand_candidate_id := candidate_id;
               cand_final_score := final_score;
               experiences := responses |} ]
      | Raised _ => []
      end
  end.

(** [_score_tier_based_results_fixed]. *)
Definition _score_tier_based_results_fixed (today : Z) (results : list Row)
    (score_threshold : Q) (limit : Z) : list CandidateResponse :=
  let sorted_results := sorted_reverse row_gtb results in
  let candidate_experiences := aggregate (tier_exp_data today) sorted_results in
  let candidates := flat_map (tier_candidate score_threshold) candidate_experiences in
  let candidates := sorted_reverse cand_gtb candidates in
  slice_to limit candidates.

(** The [exp_data] built for a row in the legacy path. *)
Definition legacy_exp_data (w : Weights) (today : Z) (row : Row) : Experience :=
  let years := _calculate_experience_years today (start_date row) (end_date row) in
  let semantic_score := get (norm_cos_sim row) 0 in
  let combined_score :=
    match elasticsearch_score row with
    | Some es_score =>
        let normalized_keyword_score := min (es_score / 10000.0) 1.0 in
        keyword_weight w * normalized_keyword_score
        + semantic_weight w * semantic_score
    | None =>
        let keyword_score :=
          max (get (fts_vector_en_rank row) 0) (get (fts_vector_mn_rank row) 0) in
        let keyword_score := min (max keyword_score 0) 1 in
        keyword_weight w * keyword_score + semantic_weight w * semantic_score
    end in
  {| content := structured_content_en row;
     exp_structured_content_mn := structured_content_mn row;
     exp_company_name := company_name row;
     exp_position_title := position_title row;
     years := years;
     combined_score := combined_score;
     exp_match_tier := None;
     exp_elasticsearch_score := None;
     exp_tier_priority := None |}.

(** The inner loop of [_score_legacy_results] over one candidate's
    experiences: accumulates the final score and the kept experiences.
    Each [ExperienceResponse] is built here, outside any handler. *)
Fixpoint legacy_loop (score_threshold : Q) (exps : list Experience)
    (final_score : Q) (relevant : list Experience)
    : Outcome (Q * list Experience) :=
  match exps with
  | [] => Returned (final_score, relevant)
  | exp :: exps' =>
      if Qlt_bool score_threshold (combined_score exp) then
        let multiplier := calculate_experience_multiplier (years exp) in
        match ExperienceResponse exp with
        | Returned response =>
            legacy_loop score_threshold exps'
                        (final_score + multiplier * combined_score exp)
                        (relevant ++ [response])
        | Raised e => Raised e
        end
      else legacy_loop score_threshold exps' final_score relevant
  end.

(** The body of the loop over [candidate_experiences.items()] in
    [_score_legacy_results]: the candidates appended for one entry (none
    or one), or the exception of the inner loop.  The
    [CandidateResponse] is built from responses that are validated
    already. *)
Definition legacy_candidate (score_threshold : Q)
    (entry : Z * list Experience) : Outcome (list CandidateResponse) :=
  let '(candidate_id, experiences) := entry in
  match legacy_loop score_threshold experiences 0.0 [] with
  | Returned (final_score, relevant_experiences) =>
      match relevant_experiences with
      | [] => Returned []
      | _ => Returned [ {| cand_candidate_id := candidate_id;
                           cand_final_score := final_score;
                           experiences := relevant_experiences |} ]
      end
  | Raised e => Raised e
  end.

Fixpoint legacy_candidates (score_threshold : Q)
    (entries : list (Z * list Experience)) (candidates : list CandidateResponse)
    : Outcome (list CandidateResponse) :=
  match entries with
  | [] => Returned candidates
  | entry :: entries' =>
      match legacy_candidate score_threshold entry with
      | Returned new => legacy_candidates score_threshold entries' (candidates ++ new)
      | Raised e => Raised e
      end
  end.

(** [_score_legacy_results]. *)
Definition _score_legacy_results (w : Weights) (today : Z) (results : list Row)
    (score_threshold : Q) (limit : Z) : Outcome (list CandidateResponse) :=
  let candidate_experiences := aggregate (legacy_exp_data w today) results in
  match legacy_candidates score_threshold candidate_experiences [] with
  | Returned candidates =>
      let candidates := sorted_reverse cand_gtb candidates in
      Returned (slice_to limit candidates)
  | Raised e => Raised e
  end.

(** [score_and_rank_candidates]; its handler logs and raises again. *)
Definition score_and_rank_candidates (w : Weights) (today : Z)
    (results : list Row) (score_threshold : Q) (limit : Z)
    : Outcome (list CandidateResponse) :=
  try_except
    (let has_tiers :=
       any (fun result => truthy (match_tier result)) (slice 0 5 results) in
     if has_tiers
     then Returned (_score_tier_based_results_fixed today results score_threshold limit)
     else _score_legacy_results w today results score_threshold limit)
    (fun e => Raised e).

End Scorer.

(** ** backend/search/elasticsearch_search.py *)

Module Fusion.
Import Py.

(** [{**base, k1: v1, ...}] for the keys the fusion step writes. *)
Definition with_fusion (base : Row) (tier : option string)
    (es : option Q) (priority : Z) (combined es_component semantic_component
    final : Q) : Row :=
  {| id := id base; candidate_id := candidate_id base;
     structured_content_en := structured_content_en base;
     structured_content_mn := structured_content_mn base;
     company_name := company_name base;
     position_title := position_title base;
     start_date := start_date base; end_date := end_date base;
     match_type := match_type base; match_quality := match_quality base;
     match_tier := tier;
     elasticsearch_score := es;
     norm_cos_sim := norm_cos_sim base;
     fts_vector_en_rank := fts_vector_en_rank base;
     fts_vector_mn_rank := fts_vector_mn_rank base;
     tier_priority := Some priority;
     combined_search_score := Some combined;
     es_component_score := Some es_component;
     semantic_component_score := Some semantic_component;
     final_score := Some final |}.

(** [semantic_map = {result['id']: result for result in semantic_results}]:
    a later result with the same id replaces an earlier one. *)
Definition semantic_map (semantic_results : list Row) : gmap Z Row :=
  fold_left (fun m result => <[id result := result]> m) semantic_results ∅.

(** The body of the first loop for an id not seen before.  The key
    ['final_score'] is the float sum of the priority and the score. *)
Definition fuse_lexical (semantic_map : gmap Z Row) (es_result : Row) : Row :=
  let exp_id := id es_result in
  let tier := get (match_tier es_result) "similar" in
  let es_score := min (get (elasticsearch_score es_result) 0 / 10000.0) 1.0 in
  let semantic_score :=
    match semantic_map !! exp_id with
    | Some result => get (norm_cos_sim result) 0
    | None => 0.0
    end in
  let '(combined_score, tier_priority) :=
    if String.eqb tier "exact" then
      ((0.9 * es_score) + (0.1 * semantic_score), 1000000%Z)
    else if String.eqb tier "relevant" then
      ((0.5 * es_score) + (0.5 * semantic_score), 100000%Z)
    else
      ((0.1 * es_score) + (0.9 * semantic_score), 10000%Z) in
  with_fusion es_result (match_tier es_result) (elasticsearch_score es_result)
    tier_priority combined_score es_score semantic_score
    (Float64.add (inject_Z tier_priority) combined_score).

(** The first loop: ES results, skipping ids already seen. *)
Fixpoint lexical_loop (semantic_map : gmap Z Row) (es_results : list Row)
    (seen_ids : gset Z) (combined_results : list Row) : list Row * gset Z :=
  match es_results with
  | [] => (combined_results, seen_ids)
  | es_result :: rest =>
      if decide (id es_result ∈ seen_ids)
      then lexical_loop semantic_map rest seen_ids combined_results
      else lexical_loop semantic_map rest ({[id es_result]} ∪ seen_ids)
             (combined_results ++ [fuse_lexical semantic_map es_result])
  end.

(** The body of the second loop for an id not found by ES. *)
Definition fuse_semantic_only (semantic_result : Row) : Row :=
  let semantic_score := get (norm_cos_sim semantic_result) 0 in
  let combined_score := 0.9 * semantic_score in
  with_fusion semantic_result (Some "semantic_only") (Some 0.0) 5000
    combined_score 0.0 semantic_score (Float64.add 5000 combined_score).

(** The second loop; [seen_ids] is only read. *)
Fixpoint semantic_loop (semantic_results : list Row) (seen_ids : gset Z)
    (combined_results : list Row) : list Row :=
  match semantic_results with
  | [] => combined_results
  | semantic_result :: rest =>
      if decide (id semantic_result ∈ seen_ids)
      then semantic_loop rest seen_ids combined_results
      else semantic_loop rest seen_ids
             (combined_results ++ [fuse_semantic_only semantic_result])
  end.

Definition final_gtb (x y : Row) : bool :=
  Qlt_bool (get (final_score y) 0) (get (final_score x) 0).

(** [_combine_results_with_tier_weights]. *)
Definition _combine_results_with_tier_weights (es_results semantic_results : list Row)
    : list Row :=
  let semantic_map := semantic_map semantic_results in
  let '(combined_results, seen_ids) :=
    lexical_loop semantic_map es_results ∅ [] in
  let combined_results := semantic_loop semantic_results seen_ids combined_results in
  sorted_reverse final_gtb combined_results.

End Fusion.

(** ** backend/search/elasticsearch_service.py *)

Module Retrieval.
Import Py.

(** The three query shapes sent to the index; the boosts and clause
    lists of each are fixed by the pass. *)
Inductive Pass := ExactQuery | RelevantQuery | SimilarQuery.

(** A [search_body]: [must_not] is the list under
    [{"terms": {"id": exclude_ids}}], empty when the clause is absent. *)
Record SearchBody := {
  pass : Pass;
  query_text : string;
  size : Z;
  must_not : list Z
}.

(** One element of [result['hits']['hits']]. *)
Record Hit := { hit_id : string; hit_score : Q; hit_source : Row }.

(** [doc['elasticsearch_score'] = ...; doc['match_type'] = ...;
    doc['match_quality'] = ...]. *)
Definition with_hit (doc : Row) (score : Q) (mtype : string)
    (quality : option string) : Row :=
  {| id := id doc; candidate_id := candidate_id doc;
     structured_content_en := structured_content_en doc;
     structured_content_mn := structured_content_mn doc;
     company_name := company_name doc;
     position_title := position_title doc;
     start_date := start_date doc; end_date := end_date doc;
     match_type := Some mtype;
     match_quality := match quality with Some q => Some q | None => match_quality doc end;
     match_tier := match_tier doc;
     elasticsearch_score := Some score;
     norm_cos_sim := norm_cos_sim doc;
     fts_vector_en_rank := fts_vector_en_rank doc;
     fts_vector_mn_rank := fts_vector_mn_rank doc;
     tier_priority := tier_priority doc;
     combined_search_score := combined_search_score doc;
     es_component_score := es_component_score doc;
     semantic_component_score := semantic_component_score doc;
     final_score := final_score doc |}.

(** [result['match_tier'] = tier; result['tier_priority'] = priority]. *)
Definition with_tier (result : Row) (tier : string) (priority : Z) : Row :=
  {| id := id result; candidate_id := candidate_id result;
     structured_content_en := structured_content_en result;
     structured_content_mn := structured_content_mn result;
     company_name := company_name result;
     position_title := position_title result;
     start_date := start_date result; end_date := end_date result;
     match_type := match_type result; match_quality := match_quality result;
     match_tier := Some tier;
     elasticsearch_score := elasticsearch_score result;
     norm_cos_sim := norm_cos_sim result;
     fts_vector_en_rank := fts_vector_en_rank result;
     fts_vector_mn_rank := fts_vector_mn_rank result;
     tier_priority := Some priority;
     combined_search_score := combined_search_score result;
     es_component_score := es_component_score result;
     semantic_component_score := semantic_component_score result;
     final_score := final_score result |}.

Definition tier_gtb (x y : Row) : bool :=
  Scorer.key_gtb (get (tier_priority x) 0%Z, get (elasticsearch_score x) 0)
                 (get (tier_priority y) 0%Z, get (elasticsearch_score y) 0).

(** A client whose failures are replaced by empty hit lists. *)
Definition absorb_errors (es_search : SearchBody -> Outcome (list Hit))
    (body : SearchBody) : Outcome (list Hit) :=
  match es_search body with
  | Returned hits => Returned hits
  | Raised _ => Returned []
  end.

(** The contract of the index for the [must_not] clause: no returned hit
    carries an excluded id. *)
Definition honours_must_not (es_search : SearchBody -> Outcome (list Hit)) : Prop :=
  forall body hits,
    es_search body = Returned hits ->
    forall h, In h hits -> ~ In (id (hit_source h)) (must_not body).

Section Service.
(** The search index client, [self.es.search(index=..., body=...)]. *)
Variable es_search : SearchBody -> Outcome (list Hit).
(** [self.translator], when one was connected. *)
Variable translator : option (string -> Outcome string).
(** [str.strip], [str.lower] and the language heuristic
    [_is_likely_english], a total predicate on the query text. *)
Variables strip lower : string -> string.
Variable _is_likely_english : string -> bool.

(** The loop of [_get_exact_matches_english] over the hits. *)
Fixpoint exact_loop (hits : list Hit) (seen_ids : gset string)
    (matches : list Row) : list Row :=
  match hits with
  | [] => matches
  | hit :: rest =>
      if decide (hit_id hit ∈ seen_ids) then exact_loop rest seen_ids matches
      else
        let quality :=
          if Qle_bool 90 (hit_score hit) then "perfect"
          else if Qle_bool 60 (hit_score hit) then "fuzzy"
          else "partial" in
        let doc := with_hit (hit_source hit) (hit_score hit) "exact" (Some quality) in
        exact_loop rest ({[hit_id hit]} ∪ seen_ids) (matches ++ [doc])
  end.

Definition _get_exact_matches_english (english_query : string) : list Row :=
  let search_body :=
    {| pass := ExactQuery; query_text := english_query;
       size := 50; must_not := [] |} in
  match es_search search_body with
  | Returned hits => slice 0 20 (exact_loop hits ∅ [])
  | Raised _ => []
  end.

Definition _get_relevant_matches (english_query : string) (limit : Z)
    (exclude_ids : list Z) : list Row :=
  let search_body :=
    {| pass := RelevantQuery; query_text := english_query;
       size := limit; must_not := exclude_ids |} in
  match es_search search_body with
  | Returned hits =>
      map (fun hit => with_hit (hit_source hit) (hit_score hit) "relevant" None) hits
  | Raised _ => []
  end.

Definition _get_similar_matches (english_query : string) (limit : Z)
    (exclude_ids : list Z) : list Row :=
  let search_body :=
    {| pass := SimilarQuery; query_text := english_query;
       size := limit; must_not := exclude_ids |} in
  match es_search search_body with
  | Returned hits =>
      map (fun hit => with_hit (hit_source hit) (hit_score hit) "similar" None) hits
  | Raised _ => []
  end.

(** The query handed to the three passes. *)
Definition english_query_of (query : string) : string :=
  let english_query := lower (strip query) in
  match translator with
  | Some translate =>
      if negb (_is_likely_english query) then
        match translate query with
        | Returned translated => lower translated
        | Raised _ => english_query
        end
      else english_query
  | None => english_query
  end.

(** [search_with_priority_layers]. *)
Definition search_with_priority_layers (query : string) (limit : Z)
    : Outcome (list Row) :=
  try_except
    (let english_query := english_query_of query in
     let exact_results := _get_exact_matches_english english_query in
     let relevant_results :=
       if (Z.of_nat (length exact_results) <? limit)%Z then
         _get_relevant_matches english_query
           (limit - Z.of_nat (length exact_results))
           (map id exact_results)
       else [] in
     let total_so_far :=
       (Z.of_nat (length exact_results) + Z.of_nat (length relevant_results))%Z in
     let similar_results :=
       if (total_so_far <? limit)%Z then
         _get_similar_matches english_query (limit - total_so_far)
           (map id (exact_results ++ relevant_results))
       else [] in
     let all_results :=
       map (fun result => with_tier result "exact" 1000000) exact_results
       ++ map (fun result => with_tier result "relevant" 100000) relevant_results
       ++ map (fun result => with_tier result "similar" 10000) similar_results in
     let all_results := sorted_reverse tier_gtb all_results in
     let final_results := slice_to limit all_results in
     Returned final_results)
    (fun _ => Returned []).

End Service.

End Retrieval.

(** ** backend/search/query_processor.py and the [/search] endpoint

    Calls to the external collaborators (translator, embedding provider,
    retrievers) are recorded in a trace, so that "no call was made" is a
    statement about the final trace. *)

Module Api.
Import Py.

Inductive Event :=
| TranslateCall (text : string)
| EmbeddingCall (text : string)
| HybridSearchCall (search_method structured_en : string) (limit : Z)
| DbSearchCall (structured_en : string).

(** Whether an event is a retrieval call (lexical or semantic). *)
Definition is_retrieval (e : Event) : bool :=
  match e with
  | HybridSearchCall _ _ _ | DbSearchCall _ => true
  | _ => false
  end.

(** Computations that may raise and that extend the trace of calls. *)
Definition M (A : Type) : Type := list Event -> Outcome A * list Event.

Definition ret {A} (a : A) : M A := fun tr => (Returned a, tr).
Definition raise {A} (e : exn) : M A := fun tr => (Raised e, tr).
Definition bind {A B} (m : M A) (k : A -> M B) : M B :=
  fun tr =>
    match m tr with
    | (Returned a, tr') => k a tr'
    | (Raised e, tr') => (Raised e, tr')
    end.
Definition try_catch {A} (m : M A) (handler : exn -> M A) : M A :=
  fun tr =>
    match m tr with
    | (Returned a, tr') => (Returned a, tr')
    | (Raised e, tr') => handler e tr'
    end.
(** A collaborator call: the event is recorded, then the outcome of the
    call is returned or raised. *)
Definition call {A} (ev : Event) (outcome : Outcome A) : M A :=
  fun tr => (outcome, tr ++ [ev]).

Notation "x <- m ;; k" := (bind m (fun x => k))
  (at level 100, m at next level, right associativity).

(** [str.strip()].  A string is the UTF-8 encoding of the Python text,
    and the characters removed are those of [str.isspace]: the ASCII
    characters 9-13 and 28-32, and U+0085, U+00A0, U+1680,
    U+2000-U+200A, U+2028, U+2029, U+202F, U+205F and U+3000, which take
    two or three bytes. *)
Definition is_space (c : ascii) : bool :=
  let n := nat_of_ascii c in
  ((9 <=? n) && (n <=? 13) || (28 <=? n) && (n <=? 32))%nat.

(** U+0085 and U+00A0: bytes C2 85 and C2 A0. *)
Definition is_space2 (c1 c2 : ascii) : bool :=
  let '(a, b) := (nat_of_ascii c1, nat_of_ascii c2) in
  ((a =? 194) && ((b =? 133) || (b =? 160)))%nat.

(** U+1680 (E1 9A 80); U+2000-U+200A, U+2028, U+2029 and U+202F
    (E2 80 80-8A, A8, A9, AF); U+205F (E2 81 9F); U+3000 (E3 80 80). *)
Definition is_space3 (c1 c2 c3 : ascii) : bool :=
  let '(a, b, c) := (nat_of_ascii c1, nat_of_ascii c2, nat_of_ascii c3) in
  ((a =? 225) && (b =? 154) && (c =? 128)
   || (a =? 226) && (b =? 128)
      && ((128 <=? c) && (c <=? 138) || (c =? 168) || (c =? 169) || (c =? 175))
   || (a =? 226) && (b =? 129) && (c =? 159)
   || (a =? 227) && (b =? 128) && (c =? 128))%nat.

Fixpoint lstrip (s : string) : string :=
  match s with
  | String c1 s1 =>
      if is_space c1 then lstrip s1
      else
        match s1 with
        | String c2 s2 =>
            if is_space2 c1 c2 then lstrip s2
            else
              match s2 with
              | String c3 s3 => if is_space3 c1 c2 c3 then lstrip s3 else s
              | EmptyString => s
              end
        | EmptyString => s
        end
  | EmptyString => EmptyString
  end.

(** The bytes of a string in reverse order, in front of [acc]. *)
Fixpoint reverse_onto (s acc : string) : string :=
  match s with
  | String c s' => reverse_onto s' (String c acc)
  | EmptyString => acc
  end.

(** [lstrip] on reversed text: the bytes of a character come last byte
    first. *)
Fixpoint lstrip_reversed (s : string) : string :=
  match s with
  | String c1 s1 =>
      if is_space c1 then lstrip_reversed s1
      else
        match s1 with
        | String c2 s2 =>
            if is_space2 c2 c1 then lstrip_reversed s2
            else
              match s2 with
              | String c3 s3 =>
                  if is_space3 c3 c2 c1 then lstrip_reversed s3 else s
              | EmptyString => s
              end
        | EmptyString => s
        end
  | EmptyString => EmptyString
  end.

Definition rstrip (s : string) : string :=
  reverse_onto (lstrip_reversed (reverse_onto s "")) "".

Definition strip (s : string) : string := rstrip (lstrip s).

(** Truthiness of a string and of a list. *)
Definition nonempty (s : string) : bool := negb (String.eqb s "").

Definition newline : string := String (ascii_of_nat 10) EmptyString.

(** [QueryProcessor.create_structured_text]. *)
Definition create_structured_text (position description : string) : string :=
  if negb (nonempty position) && negb (nonempty description) then ""
  else
    let parts := [] in
    let parts := if nonempty position
                 then parts ++ [String.append "Position: " position] else parts in
    let parts := if nonempty description
                 then parts ++ [String.append "Description: " description] else parts in
    String.concat newline parts.

Record SearchRequest := {
  position : string;
  description : string;
  limit : Z;
  score_threshold : Q;
  search_method : string
}.

Section Endpoint.
(** [Translator.translate_mongolian_to_english]. *)
Variable translate_mongolian_to_english : string -> Outcome string.
(** [EmbeddingGenerator.generate_embedding] and [reduce_embedding]. *)
Variable generate_embedding : string -> Outcome (option (list Q)).
Variable reduce_embedding : list Q -> Outcome (list Q).
(** [QueryProcessor._create_optimized_search_query], a pure function of
    the two translated texts. *)
Variable _create_optimized_search_query : string -> string -> string.
(** [hybrid_search.search], when the search index is available, and
    [db.search_experiences]. *)
Variable hybrid_search :
  option (list Q -> string -> string -> string -> Z -> Outcome (list Row)).
Variable db_search_experiences : list Q -> string -> string -> Outcome (list Row).
(** [date.today()]. *)
Variable today : Z.

Definition translate (text : string) : M string :=
  call (TranslateCall text) (translate_mongolian_to_english text).

(** The embedding step of [process_query], with its own handler. *)
Definition embed (structured_en : string) : M (option (list Q)) :=
  if nonempty structured_en then
    try_catch
      (raw_embedding <- call (EmbeddingCall structured_en)
                             (generate_embedding structured_en) ;;
       match raw_embedding with
       | Some (x :: raw) =>
           fun tr => match reduce_embedding (x :: raw) with
                     | Returned v => (Returned (Some v), tr)
                     | Raised e => (Raised e, tr)
                     end
       | _ => ret None
       end)
      (fun _ => ret None)
  else ret None.

(** [QueryProcessor.process_query]. *)
Definition process_query (position_mn description_mn : string)
    : M (string * string * string * option (list Q)) :=
  let position_mn := if nonempty position_mn then strip position_mn else "" in
  let description_mn := if nonempty description_mn then strip description_mn else "" in
  try_catch
    (if negb (nonempty position_mn) && negb (nonempty description_mn) then
       ret ("", "", "", None)
     else
       position_en <- (if nonempty position_mn
                       then translate position_mn else ret "") ;;
       description_en <- (if nonempty description_mn
                          then translate description_mn else ret "") ;;
       let structured_mn := create_structured_text position_mn description_mn in
       let structured_en := create_structured_text position_en description_en in
       let combined_query :=
         _create_optimized_search_query position_en description_en in
       query_embedding <- embed structured_en ;;
       ret (combined_query, structured_mn, structured_en, query_embedding))
    (fun _ =>
       let structured_mn := create_structured_text position_mn description_mn in
       let structured_en := create_structured_text position_mn description_mn in
       let combined_query :=
         strip (String.append position_mn (String.append " " description_mn)) in
       ret (combined_query, structured_mn, structured_en, None)).

Definition search_via_hybrid
    (search : list Q -> string -> string -> string -> Z -> Outcome (list Row))
    (query_embedding : list Q) (structured_en structured_mn method : string)
    (limit : Z) : M (list Row) :=
  call (HybridSearchCall method structured_en limit)
       (search query_embedding structured_en structured_mn method limit).

Definition search_via_db (query_embedding : list Q)
    (structured_en structured_mn : string) : M (list Row) :=
  call (DbSearchCall structured_en)
       (db_search_experiences query_embedding structured_en structured_mn).

(** The retrieval dispatch of [search_candidates]. *)
Definition retrieve (req : SearchRequest) (combined_query structured_mn
    structured_en : string) (query_embedding : option (list Q)) : M (list Row) :=
  let embedding_or_empty := get query_embedding [] in
  match hybrid_search with
  | Some search =>
      if String.eqb (search_method req) "elasticsearch" then
        search_via_hybrid search embedding_or_empty combined_query structured_mn
          "elasticsearch_only" (limit req * 2)
      else if String.eqb (search_method req) "hybrid" then
        search_via_hybrid search embedding_or_empty combined_query structured_mn
          "hybrid" (limit req * 2)
      else if String.eqb (search_method req) "semantic" then
        match query_embedding with
        | None => raise (HTTPException 500 "Failed to generate query embedding")
        | Some v =>
            search_via_hybrid search v structured_en structured_mn
              "semantic_only" (limit req)
        end
      else
        match query_embedding with
        | None => raise (HTTPException 500 "Failed to generate query embedding")
        | Some v => search_via_db v structured_en structured_mn
        end
  | None =>
      match query_embedding with
      | None => raise (HTTPException 500 "Failed to generate query embedding")
      | Some v => search_via_db v structured_en structured_mn
      end
  end.

(** [search_candidates], up to the ranked candidate list; the lookup of
    education data and the saved-search record that follow only
    decorate that list. *)
Definition search_candidates (req : SearchRequest)
    : M (list Scorer.CandidateResponse) :=
  try_catch
    (processed <- process_query (position req) (description req) ;;
     let '(combined_query, structured_mn, structured_en, query_embedding) :=
       processed in
     if negb (nonempty combined_query) && negb (nonempty structured_en) then
       raise (HTTPException 400 "Invalid or empty search query")
     else
       results <- retrieve req combined_query structured_mn structured_en
                           query_embedding ;;
       (fun tr => (Scorer.score_and_rank_candidates Scorer.default_weights today
                     results (score_threshold req) (limit req), tr)))
    (fun _ => raise (HTTPException 500 "Internal server error")).

End Endpoint.

End Api.

(** ** The specification's formulas

    Definitions that follow the wording of the specification; they are
    compared with the code in the properties below. *)

Module Spec.
Import Py.

(** The tier rank of the final ordering key: exact 4, relevant 3,
    similar 2, semantic_only 1, unknown (anything else) 0. *)
Definition tierRank (tier : string) : Z :=
  if String.eqb tier "exact" then 4
  else if String.eqb tier "relevant" then 3
  else if String.eqb tier "similar" then 2
  else if String.eqb tier "semantic_only" then 1
  else 0.

Definition tier_of (r : Row) : string := get (match_tier r) "unknown".
Definition fusedScore (r : Row) : Q := get (combined_search_score r) 0.

(** [lex_gt a b]: [a] is strictly before [b] in the order
    (tierRank descending, fusedScore descending). *)
Definition lex_gt (ta : string) (sa : Q) (tb : string) (sb : Q) : Prop :=
  (tierRank tb < tierRank ta)%Z \/ (tierRank ta = tierRank tb /\ sb < sa).


(** A lexical match carries one of the three lexical tiers. *)
Definition lexical_tier (r : Row) : Prop :=
  match_tier r = Some "exact" \/ match_tier r = Some "relevant"
  \/ match_tier r = Some "similar".

(** The tier-dependent fusion weights (lexical, semantic). *)
Definition fusion_weights (tier : string) : Q * Q :=
  if String.eqb tier "exact" then (0.9, 0.1)
  else if String.eqb tier "relevant" then (0.5, 0.5)
  else (0.1, 0.9).

(** The semantic score looked up for an experience id: the similarity of
    its semantic match, 0.0 when there is none. *)
Definition semantic_of (semantic_results : list Row) (exp_id : Z) : Q :=
  match List.find (fun s => (id s =? exp_id)%Z) (rev semantic_results) with
  | Some s => get (norm_cos_sim s) 0
  | None => 0.0
  end.

(** All the experiences of a candidate, in the order in which the
    tier-based scorer collects them, before any threshold filter. *)
Definition all_experiences (today : Z) (results : list Row) (cid : Z)
    : list Scorer.Experience :=
  map (Scorer.tier_exp_data today)
      (List.filter (fun r => (candidate_id r =? cid)%Z)
                   (sorted_reverse Scorer.row_gtb results)).

Definition score_gtb (x y : Scorer.Experience) : bool :=
  Qlt_bool (Scorer.combined_score y) (Scorer.combined_score x).

(** The candidate score as the specification words it: the best
    experience score, plus 1000 when the best experience is exact-tier,
    plus 0.1 times the sum of the next two highest experience scores. *)
Definition final_score_as_specified (experiences : list Scorer.Experience) : Q :=
  match sorted_reverse score_gtb experiences with
  | [] => 0
  | best :: others =>
      Scorer.combined_score best
      + (if get_eq (Scorer.exp_match_tier best) "exact" then 1000 else 0)
      + 0.1 * sum (map Scorer.combined_score (firstn 2 others))
  end.

End Spec.

(** ** Concrete rows used by the evaluations below *)

Definition lexical_row (i cid : Z) (tier : string) (es : Q)
    (start_day end_day : Z) : Row :=
  {| id := i; candidate_id := cid;
     structured_content_en := Some ""; structured_content_mn := Some "";
     company_name := Some ""; position_title := Some "";
     start_date := Some start_day; end_date := Some end_day;
     match_type := Some tier; match_quality := None;
     match_tier := Some tier; elasticsearch_score := Some es;
     norm_cos_sim := None;
     fts_vector_en_rank := None; fts_vector_mn_rank := None;
     tier_priority := Some (Scorer.tier_priority_map tier);
     combined_search_score := None; es_component_score := None;
     semantic_component_score := None; final_score := None |}.

Definition semantic_row (i cid : Z) (sim : Q) : Row :=
  {| id := i; candidate_id := cid;
     structured_content_en := Some ""; structured_content_mn := Some "";
     company_name := Some ""; position_title := Some "";
     start_date := None; end_date := None;
     match_type := None; match_quality := None;
     match_tier := None; elasticsearch_score := None;
     norm_cos_sim := Some sim;
     fts_vector_en_rank := None; fts_vector_mn_rank := None;
     tier_priority := None;
     combined_search_score := None; es_component_score := None;
     semantic_component_score := None; final_score := None |}.

(** Day ordinals: [day0] and a day 2192 days (six years) later. *)
Definition day0 : Z := 738000.
Definition day6y : Z := 740192.

(** Candidate 1 holds an exact match (score 100, no tenure) and a relevant
    match (score 100000, six years); candidate 2 holds one relevant match
    (score 120000, six years). *)
Definition rows_exact_vs_relevant : list Row :=
  [ lexical_row 1 1 "exact" 100 day0 day0;
    lexical_row 2 1 "relevant" 100000 day0 day6y;
    lexical_row 3 2 "relevant" 120000 day0 day6y ].

(** One candidate with two exact matches: the one with the lower retrieval
    score has the longer tenure. *)
Definition rows_two_exact : list Row :=
  [ lexical_row 1 1 "exact" 100 day0 day0;
    lexical_row 2 1 "exact" 50 day0 day6y ].

(** Candidate 1 after a hybrid search: an exact match from the index and
    a semantic-only match whose company name is null, as the relational
    store returns the column. *)
Definition rows_null_company : list Row :=
  [ lexical_row 1 1 "exact" 300 day0 day0;
    {| id := 2; candidate_id := 1;
       structured_content_en := Some "data engineer";
       structured_content_mn := Some "";
       company_name := None; position_title := Some "engineer";
       start_date := Some day0; end_date := Some day0;
       match_type := None; match_quality := None;
       match_tier := Some "semantic_only"; elasticsearch_score := Some 0.0;
       norm_cos_sim := Some 0.8;
       fts_vector_en_rank := None; fts_vector_mn_rank := None;
       tier_priority := Some 5000%Z;
       combined_search_score := Some 0.72; es_component_score := Some 0.0;
       semantic_component_score := Some 0.8;
       final_score := Some 5000.72 |} ].

Definition no_candidate : Scorer.CandidateResponse :=
  {| Scorer.cand_candidate_id := 0; Scorer.cand_final_score := 0;
     Scorer.experiences := [] |}.

(** Lexical and semantic matches for the fusion step: experience 1 is an
    exact match that also has a semantic match, experience 2 is a relevant
    match without one, experience 3 is found by the semantic retriever
    only. *)
Definition fusion_lexical : list Row :=
  [ lexical_row 1 1 "exact" 300 day0 day0;
    lexical_row 2 2 "relevant" 20000 day0 day6y ].

Definition fusion_semantic : list Row :=
  [ semantic_row 3 3 0.9; semantic_row 1 1 0.5 ].



(** A small index: document 1 matches all three query shapes, documents 2
    and 3 match the relevant and similar shapes, document 4 only the
    similar one.  The client filters the excluded ids, as the index does
    for a [must_not] clause. *)
Definition sample_doc (i cid : Z) : Row :=
  {| id := i; candidate_id := cid;
     structured_content_en := Some ""; structured_content_mn := Some "";
     company_name := Some ""; position_title := Some "";
     start_date := Some day0; end_date := Some day6y;
     match_type := None; match_quality := None;
     match_tier := None; elasticsearch_score := None;
     norm_cos_sim := None;
     fts_vector_en_rank := None; fts_vector_mn_rank := None;
     tier_priority := None;
     combined_search_score := None; es_component_score := None;
     semantic_component_score := None; final_score := None |}.

Definition sample_hits (p : Retrieval.Pass) : list Retrieval.Hit :=
  match p with
  | Retrieval.ExactQuery =>
      [ {| Retrieval.hit_id := "1"; Retrieval.hit_score := 280;
           Retrieval.hit_source := sample_doc 1 1 |} ]
  | Retrieval.RelevantQuery =>
      [ {| Retrieval.hit_id := "1"; Retrieval.hit_score := 3600;
           Retrieval.hit_source := sample_doc 1 1 |};
        {| Retrieval.hit_id := "2"; Retrieval.hit_score := 2400;
           Retrieval.hit_source := sample_doc 2 2 |};
        {| Retrieval.hit_id := "3"; Retrieval.hit_score := 700;
           Retrieval.hit_source := sample_doc 3 1 |} ]
  | Retrieval.SimilarQuery =>
      [ {| Retrieval.hit_id := "1"; Retrieval.hit_score := 170;
           Retrieval.hit_source := sample_doc 1 1 |};
        {| Retrieval.hit_id := "2"; Retrieval.hit_score := 150;
           Retrieval.hit_source := sample_doc 2 2 |};
        {| Retrieval.hit_id := "3"; Retrieval.hit_score := 120;
           Retrieval.hit_source := sample_doc 3 1 |};
        {| Retrieval.hit_id := "4"; Retrieval.hit_score := 90;
           Retrieval.hit_source := sample_doc 4 3 |} ]
  end.

Definition excluded (body : Retrieval.SearchBody) (h : Retrieval.Hit) : bool :=
  existsb (Z.eqb (id (Retrieval.hit_source h))) (Retrieval.must_not body).

Definition sample_es_search (body : Retrieval.SearchBody)
    : Outcome (list Retrieval.Hit) :=
  Returned
    (firstn (Z.to_nat (Retrieval.size body))
       (List.filter (fun h => negb (excluded body h))
                    (sample_hits (Retrieval.pass body)))).

(** The same index behind a connection that fails on the exact query. *)
Definition exact_pass_down (body : Retrieval.SearchBody)
    : Outcome (list Retrieval.Hit) :=
  match Retrieval.pass body with
  | Retrieval.ExactQuery => Raised (ConnectionError "Connection refused")
  | _ => sample_es_search body
  end.

Definition no_translator : option (string -> Outcome string) := None.
Definition same_text (s : string) : string := s.
Definition always_english (s : string) : bool := true.


(** ** backend/search/elasticsearch_search.py: the search modes *)

Module Search.
Import Py.

(** [result['match_tier'] = 'semantic'; result['elasticsearch_score'] = 0;
    result['tier_priority'] = 50000]. *)
Definition mark_semantic (result : Row) : Row :=
  {| id := id result; candidate_id := candidate_id result;
     structured_content_en := structured_content_en result;
     structured_content_mn := structured_content_mn result;
     company_name := company_name result;
     position_title := position_title result;
     start_date := start_date result; end_date := end_date result;
     match_type := match_type result; match_quality := match_quality result;
     match_tier := Some "semantic";
     elasticsearch_score := Some 0;
     norm_cos_sim := norm_cos_sim result;
     fts_vector_en_rank := fts_vector_en_rank result;
     fts_vector_mn_rank := fts_vector_mn_rank result;
     tier_priority := Some 50000%Z;
     combined_search_score := combined_search_score result;
     es_component_score := es_component_score result;
     semantic_component_score := semantic_component_score result;
     final_score := final_score result |}.

Section Engine.
(** [self.db.search_experiences]. *)
Variable db_search_experiences : list Q -> string -> string -> Outcome (list Row).
(** The parts of [self.es_service]. *)
Variable es_search : Retrieval.SearchBody -> Outcome (list Retrieval.Hit).
Variable translator : option (string -> Outcome string).
Variables strip lower : string -> string.
Variable _is_likely_english : string -> bool.
(** [_enrich_with_candidate_details]: it merges the candidate's columns
    into every row and returns its argument when that fails; it does not
    raise. *)
Variable _enrich_with_candidate_details : list Row -> list Row.

Definition search_with_priority_layers (query : string) (limit : Z)
    : Outcome (list Row) :=
  Retrieval.search_with_priority_layers es_search translator strip lower
    _is_likely_english query limit.

(** [_elasticsearch_only_search]. *)
Definition _elasticsearch_only_search (query : string) (limit : Z) : list Row :=
  match search_with_priority_layers query (limit * 2) with
  | Returned [] => []
  | Returned es_results =>
      let enriched_results := _enrich_with_candidate_details es_results in
      slice_to limit enriched_results
  | Raised _ => []
  end.

(** [_semantic_only_search]. *)
Definition _semantic_only_search (query_embedding : list Q)
    (structured_en structured_mn : string) (limit : Z) : list Row :=
  match query_embedding with
  | [] => []
  | _ =>
      match db_search_experiences query_embedding structured_en structured_mn with
      | Returned results => slice_to limit (map mark_semantic results)
      | Raised _ => []
      end
  end.

(** [_hybrid_search_with_tiers]. *)
Definition _hybrid_search_with_tiers (query_embedding : list Q)
    (structured_en structured_mn : string) (limit : Z) : list Row :=
  match search_with_priority_layers structured_en (limit * 2) with
  | Raised _ => []
  | Returned es_results =>
      let semantic_results :=
        match query_embedding with
        | [] => Returned []
        | _ => db_search_experiences query_embedding structured_en structured_mn
        end in
      match semantic_results with
      | Raised _ => []
      | Returned semantic_results =>
          let combined_results :=
            Fusion._combine_results_with_tier_weights es_results semantic_results in
          let enriched_results := _enrich_with_candidate_details combined_results in
          slice_to limit enriched_results
      end
  end.

(** [search]: the dispatch on the search method, inside the handler that
    falls back to the relational store. *)
Definition search (query_embedding : list Q) (structured_en structured_mn : string)
    (search_method : string) (limit : Z) : Outcome (list Row) :=
  try_except
    (if String.eqb search_method "elasticsearch_only" then
       Returned (_elasticsearch_only_search structured_en limit)
     else if String.eqb search_method "semantic_only" then
       Returned (_semantic_only_search query_embedding structured_en structured_mn limit)
     else if String.eqb search_method "hybrid" then
       Returned (_hybrid_search_with_tiers query_embedding structured_en
                   structured_mn limit)
     else
       Returned (_elasticsearch_only_search structured_en limit))
    (fun _ => db_search_experiences query_embedding structured_en structured_mn).

End Engine.

End Search.

(** A relational store that answers with three semantic matches, and one
    whose connection is down. *)
Definition sample_db (query_embedding : list Q) (structured_en structured_mn : string)
    : Outcome (list Row) :=
  Returned [semantic_row 11 1 0.95; semantic_row 12 2 0.6; semantic_row 13 1 0.3].

Definition db_down (query_embedding : list Q) (structured_en structured_mn : string)
    : Outcome (list Row) :=
  Raised (ConnectionError "connection pool exhausted").

Definition same_rows (rows : list Row) : list Row := rows.

(** Collaborators of the endpoint for the evaluations: a translator whose
    service is down, one that answers with fixed English text, an
    embedding provider without result, and no search index. *)
Definition translator_down (text : string) : Outcome string :=
  Raised (ConnectionError "translation service unreachable").

Definition translator_fixed (text : string) : Outcome string :=
  Returned "data engineer".

Definition no_embedding (text : string) : Outcome (option (list Q)) :=
  Returned None.

Definition keep_embedding (v : list Q) : Outcome (list Q) := Returned v.

Definition position_only (position_en description_en : string) : string :=
  position_en.

(** U+00A0, the no-break space, in UTF-8. *)
Definition no_break_space : string :=
  String (ascii_of_nat 194) (String (ascii_of_nat 160) "").

Definition no_hybrid_search
    : option (list Q -> string -> string -> string -> Z -> Outcome (list Row)) :=
  None.

Definition semantic_request : Api.SearchRequest :=
  {| Api.position := "data engineer"; Api.description := "";
     Api.limit := 10; Api.score_threshold := 0.1;
     Api.search_method := "semantic" |}.

(** ** backend/translation/translator.py

    Python strings are sequences of code points here, so that lengths and
    character tests are those of Python on text outside ASCII. *)

Module Text.

(** [str.isspace] of one character. *)
Definition is_whitespace (c : N) : bool :=
  ((9 <=? c) && (c <=? 13) || (28 <=? c) && (c <=? 32)
   || (c =? 133) || (c =? 160) || (c =? 5760)
   || (8192 <=? c) && (c <=? 8202)
   || (c =? 8232) || (c =? 8233) || (c =? 8239) || (c =? 8287)
   || (c =? 12288))%N.

Fixpoint lstrip (t : list N) : list N :=
  match t with
  | c :: t' => if is_whitespace c then lstrip t' else t
  | [] => []
  end.

Definition rstrip (t : list N) : list N := rev (lstrip (rev t)).

(** [str.strip()]. *)
Definition strip (t : list N) : list N := rstrip (lstrip t).

(** [str.split()]: the maximal runs of characters that are not
    whitespace; [word] is the run being read. *)
Fixpoint split_from (t : list N) (word : list N) : list (list N) :=
  match t with
  | [] => match word with [] => [] | _ => [word] end
  | c :: t' =>
      if is_whitespace c then
        match word with
        | [] => split_from t' []
        | _ => word :: split_from t' []
        end
      else split_from t' (word ++ [c])
  end.

Definition split (t : list N) : list (list N) := split_from t [].

(** [sep.join(words)]. *)
Fixpoint join (sep : list N) (words : list (list N)) : list N :=
  match words with
  | [] => []
  | [w] => w
  | w :: ws => w ++ sep ++ join sep ws
  end.

(** [text.replace('\\', '')]. *)
Definition remove_backslashes (t : list N) : list N :=
  List.filter (fun c => negb (c =? 92)%N) t.

(** [text.replace('\n\n\n', '\n')]: from left to right, without overlap. *)
Fixpoint replace_triple_newline (t : list N) : list N :=
  match t with
  | 10%N :: 10%N :: 10%N :: t' => 10%N :: replace_triple_newline t'
  | c :: t' => c :: replace_triple_newline t'
  | [] => []
  end.

(** What [split] returns: words, that is non-empty runs of characters
    none of which is whitespace. *)
Definition plain (w : list N) : Prop :=
  List.Forall (fun c => is_whitespace c = false) w.

Definition word (w : list N) : Prop := w <> [] /\ plain w.

End Text.

Module Translator.
Import Py Text.

(** [enable_cache] and [cache_expiry_hours]. *)
Record Config := { enable_cache : bool; cache_expiry_hours : Z }.

(** [_memory_cache] and [_cache_timestamps], keyed by the text hash;
    timestamps are seconds. *)
Record Cache := {
  _memory_cache : gmap string (list N);
  _cache_timestamps : gmap string Q
}.

Definition empty_cache : Cache :=
  {| _memory_cache := ∅; _cache_timestamps := ∅ |}.

(** [_is_likely_english] of the translator. *)
Definition _is_likely_english (text : list N) : bool :=
  let ascii_chars := length (List.filter (fun c => (c <? 128)%N) text) in
  match text with
  | [] => false
  | _ => Qlt_bool 0.8 (inject_Z (Z.of_nat ascii_chars) / inject_Z (Z.of_nat (length text)))
  end.

(** [_clean_input_text]. *)
Definition _clean_input_text (text : list N) : list N :=
  let text := replace_triple_newline (remove_backslashes text) in
  join [32%N] (split text).

Section Service.
(** [hashlib.md5(s.encode('utf-8')).hexdigest()] and [str.lower]. *)
Variable md5 : list N -> string.
Variable lower : list N -> list N.
Variable cfg : Config.
(** The request to the translation service: the content of the first
    choice of the response, or the exception of a failed request. *)
Variable post : list N -> Outcome (list N).

(** [_get_text_hash]. *)
Definition _get_text_hash (text : list N) : string :=
  let normalized_text := lower (strip text) in
  md5 normalized_text.

(** [_get_memory_cached_translation]; [now] is [datetime.now()]. *)
Definition _get_memory_cached_translation (now : Q) (text : list N) (c : Cache)
    : option (list N) * Cache :=
  if negb (enable_cache cfg) then (None, c)
  else
    let text_hash := _get_text_hash text in
    match _memory_cache c !! text_hash with
    | Some cached =>
        match _cache_timestamps c !! text_hash with
        | Some timestamp =>
            if Qlt_bool (now - timestamp) (inject_Z (cache_expiry_hours cfg * 3600))
            then (Some cached, c)
            else (None, {| _memory_cache := delete text_hash (_memory_cache c);
                           _cache_timestamps := delete text_hash (_cache_timestamps c) |})
        | None =>
            (None, {| _memory_cache := delete text_hash (_memory_cache c);
                      _cache_timestamps := _cache_timestamps c |})
        end
    | None => (None, c)
    end.

(** [_cache_translation], for a translator without database, as the
    query processor builds it. *)
Definition _cache_translation (now : Q) (original_text translated_text : list N)
    (c : Cache) : Cache :=
  if negb (enable_cache cfg) then c
  else
    let text_hash := _get_text_hash original_text in
    {| _memory_cache := <[text_hash := translated_text]> (_memory_cache c);
       _cache_timestamps := <[text_hash := now]> (_cache_timestamps c) |}.

(** [_is_valid_translation]; the division raises for an empty original. *)
Definition _is_valid_translation (original translated : list N) : Outcome bool :=
  match translated with
  | [] => Returned false
  | _ =>
      if (length (strip translated) =? 0)%nat then Returned false
      else if decide (lower original = lower translated) then Returned false
      else
        match original with
        | [] => Raised (OtherException "ZeroDivisionError")
        | _ =>
            let length_ratio :=
              inject_Z (Z.of_nat (length translated))
              / inject_Z (Z.of_nat (length original)) in
            if Qlt_bool length_ratio 0.3 || Qlt_bool 3.0 length_ratio
            then Returned false
            else Returned true
        end
  end.

(** The request and what follows it in [translate_mongolian_to_english]:
    the body of the [try] block and its handler. *)
Definition request_translation (now : Q) (text : list N) (c : Cache)
    : list N * Cache :=
  match post text with
  | Returned content =>
      let translated_text := strip content in
      match _is_valid_translation text translated_text with
      | Returned true => (translated_text, _cache_translation now text translated_text c)
      | Returned false => (text, c)
      | Raised _ => (text, c)
      end
  | Raised _ => (text, c)
  end.

(** [translate_mongolian_to_english]; [now] is the time of the cache
    lookup and [later] the time at which a new translation is stored. *)
Definition translate_mongolian_to_english (now later : Q) (text : list N) (c : Cache)
    : list N * Cache :=
  match text with
  | [] => (text, c)
  | _ =>
      if (length (strip text) =? 0)%nat then (text, c)
      else
        let text := strip text in
        if _is_likely_english text then (text, c)
        else
          match _get_memory_cached_translation now text c with
          | (Some (x :: cached), c) => (x :: cached, c)
          | (_, c) =>
              let text := if (4000 <? length text)%nat then firstn 4000 text else text in
              let text := _clean_input_text text in
              request_translation later text c
          end
  end.

End Service.

End Translator.

(** ** The language heuristic of backend/search/elasticsearch_service.py *)

Module ServiceHeuristic.
Import Py.

(** The characters of the [mongolian_chars] literal, as code points. *)
Definition mongolian_chars : list N :=
  [8211; 8734; 8211; 177; 8211; 8804; 8211; 8805; 8211; 165; 8211; 181; 8212;
   235; 8211; 8706; 8211; 8721; 8211; 8719; 8211; 960; 8211; 8747; 8211; 170;
   8211; 186; 8211; 937; 8211; 230; 8211; 248; 8212; 196; 8212; 197; 8212;
   199; 8212; 201; 8212; 209; 8212; 214; 8212; 220; 8212; 225; 8212; 224;
   8212; 226; 8212; 228; 8212; 227; 8212; 229; 8212; 231; 8212; 233; 8212;
   232]%N.

(** [ElasticsearchService._is_likely_english]; [lower] is [str.lower]. *)
Definition _is_likely_english (lower : list N -> list N) (text : list N) : bool :=
  match text with
  | [] => true
  | _ =>
      let has_mongolian :=
        any (fun char => existsb (N.eqb char) mongolian_chars) (lower text) in
      let ascii_ratio :=
        inject_Z (Z.of_nat (length (List.filter (fun char => (char <? 128)%N) text)))
        / inject_Z (Z.of_nat (length text)) in
      negb has_mongolian && Qlt_bool 0.8 ascii_ratio
  end.

End ServiceHeuristic.

(** Texts for the evaluations: "ab  cd" with two spaces, a backslash and a
    tab, and a text of five Cyrillic letters; a hash that is the text
    itself, read as bytes. *)
Definition messy_text : list N := [32; 97; 98; 92; 32; 9; 99; 100; 32]%N.
Definition cyrillic_text : list N := [1076; 1072; 1090; 1072; 1072]%N.
Definition same_chars (t : list N) : list N := t.
Definition text_key (t : list N) : string :=
  string_of_list_ascii (map (fun c => ascii_of_N c) t).
Definition day_cache : Translator.Config :=
  {| Translator.enable_cache := true; Translator.cache_expiry_hours := 24 |}.
Definition answer_engineer (t : list N) : Outcome (list N) :=
  Returned [32; 101; 110; 103; 105; 110; 101; 101; 114; 32]%N.
Definition service_down (t : list N) : Outcome (list N) :=
  Raised (ConnectionError "timeout").

(** * Properties *)

(** ** Facts about the Python built-ins *)

Module PyFacts.
Import Py.

Lemma Qlt_bool_iff (x y : Q) : Qlt_bool x y = true <-> x < y.
Proof.
  unfold Qlt_bool. rewrite negb_true_iff, <- not_true_iff_false, Qle_bool_iff.
  split; [apply Qnot_le_lt | apply Qlt_not_le].
Qed.

Lemma Qlt_bool_false_iff (x y : Q) : Qlt_bool x y = false <-> y <= x.
Proof.
  unfold Qlt_bool. rewrite negb_false_iff. apply Qle_bool_iff.
Qed.

Lemma Qlt_bool_mono (t1 t2 s : Q) :
  t1 <= t2 -> Qlt_bool t2 s = true -> Qlt_bool t1 s = true.
Proof.
  rewrite !Qlt_bool_iff. intros Hle Hlt. eapply Qle_lt_trans; eassumption.
Qed.

Lemma max_spec (a b : Q) : a <= max a b /\ b <= max a b.
Proof.
  unfold max. destruct (Qlt_bool a b) eqn:E.
  - apply Qlt_bool_iff in E. split; lra.
  - apply Qlt_bool_false_iff in E. split; lra.
Qed.

Lemma min_spec (a b : Q) : min a b <= a /\ min a b <= b.
Proof.
  unfold min. destruct (Qlt_bool b a) eqn:E.
  - apply Qlt_bool_iff in E. split; lra.
  - apply Qlt_bool_false_iff in E. split; lra.
Qed.

Lemma min_glb (a b c : Q) : c <= a -> c <= b -> c <= min a b.
Proof. unfold min. destruct (Qlt_bool b a); auto. Qed.

Section SortFacts.
Context {A : Type} (gtb : A -> A -> bool).

Lemma insert_desc_perm (x : A) (l : list A) :
  Permutation (insert_desc gtb x l) (x :: l).
Proof.
  induction l as [|y l IH]; simpl; [reflexivity|].
  destruct (gtb y x); [|reflexivity].
  rewrite IH. apply perm_swap.
Qed.

Lemma sorted_reverse_perm (l : list A) :
  Permutation (sorted_reverse gtb l) l.
Proof.
  induction l as [|x l IH]; simpl; [reflexivity|].
  rewrite insert_desc_perm. now constructor.
Qed.

Lemma sorted_reverse_length (l : list A) :
  length (sorted_reverse gtb l) = length l.
Proof. apply Permutation_length, sorted_reverse_perm. Qed.

Lemma sorted_reverse_In (x : A) (l : list A) :
  In x (sorted_reverse gtb l) <-> In x l.
Proof.
  split; apply Permutation_in;
    [apply sorted_reverse_perm | symmetry; apply sorted_reverse_perm].
Qed.

(** The result is in descending order as soon as "not greater" is a
    transitive relation, which holds for every key comparison. *)
Hypothesis ngt_trans : forall a b c, ngt gtb a b -> ngt gtb b c -> ngt gtb a c.
Hypothesis gtb_asym : forall a b, gtb a b = true -> gtb b a = false.

Lemma insert_desc_hd (x a : A) (l : list A) :
  ngt gtb a x -> HdRel (ngt gtb) a l -> HdRel (ngt gtb) a (insert_desc gtb x l).
Proof using Type.
  intros Hax Hl. destruct l as [|y l]; simpl; [now constructor|].
  destruct (gtb y x); constructor; auto. now inversion Hl.
Qed.

Lemma insert_desc_sorted (x : A) (l : list A) :
  Sorted (ngt gtb) l -> Sorted (ngt gtb) (insert_desc gtb x l).
Proof using gtb_asym.
  induction 1 as [|y l Hs IH Hhd]; simpl; [repeat constructor|].
  destruct (gtb y x) eqn:E.
  - constructor; [assumption|]. apply insert_desc_hd; [|assumption].
    unfold ngt. now apply gtb_asym.
  - constructor; [now constructor|]. now constructor.
Qed.

Lemma sorted_reverse_sorted (l : list A) :
  StronglySorted (ngt gtb) (sorted_reverse gtb l).
Proof using ngt_trans gtb_asym.
  apply Sorted_StronglySorted; [exact ngt_trans|].
  induction l as [|x l IH]; simpl; [constructor|].
  now apply insert_desc_sorted.
Qed.
End SortFacts.

Lemma In_firstn {A} (n : nat) (x : A) (l : list A) :
  In x (firstn n l) -> In x l.
Proof.
  intros H. rewrite <- (firstn_skipn n l). apply in_or_app. now left.
Qed.

Lemma slice_to_In {A} (n : Z) (x : A) (l : list A) :
  In x (slice_to n l) -> In x l.
Proof. unfold slice_to. destruct (0 <=? n)%Z; apply In_firstn. Qed.

Lemma slice_to_length_mono {A B} (n : Z) (l1 : list A) (l2 : list B) :
  (length l1 <= length l2)%nat ->
  (length (slice_to n l1) <= length (slice_to n l2))%nat.
Proof.
  unfold slice_to. intros H. destruct (0 <=? n)%Z; rewrite !length_firstn; lia.
Qed.

End PyFacts.


(** ** The candidate scorer *)

Module ScorerFacts.
Import Py PyFacts Helpers Scorer.

Ltac qnorm := unfold Qdiv in *; cbn [Qinv Qnum Qden] in *.

Lemma multiplier_range (years : Q) :
  1 <= calculate_experience_multiplier years <= 2.
Proof.
  unfold calculate_experience_multiplier.
  repeat (match goal with |- context [Qle_bool ?a ?b] => destruct (Qle_bool a b) end);
    split; unfold Qle; simpl; lia.
Qed.

Lemma experience_years_nonneg (today : Z) (s e : option Z) :
  0 <= _calculate_experience_years today s e.
Proof.
  unfold _calculate_experience_years. destruct s as [s|].
  - pose proof (max_spec (inject_Z (match e with Some e0 => e0 | None => today end - s) / 365.25) 0.0) as [_ H].
    eapply Qle_trans; [|exact H]. unfold Qle; simpl; lia.
  - unfold Qle; simpl; lia.
Qed.

Lemma filter_none {A} (p : A -> bool) (l : list A) :
  (forall x, In x l -> p x = false) -> List.filter p l = [].
Proof.
  induction l as [|x l IH]; simpl; intros H; [reflexivity|].
  rewrite (H x) by now left. apply IH. intros y Hy. apply H. now right.
Qed.

(** *** Grouping by candidate *)

Lemma append_experience_keys (d : list (Z * list Experience)) cid e k :
  In k (map fst (append_experience d cid e)) <-> In k (map fst d) \/ k = cid.
Proof.
  induction d as [|[k0 es0] d IH]; simpl.
  - intuition.
  - destruct (Z.eqb_spec k0 cid) as [->|Hne]; simpl.
    + intuition.
    + rewrite IH. intuition.
Qed.

Lemma append_experience_NoDup (d : list (Z * list Experience)) cid e :
  List.NoDup (map fst d) -> List.NoDup (map fst (append_experience d cid e)).
Proof.
  induction d as [|[k0 es0] d IH]; simpl; intros Hnd.
  - constructor; [simpl; tauto|constructor].
  - inversion Hnd as [|? ? Hnotin Hnd']; subst.
    destruct (Z.eqb_spec k0 cid) as [->|Hne]; simpl.
    + now constructor.
    + constructor; [|now apply IH].
      rewrite append_experience_keys. intros [H|H]; [contradiction|congruence].
Qed.

Lemma append_experience_In (d : list (Z * list Experience)) cid e k es :
  List.NoDup (map fst d) ->
  In (k, es) (append_experience d cid e) ->
  (k <> cid /\ In (k, es) d)
  \/ (k = cid /\ ((exists es0, In (k, es0) d /\ es = es0 ++ [e])
                 \/ (~ In cid (map fst d) /\ es = [e]))).
Proof.
  induction d as [|[k0 es0] d IH]; simpl; intros Hnd Hin.
  - destruct Hin as [Heq|[]]. inversion Heq; subst. right. split; [reflexivity|].
    right. split; [tauto|reflexivity].
  - inversion Hnd as [|? ? Hnotin Hnd']; subst.
    destruct (Z.eqb_spec k0 cid) as [->|Hne]; simpl in Hin.
    + destruct Hin as [Heq|Hin].
      * inversion Heq; subst. right. split; [reflexivity|]. left.
        exists es0. split; [now left|reflexivity].
      * left. split; [|now right].
        intros ->. apply Hnotin. change cid with (fst (cid, es)). now apply in_map.
    + destruct Hin as [Heq|Hin].
      * inversion Heq; subst. left. split; [assumption|now left].
      * destruct (IH Hnd' Hin) as [[Hk Hd]|[Hk [[es1 [Hd Hes]]|[Hfresh Hes]]]].
        -- left. split; [assumption|now right].
        -- right. split; [assumption|]. left. exists es1. split; [now right|assumption].
        -- right. split; [assumption|]. right. split; [|assumption].
           intros [H|H]; [congruence|contradiction].
Qed.

Lemma aggregate_snoc (f : Row -> Experience) (rows : list Row) (r : Row) :
  aggregate f (rows ++ [r])
  = append_experience (aggregate f rows) (candidate_id r) (f r).
Proof. unfold aggregate. now rewrite fold_left_app. Qed.

(** Every group of [candidate_experiences] holds exactly the experiences
    of the rows of that candidate, in row order. *)
Lemma aggregate_inv (f : Row -> Experience) (rows : list Row) :
  List.NoDup (map fst (aggregate f rows))
  /\ (forall r, In r rows -> In (candidate_id r) (map fst (aggregate f rows)))
  /\ (forall k es, In (k, es) (aggregate f rows) ->
        es = map f (List.filter (fun r => (candidate_id r =? k)%Z) rows)).
Proof.
  induction rows as [|r rows IH] using rev_ind.
  - split; [constructor|]. split; [intros r []|intros k es []].
  - destruct IH as (Hnd & Hkeys & Hgroups). rewrite aggregate_snoc.
    split; [now apply append_experience_NoDup|]. split.
    + intros r' Hr'. rewrite append_experience_keys.
      apply in_app_or in Hr'. destruct Hr' as [Hr'|[->|[]]]; [left; auto|now right].
    + intros k es Hin. rewrite List.filter_app, map_app. simpl.
      apply append_experience_In in Hin; [|assumption].
      destruct Hin as [[Hk Hd]|[Hk [[es1 [Hd Hes]]|[Hfresh Hes]]]].
      * destruct (Z.eqb_spec (candidate_id r) k) as [Heq|_]; [congruence|].
        simpl. rewrite app_nil_r. now apply Hgroups.
      * subst k. rewrite Z.eqb_refl. simpl. subst es. f_equal. now apply Hgroups.
      * subst k es. rewrite Z.eqb_refl. simpl.
        assert (List.filter (fun r0 => (candidate_id r0 =? candidate_id r)%Z) rows = []) as ->.
        { apply filter_none. intros r0 Hr0.
          destruct (Z.eqb_spec (candidate_id r0) (candidate_id r)) as [Heq|]; [|reflexivity].
          exfalso. apply Hfresh. rewrite <- Heq. now apply Hkeys. }
        reflexivity.
Qed.

(** *** Building the response objects *)

Lemma ExperienceResponse_inv (exp r : Experience) :
  ExperienceResponse exp = Returned r -> r = exp.
Proof.
  unfold ExperienceResponse.
  destruct (content exp), (exp_structured_content_mn exp),
    (exp_company_name exp), (exp_position_title exp); congruence.
Qed.

Lemma ExperienceResponses_inv (exps rs : list Experience) :
  ExperienceResponses exps = Returned rs ->
  rs = exps /\ forall e, In e exps -> ExperienceResponse e = Returned e.
Proof.
  revert rs. induction exps as [|x exps IH]; simpl; intros rs H.
  - split; [congruence|intros e []].
  - destruct (ExperienceResponse x) as [r|] eqn:Ex; [|discriminate].
    destruct (ExperienceResponses exps) as [rs'|] eqn:Es; [|discriminate].
    apply ExperienceResponse_inv in Ex as Hr. subst r.
    destruct (IH rs' eq_refl) as [-> Hall]. split; [congruence|].
    intros e [<-|He]; [assumption|now apply Hall].
Qed.

Lemma ExperienceResponses_built (exps : list Experience) :
  (forall e, In e exps -> ExperienceResponse e = Returned e) ->
  ExperienceResponses exps = Returned exps.
Proof.
  induction exps as [|x exps IH]; simpl; intros Hall; [reflexivity|].
  rewrite (Hall x (or_introl eq_refl)), IH; [reflexivity|].
  intros e He. apply Hall. now right.
Qed.

Lemma tier_exp_data_built (today : Z) (r : Row) :
  text_present r ->
  ExperienceResponse (tier_exp_data today r) = Returned (tier_exp_data today r).
Proof.
  intros (H1 & H2 & H3 & H4). unfold ExperienceResponse. simpl.
  destruct (structured_content_en r), (structured_content_mn r),
    (company_name r), (position_title r); congruence.
Qed.

Lemma legacy_exp_data_built (w : Weights) (today : Z) (r : Row) :
  text_present r ->
  ExperienceResponse (legacy_exp_data w today r)
  = Returned (legacy_exp_data w today r).
Proof.
  intros (H1 & H2 & H3 & H4). unfold ExperienceResponse. simpl.
  destruct (structured_content_en r), (structured_content_mn r),
    (company_name r), (position_title r); congruence.
Qed.

(** The experiences of the groups are those of the rows. *)
Lemma aggregate_built (f : Row -> Experience) (rows : list Row) :
  (forall r, In r rows -> ExperienceResponse (f r) = Returned (f r)) ->
  forall k es, In (k, es) (aggregate f rows) ->
  forall e, In e es -> ExperienceResponse e = Returned e.
Proof.
  intros Hrows k es Hd e He.
  destruct (aggregate_inv f rows) as (_ & _ & Hgroups).
  rewrite (Hgroups _ _ Hd) in He. apply in_map_iff in He.
  destruct He as (r & <- & Hr). apply filter_In in Hr. now apply Hrows.
Qed.

(** *** The loops of the legacy mode *)

Lemma legacy_loop_snd (t : Q) (es : list Experience) (fs fs' : Q)
    (rel rel' : list Experience) :
  legacy_loop t es fs rel = Returned (fs', rel') ->
  rel' = rel ++ List.filter (fun exp => Qlt_bool t (combined_score exp)) es.
Proof.
  revert fs rel. induction es as [|e es IH]; simpl; intros fs rel H.
  - injection H as _ <-. now rewrite app_nil_r.
  - destruct (Qlt_bool t (combined_score e)).
    + destruct (ExperienceResponse e) as [r|] eqn:Er; [|discriminate].
      apply ExperienceResponse_inv in Er. subst r.
      rewrite (IH _ _ H), <- app_assoc. reflexivity.
    + exact (IH _ _ H).
Qed.

Lemma legacy_loop_built (t : Q) (es : list Experience) (fs : Q)
    (rel : list Experience) :
  (forall e, In e es -> ExperienceResponse e = Returned e) ->
  exists fs',
    legacy_loop t es fs rel
    = Returned (fs', rel ++ List.filter (fun exp => Qlt_bool t (combined_score exp)) es).
Proof.
  revert fs rel. induction es as [|e es IH]; simpl; intros fs rel Hall.
  - exists fs. now rewrite app_nil_r.
  - assert (forall x, In x es -> ExperienceResponse x = Returned x) as Hes
      by (intros x Hx; apply Hall; now right).
    destruct (Qlt_bool t (combined_score e)).
    + rewrite (Hall e (or_introl eq_refl)).
      destruct (IH (fs + calculate_experience_multiplier (years e) * combined_score e)
                   (rel ++ [e]) Hes) as (fs' & ->).
      exists fs'. now rewrite <- app_assoc.
    + now apply IH.
Qed.

Lemma legacy_candidate_In (t : Q) (k : Z) (es : list Experience)
    (new : list CandidateResponse) (c : CandidateResponse) :
  legacy_candidate t (k, es) = Returned new -> In c new ->
  cand_candidate_id c = k
  /\ experiences c = List.filter (fun exp => Qlt_bool t (combined_score exp)) es
  /\ experiences c <> [].
Proof.
  unfold legacy_candidate. intros H Hc.
  destruct (legacy_loop t es 0.0 []) as [[fs rel]|] eqn:E; [|discriminate].
  apply legacy_loop_snd in E. simpl in E. subst rel.
  destruct (List.filter _ es) as [|x l]; injection H as <-; [destruct Hc|].
  destruct Hc as [<-|[]]. repeat split. discriminate.
Qed.

Lemma legacy_candidate_length (t : Q) (k : Z) (es : list Experience)
    (new : list CandidateResponse) :
  legacy_candidate t (k, es) = Returned new ->
  length new
  = match List.filter (fun exp => Qlt_bool t (combined_score exp)) es with
    | [] => 0%nat
    | _ => 1%nat
    end.
Proof.
  unfold legacy_candidate. intros H.
  destruct (legacy_loop t es 0.0 []) as [[fs rel]|] eqn:E; [|discriminate].
  apply legacy_loop_snd in E. simpl in E. subst rel.
  destruct (List.filter _ es); injection H as <-; reflexivity.
Qed.

Lemma legacy_candidate_built (t : Q) (k : Z) (es : list Experience) :
  (forall e, In e es -> ExperienceResponse e = Returned e) ->
  exists new, legacy_candidate t (k, es) = Returned new.
Proof.
  intros Hall. unfold legacy_candidate.
  destruct (legacy_loop_built t es 0.0 [] Hall) as (fs & ->).
  simpl. destruct (List.filter _ es); eexists; reflexivity.
Qed.

Lemma legacy_candidates_returned (t : Q) (entries : list (Z * list Experience))
    (acc out : list CandidateResponse) :
  legacy_candidates t entries acc = Returned out ->
  out = acc ++ flat_map (fun entry => returned_or_nil (legacy_candidate t entry))
                        entries.
Proof.
  revert acc. induction entries as [|entry entries IH]; simpl; intros acc H.
  - injection H as <-. now rewrite app_nil_r.
  - destruct (legacy_candidate t entry) as [new|]; [|discriminate].
    rewrite (IH _ H), <- app_assoc. reflexivity.
Qed.

Lemma legacy_candidates_built (t : Q) (entries : list (Z * list Experience))
    (acc : list CandidateResponse) :
  (forall entry, In entry entries ->
                 exists new, legacy_candidate t entry = Returned new) ->
  exists out, legacy_candidates t entries acc = Returned out.
Proof.
  revert acc. induction entries as [|entry entries IH]; simpl; intros acc Hall.
  - eexists. reflexivity.
  - destruct (Hall entry (or_introl eq_refl)) as (new & ->).
    apply IH. intros e He. apply Hall. now right.
Qed.

End ScorerFacts.


Module ScorerProps.
Import Py PyFacts Helpers Scorer ScorerFacts.

(** *** Membership in the ranked list *)

Lemma tier_candidate_In (t : Q) (k : Z) (es : list Experience) (c : CandidateResponse) :
  In c (tier_candidate t (k, es)) ->
  cand_candidate_id c = k
  /\ cand_final_score c = _calculate_candidate_final_score_fixed es.
Proof.
  unfold tier_candidate.
  destruct (List.filter _ es) as [|x l]; [intros []|].
  destruct (ExperienceResponses (x :: l)); [|intros []].
  intros [<-|[]]. split; reflexivity.
Qed.

Lemma ranked_In (today : Z) (results : list Row) (t : Q) (limit : Z)
    (c : CandidateResponse) :
  In c (_score_tier_based_results_fixed today results t limit) ->
  cand_final_score c
  = _calculate_candidate_final_score_fixed
      (Spec.all_experiences today results (cand_candidate_id c)).
Proof.
  unfold _score_tier_based_results_fixed. intros Hin.
  apply slice_to_In, sorted_reverse_In, in_flat_map in Hin.
  destruct Hin as ([k es] & Hentry & Hc).
  apply tier_candidate_In in Hc. destruct Hc as [Hk Hf].
  destruct (aggregate_inv (tier_exp_data today) (sorted_reverse row_gtb results))
    as (_ & _ & Hgroups).
  rewrite Hf, Hk. f_equal. now apply Hgroups.
Qed.

(** C10: in the tier-based scorer the final score of a returned candidate
    does not depend on the score threshold.  Two runs on the same rows
    and limit that differ only in the threshold give a candidate the same
    final score, namely the score computed from all of the candidate's
    experiences, before the threshold filter is applied. *)
Theorem final_score_independent_of_threshold
    (today : Z) (results : list Row) (limit : Z) (t1 t2 : Q)
    (c1 c2 : CandidateResponse) :
  In c1 (_score_tier_based_results_fixed today results t1 limit) ->
  In c2 (_score_tier_based_results_fixed today results t2 limit) ->
  cand_candidate_id c1 = cand_candidate_id c2 ->
  cand_final_score c1 = cand_final_score c2
  /\ cand_final_score c1
     = _calculate_candidate_final_score_fixed
         (Spec.all_experiences today results (cand_candidate_id c1)).
Proof.
  intros H1 H2 Hid. apply ranked_In in H1. apply ranked_In in H2.
  split; [|assumption]. rewrite H1, H2, Hid. reflexivity.
Qed.

Lemma final_score_independent_of_threshold_witness :
  let out1 := _score_tier_based_results_fixed day6y rows_exact_vs_relevant 0.1 10 in
  let out2 := _score_tier_based_results_fixed day6y rows_exact_vs_relevant 140 10 in
  let c1 := nth 1 out1 no_candidate in
  let c2 := nth 1 out2 no_candidate in
  (In c1 out1 /\ In c2 out2 /\ cand_candidate_id c1 = cand_candidate_id c2)
  /\ length (experiences c1) = 2%nat /\ length (experiences c2) = 1%nat
  /\ cand_final_score c1 = cand_final_score c2
  /\ cand_final_score c1
     = _calculate_candidate_final_score_fixed
         (Spec.all_experiences day6y rows_exact_vs_relevant (cand_candidate_id c1)).
Proof.
  intros out1 out2 c1 c2.
  assert (In c1 out1) as H1 by (vm_compute; right; left; reflexivity).
  assert (In c2 out2) as H2 by (vm_compute; right; left; reflexivity).
  assert (cand_candidate_id c1 = cand_candidate_id c2) as Hid by reflexivity.
  split; [exact (conj H1 (conj H2 Hid))|].
  split; [vm_compute; reflexivity|]. split; [vm_compute; reflexivity|].
  exact (final_score_independent_of_threshold day6y rows_exact_vs_relevant 10
           0.1 140 c1 c2 H1 H2 Hid).
Defined.

(** *** Counting the returned candidates *)

Lemma filter_threshold_nonempty (t1 t2 : Q) (es : list Experience) :
  t1 <= t2 ->
  List.filter (fun exp => Qlt_bool t2 (combined_score exp)) es <> [] ->
  List.filter (fun exp => Qlt_bool t1 (combined_score exp)) es <> [].
Proof.
  intros Hle Hne Hnil.
  destruct (List.filter (fun exp => Qlt_bool t2 (combined_score exp)) es)
    as [|x l] eqn:E; [now apply Hne|].
  assert (In x (List.filter (fun exp => Qlt_bool t2 (combined_score exp)) es)) as Hx
    by (rewrite E; now left).
  apply filter_In in Hx. destruct Hx as [Hin Hx].
  assert (In x (List.filter (fun exp => Qlt_bool t1 (combined_score exp)) es)) as Hx1.
  { apply filter_In. split; [assumption|]. eapply Qlt_bool_mono; eassumption. }
  rewrite Hnil in Hx1. destruct Hx1.
Qed.

Lemma tier_candidate_length (t : Q) (k : Z) (es : list Experience) :
  (forall e, In e es -> ExperienceResponse e = Returned e) ->
  length (tier_candidate t (k, es))
  = match List.filter (fun exp => Qlt_bool t (combined_score exp)) es with
    | [] => 0%nat
    | _ => 1%nat
    end.
Proof.
  intros Hall. unfold tier_candidate.
  destruct (List.filter _ es) as [|x l] eqn:E; [reflexivity|].
  rewrite ExperienceResponses_built; [reflexivity|].
  intros e He. rewrite <- E in He. apply filter_In in He. now apply Hall.
Qed.

Lemma kept_length_antitone (t1 t2 : Q) (es : list Experience) :
  t1 <= t2 ->
  (match List.filter (fun exp => Qlt_bool t2 (combined_score exp)) es with
   | [] => 0 | _ => 1 end
   <= match List.filter (fun exp => Qlt_bool t1 (combined_score exp)) es with
      | [] => 0 | _ => 1 end)%nat.
Proof.
  intros Hle. pose proof (filter_threshold_nonempty t1 t2 es Hle) as H.
  destruct (List.filter (fun exp => Qlt_bool t2 (combined_score exp)) es);
    [lia|].
  destruct (List.filter (fun exp => Qlt_bool t1 (combined_score exp)) es);
    [|lia].
  exfalso. now apply H.
Qed.

Lemma flat_map_length_le {A B} (f g : A -> list B) (l : list A) :
  (forall a, In a l -> length (f a) <= length (g a))%nat ->
  (length (flat_map f l) <= length (flat_map g l))%nat.
Proof.
  induction l as [|a l IH]; simpl; intros H; [lia|].
  rewrite !length_app. pose proof (H a (or_introl eq_refl)).
  assert (length (flat_map f l) <= length (flat_map g l))%nat
    by (apply IH; intros x Hx; apply H; now right).
  lia.
Qed.

(** C6 as stated fails: the tier-based mode skips a candidate whose
    response cannot be built.  At threshold 0.1 the semantic-only
    experience with the null company name is listed and candidate 1 is
    skipped; at threshold 50 only the exact experience is listed and the
    candidate is returned. *)
Lemma candidate_count_not_antitone :
  0.1 <= 50
  /\ score_and_rank_candidates default_weights day6y rows_null_company 0.1 10
     = Returned []
  /\ (exists c,
        score_and_rank_candidates default_weights day6y rows_null_company 50 10
        = Returned [c])
  /\ ~ (forall out1 out2,
          score_and_rank_candidates default_weights day6y rows_null_company 0.1 10
          = Returned out1 ->
          score_and_rank_candidates default_weights day6y rows_null_company 50 10
          = Returned out2 ->
          (length out2 <= length out1)%nat).
Proof.
  assert (score_and_rank_candidates default_weights day6y rows_null_company 0.1 10
          = Returned []) as H1 by (vm_compute; reflexivity).
  split; [unfold Qle; simpl; lia|]. split; [exact H1|]. split.
  - eexists. vm_compute. reflexivity.
  - intros H. specialize (H _ _ H1 eq_refl). vm_compute in H. lia.
Qed.

(** C6, amended: for a fixed result list none of whose rows has a null
    text column, and a fixed limit, [score_and_rank_candidates] returns,
    and the number of candidates it returns is antitone in the score
    threshold: raising the threshold never returns more candidates. *)
Theorem candidate_count_antitone_without_nulls
    (w : Weights) (today : Z) (results : list Row) (limit : Z) (t1 t2 : Q) :
  (forall r, In r results -> text_present r) ->
  t1 <= t2 ->
  exists out1 out2,
    score_and_rank_candidates w today results t1 limit = Returned out1
    /\ score_and_rank_candidates w today results t2 limit = Returned out2
    /\ (length out2 <= length out1)%nat.
Proof.
  intros Htext Hle. unfold score_and_rank_candidates, try_except.
  destruct (any _ _).
  - eexists _, _. split; [reflexivity|]. split; [reflexivity|].
    unfold _score_tier_based_results_fixed.
    apply slice_to_length_mono. rewrite !sorted_reverse_length.
    apply flat_map_length_le. intros [k es] Hd.
    assert (forall e, In e es -> ExperienceResponse e = Returned e) as Hes.
    { apply (aggregate_built (tier_exp_data today) (sorted_reverse row_gtb results))
        with (k := k); [|exact Hd].
      intros r Hr. apply tier_exp_data_built, Htext.
      now apply sorted_reverse_In in Hr. }
    rewrite !tier_candidate_length by exact Hes. now apply kept_length_antitone.
  - unfold _score_legacy_results.
    assert (forall t entry,
              In entry (aggregate (legacy_exp_data w today) results) ->
              exists new, legacy_candidate t entry = Returned new) as Hbuilt.
    { intros t [k es] Hd. apply legacy_candidate_built.
      apply (aggregate_built (legacy_exp_data w today) results) with (k := k);
        [|exact Hd].
      intros r Hr. now apply legacy_exp_data_built, Htext. }
    destruct (legacy_candidates_built t1 _ [] (Hbuilt t1)) as (c1 & E1).
    destruct (legacy_candidates_built t2 _ [] (Hbuilt t2)) as (c2 & E2).
    rewrite E1, E2. eexists _, _. split; [reflexivity|]. split; [reflexivity|].
    apply legacy_candidates_returned in E1, E2. subst c1 c2. simpl.
    apply slice_to_length_mono. rewrite !sorted_reverse_length.
    apply flat_map_length_le. intros [k es] Hd.
    destruct (Hbuilt t1 _ Hd) as (n1 & N1). destruct (Hbuilt t2 _ Hd) as (n2 & N2).
    rewrite N1, N2. simpl.
    rewrite (legacy_candidate_length _ _ _ _ N1), (legacy_candidate_length _ _ _ _ N2).
    now apply kept_length_antitone.
Qed.

Lemma candidate_count_antitone_without_nulls_witness :
  0.1 <= 160
  /\ exists out1 out2,
       score_and_rank_candidates default_weights day6y rows_exact_vs_relevant 0.1 10
       = Returned out1
       /\ score_and_rank_candidates default_weights day6y rows_exact_vs_relevant 160 10
          = Returned out2
       /\ (length out2 <= length out1)%nat.
Proof.
  assert (0.1 <= 160) as Hle by (unfold Qle; simpl; lia).
  split; [exact Hle|].
  refine (candidate_count_antitone_without_nulls default_weights day6y
            rows_exact_vs_relevant 10 0.1 160 _ Hle).
  intros r [<-|[<-|[<-|[]]]]; repeat split; discriminate.
Defined.

(** *** The score bands *)

(** The bands are separated as long as the retrieval scores stay below
    80000: the lowest exact score is 130, the relevant scores then stay
    below 126 and above 12, the other scores below 10.8. *)
Lemma tier_bands_separated_when_bounded (r1 r2 r3 : Row) (y1 y2 y3 : Q) :
  match_tier r1 = Some "exact" ->
  match_tier r2 = Some "relevant" ->
  String.eqb (get (match_tier r3) "similar") "exact" = false ->
  String.eqb (get (match_tier r3) "similar") "relevant" = false ->
  0 <= get (elasticsearch_score r1) 0 ->
  0 <= get (elasticsearch_score r2) 0 <= 80000 ->
  0 <= get (elasticsearch_score r3) 0 <= 80000 ->
  _calculate_tier_score_fixed r3 y3 < _calculate_tier_score_fixed r2 y2
  /\ _calculate_tier_score_fixed r2 y2 < _calculate_tier_score_fixed r1 y1.
Proof.
  intros T1 T2 T3 T3' E1 E2 E3. unfold _calculate_tier_score_fixed.
  rewrite T1, T2, T3, T3'. cbn [get String.eqb Ascii.eqb Bool.eqb].
  pose proof (multiplier_range y1). pose proof (multiplier_range y2).
  pose proof (multiplier_range y3).
  set (m1 := calculate_experience_multiplier y1) in *.
  set (m2 := calculate_experience_multiplier y2) in *.
  set (m3 := calculate_experience_multiplier y3) in *.
  set (e1 := get (elasticsearch_score r1) 0) in *.
  set (e2 := get (elasticsearch_score r2) 0) in *.
  set (e3 := get (elasticsearch_score r3) 0) in *.
  qnorm. split; nra.
Qed.

(** *** The exact boost, for bounded retrieval scores *)

Lemma max_by_score_spec (best : Experience) (l : list Experience) :
  In (max_by_score best l) (best :: l)
  /\ forall e, In e (best :: l) ->
               combined_score e <= combined_score (max_by_score best l).
Proof.
  revert best. induction l as [|x l IH]; intros best; simpl.
  - split; [now left|]. intros e [<-|[]]. lra.
  - destruct (Qlt_bool (combined_score best) (combined_score x)) eqn:E.
    + apply Qlt_bool_iff in E. destruct (IH x) as [Hin Hmax]. split.
      * right. exact Hin.
      * intros e [<-|He]; [|now apply Hmax].
        specialize (Hmax x (or_introl eq_refl)). lra.
    + apply Qlt_bool_false_iff in E. destruct (IH best) as [Hin Hmax]. split.
      * destruct Hin as [Hin|Hin]; [now left|right; now right].
      * intros e [<-|[<-|He]].
        -- apply Hmax. now left.
        -- specialize (Hmax best (or_introl eq_refl)). lra.
        -- apply Hmax. now right.
Qed.

Lemma exact_experience_score (today : Z) (r : Row) :
  match_tier r = Some "exact" -> 0 <= get (elasticsearch_score r) 0 ->
  get_eq (exp_match_tier (tier_exp_data today r)) "exact" = true
  /\ 130 <= combined_score (tier_exp_data today r).
Proof.
  intros T E. unfold tier_exp_data, _calculate_tier_score_fixed. simpl.
  rewrite T. cbn [get String.eqb Ascii.eqb Bool.eqb]. split; [reflexivity|].
  pose proof (multiplier_range
                (_calculate_experience_years today (start_date r) (end_date r))).
  set (m := calculate_experience_multiplier _) in *.
  set (e := get (elasticsearch_score r) 0) in *.
  qnorm. nra.
Qed.

Lemma other_experience_score (today : Z) (r : Row) :
  match_tier r <> Some "exact" -> 0 <= get (elasticsearch_score r) 0 <= 80000 ->
  get_eq (exp_match_tier (tier_exp_data today r)) "exact" = false
  /\ 0 <= combined_score (tier_exp_data today r) <= 126.
Proof.
  intros T E. unfold tier_exp_data, _calculate_tier_score_fixed. simpl.
  assert (forall d, String.eqb (get (match_tier r) d) "exact" = true -> d = "exact")
    as Hd.
  { intros d. destruct (match_tier r) as [t|]; simpl.
    - intros H. apply String.eqb_eq in H. congruence.
    - apply String.eqb_eq. }
  assert (String.eqb (get (match_tier r) "unknown") "exact" = false) as ->
    by (apply not_true_is_false; intros H; apply Hd in H; discriminate).
  assert (String.eqb (get (match_tier r) "similar") "exact" = false) as ->
    by (apply not_true_is_false; intros H; apply Hd in H; discriminate).
  split; [reflexivity|].
  pose proof (multiplier_range
                (_calculate_experience_years today (start_date r) (end_date r))).
  set (m := calculate_experience_multiplier _) in *.
  set (e := get (elasticsearch_score r) 0) in *.
  destruct (String.eqb _ "relevant"); qnorm; split; nra.
Qed.

Lemma additional_score_bounds (l : list Experience) (bound : Q) :
  (forall e, In e l -> 0 <= combined_score e <= bound) ->
  0 <= sum (map (fun exp => combined_score exp * 0.1) (slice 1 3 l))
  /\ sum (map (fun exp => combined_score exp * 0.1) (slice 1 3 l)) <= 0.2 * bound
     \/ l = [].
Proof.
  intros H. destruct l as [|a [|b [|c l]]]; [now right|left..].
  - pose proof (H a (or_introl eq_refl)). unfold sum, slice. simpl. lra.
  - pose proof (H a (or_introl eq_refl)).
    pose proof (H b (or_intror (or_introl eq_refl))).
    unfold sum, slice. simpl. lra.
  - pose proof (H a (or_introl eq_refl)).
    pose proof (H b (or_intror (or_introl eq_refl))).
    pose proof (H c (or_intror (or_intror (or_introl eq_refl)))).
    unfold sum, slice. simpl. lra.
Qed.

(** X19: when every retrieval score lies in [0, 80000], a candidate with an
    exact-tier experience gets a higher final score than a candidate whose
    best experience is not exact-tier. *)
Lemma exact_boost_when_scores_bounded (today : Z) (rowsA rowsB : list Row) :
  (forall r, In r (rowsA ++ rowsB) -> 0 <= get (elasticsearch_score r) 0 <= 80000) ->
  (exists r, In r rowsA /\ match_tier r = Some "exact") ->
  (forall e0 rest, map (tier_exp_data today) rowsB = e0 :: rest ->
                   get_eq (exp_match_tier (max_by_score e0 rest)) "exact" = false) ->
  _calculate_candidate_final_score_fixed (map (tier_exp_data today) rowsB)
  < _calculate_candidate_final_score_fixed (map (tier_exp_data today) rowsA).
Proof.
  intros Hes (rx & Hrx & Tx) HB.
  assert (forall rows e, (forall r, In r rows -> In r (rowsA ++ rowsB)) ->
            In e (map (tier_exp_data today) rows) ->
            0 <= combined_score e
            /\ (get_eq (exp_match_tier e) "exact" = false -> combined_score e <= 126))
    as Hscore.
  { intros rows e Hsub He. apply in_map_iff in He. destruct He as (r & <- & Hr).
    specialize (Hes r (Hsub r Hr)).
    destruct (decide (match_tier r = Some "exact")) as [T|T].
    - destruct (exact_experience_score today r T) as [Hx Hs]; [lra|].
      split; [lra|]. rewrite Hx. discriminate.
    - destruct (other_experience_score today r T Hes) as [_ Hs]. split; [lra|].
      intros _. lra. }
  assert (1130 <= _calculate_candidate_final_score_fixed (map (tier_exp_data today) rowsA))
    as HA.
  { assert (In (tier_exp_data today rx) (map (tier_exp_data today) rowsA)) as Hex
      by now apply in_map.
    destruct (exact_experience_score today rx Tx) as [_ Hx130];
      [apply (Hes rx); apply in_or_app; now left|].
    unfold _calculate_candidate_final_score_fixed.
    destruct (map (tier_exp_data today) rowsA) as [|e0 rest] eqn:EA; [destruct Hex|].
    destruct (max_by_score_spec e0 rest) as [Hin Hmax].
    specialize (Hmax _ Hex).
    assert (forall e, In e (e0 :: rest) -> 0 <= combined_score e
              /\ (get_eq (exp_match_tier e) "exact" = false -> combined_score e <= 126))
      as HsA.
    { intros e He. apply (Hscore rowsA); [|now rewrite EA].
      intros r Hr. apply in_or_app. now left. }
    destruct (HsA _ Hin) as [_ Hbest].
    destruct (get_eq (exp_match_tier (max_by_score e0 rest)) "exact");
      [|specialize (Hbest eq_refl); lra].
    destruct (additional_score_bounds (e0 :: rest) (combined_score (max_by_score e0 rest)))
      as [[Hadd _]|Hnil]; [|lra|discriminate].
    intros e He. split; [now apply HsA|].
    now apply (proj2 (max_by_score_spec e0 rest)). }
  assert (_calculate_candidate_final_score_fixed (map (tier_exp_data today) rowsB) <= 151.2)
    as HBound.
  { unfold _calculate_candidate_final_score_fixed.
    destruct (map (tier_exp_data today) rowsB) as [|e0 rest] eqn:EB;
      [unfold Qle; simpl; lia|].
    specialize (HB e0 rest eq_refl).
    destruct (max_by_score_spec e0 rest) as [Hin Hmax].
    assert (forall e, In e (e0 :: rest) -> 0 <= combined_score e
              /\ (get_eq (exp_match_tier e) "exact" = false -> combined_score e <= 126))
      as HsB.
    { intros e He. apply (Hscore rowsB); [|now rewrite EB].
      intros r Hr. apply in_or_app. now right. }
    destruct (HsB _ Hin) as [Hpos Hbest]. specialize (Hbest HB). rewrite HB.
    destruct (additional_score_bounds (e0 :: rest) (combined_score (max_by_score e0 rest)))
      as [[_ Hadd]|Hnil]; [|lra|discriminate].
    intros e He. split; [now apply HsB|now apply Hmax]. }
  lra.
Qed.

(** C2: the per-experience score of an exact match is not always above
    the score of a relevant match.  An exact match with retrieval score
    100 and no tenure scores 131.3; a relevant match with retrieval
    score 100000 and six years of tenure scores 154. *)
Theorem relevant_score_above_exact_score :
  let exact := tier_exp_data day6y (lexical_row 1 1 "exact" 100 day0 day0) in
  let relevant := tier_exp_data day6y (lexical_row 2 1 "relevant" 100000 day0 day6y) in
  combined_score exact == 131.3
  /\ combined_score relevant == 154
  /\ combined_score exact < combined_score relevant.
Proof. vm_compute. repeat split. Qed.

(** C1: a candidate with an exact-tier experience can rank below a
    candidate whose experiences are all relevant-tier.  On
    [rows_exact_vs_relevant] candidate 2 (one relevant match) gets the
    final score 182 and is ranked first; candidate 1 (an exact and a
    relevant match) gets 847/5 = 169.4. *)
Theorem exact_candidate_ranked_below_relevant :
  exists ranked,
    score_and_rank_candidates default_weights day6y rows_exact_vs_relevant 0.1 10
    = Returned ranked
    /\ map (fun c => (cand_candidate_id c, Qred (cand_final_score c),
                      map exp_match_tier (experiences c)))
           ranked
       = [ (2%Z, 182, [Some "relevant"]);
           (1%Z, 847 # 5, [Some "exact"; Some "relevant"]) ].
Proof. eexists. split; vm_compute; reflexivity. Qed.

(** C5: the additional term is taken from the second and third
    experiences of the candidate's list, not from the two highest
    scores below the best one.  For the two exact matches of
    [rows_two_exact], scored 131.3 and 804/5 = 160.8 in list order, the code
    returns 1000 + 160.8 + 0.1 * 160.8 = 1176.88, while the specified
    formula gives 1000 + 160.8 + 0.1 * 131.3 = 1173.93. *)
Theorem additional_score_counts_best_again :
  let exps := Spec.all_experiences day6y rows_two_exact 1 in
  map (fun e => Qred (combined_score e)) exps = [131.3; 804 # 5]
  /\ _calculate_candidate_final_score_fixed exps == 1176.88
  /\ Spec.final_score_as_specified exps == 1173.93.
Proof. vm_compute. repeat split. Qed.

End ScorerProps.


(** ** Binary64 rounding *)

Module Float64Facts.
Import Py Float64.

Lemma pow2_pos (k : Z) : 0 < pow2 k.
Proof. unfold pow2. apply Qpower_0_lt. reflexivity. Qed.

Lemma pow2_nonneg_Z (k : Z) : (0 <= k)%Z -> pow2 k == inject_Z (2 ^ k).
Proof. intros Hk. unfold pow2. now rewrite Zpower_Qpower. Qed.

Lemma pow2_minus (a b : Z) : pow2 (a - b) == pow2 a / pow2 b.
Proof. unfold pow2. apply Qpower_minus. discriminate. Qed.

(** [exponent] never overshoots: [2 ** exponent x <= x]. *)
Lemma exponent_le (x : Q) : 0 < x -> pow2 (exponent x) <= x.
Proof.
  intros Hx. unfold exponent.
  set (ln := Z.log2 (Qnum x)). set (ld := Z.log2 (Z.pos (Qden x))).
  destruct (Qle_bool (pow2 (ln - ld)) x) eqn:E; [now apply Qle_bool_iff|].
  assert (0 < Qnum x)%Z as Hn.
  { destruct x as [n d]. unfold Qlt in Hx. simpl in *. lia. }
  assert (0 <= ln)%Z as Hln by apply Z.log2_nonneg.
  assert (0 <= ld)%Z as Hld by apply Z.log2_nonneg.
  destruct (Z.log2_spec (Qnum x) Hn) as [Hn1 _].
  destruct (Z.log2_spec (Z.pos (Qden x)) (Pos2Z.is_pos _)) as [_ Hd2].
  fold ln in Hn1. fold ld in Hd2.
  replace (ln - ld - 1)%Z with (ln - Z.succ ld)%Z by lia.
  rewrite pow2_minus, !pow2_nonneg_Z by lia.
  assert (0 < 2 ^ Z.succ ld)%Z as Hpos by (apply Z.pow_pos_nonneg; lia).
  destruct x as [n d]. simpl in *.
  unfold Qle, Qdiv, Qmult, Qinv, inject_Z. simpl.
  destruct (2 ^ Z.succ ld)%Z as [|p|p] eqn:Ep; try lia. simpl.
  apply Z.mul_le_mono_nonneg; lia.
Qed.

Lemma exponent_lower (x : Q) : 1 <= x -> (-1 <= exponent x)%Z.
Proof.
  intros Hx. unfold exponent.
  assert (Z.log2 (Z.pos (Qden x)) <= Z.log2 (Qnum x))%Z.
  { apply Z.log2_le_mono. destruct x as [n d]. unfold Qle in Hx. simpl in *. lia. }
  destruct (Qle_bool _ x); lia.
Qed.

Lemma nearest_even_near (y : Q) : -1 <= inject_Z (nearest_even y) - y <= 1.
Proof.
  unfold nearest_even. pose proof (Qfloor_le y) as Hlo.
  pose proof (Qlt_floor y) as Hhi. rewrite inject_Z_plus in Hhi.
  change (inject_Z 1) with 1 in Hhi.
  destruct (Qcompare _ _); [destruct (Z.even _)| |];
    rewrite ?inject_Z_plus; change (inject_Z 1) with 1; lra.
Qed.

(** The relative error of rounding is at most [2 ** -52] (it is at most
    [2 ** -53]; the coarser bound is all that the ordering needs). *)
Lemma round_near (x : Q) :
  1 <= x -> x - x * pow2 (-52) <= round x <= x + x * pow2 (-52).
Proof.
  intros Hx. unfold round.
  assert (Qeq_bool x 0 = false) as ->.
  { apply not_true_iff_false. rewrite Qeq_bool_iff. lra. }
  assert (Qlt_bool x 0 = false) as ->.
  { unfold Qlt_bool. apply negb_false_iff, Qle_bool_iff. lra. }
  assert (Qabs x == x) as Habs by (apply Qabs_pos; lra).
  set (a := Qabs x) in *.
  assert (1 <= a) as Ha by lra.
  pose proof (exponent_le a ltac:(lra)) as He.
  pose proof (exponent_lower a Ha) as Hlow.
  rewrite Z.max_l by lia.
  set (e := exponent a) in *.
  pose proof (pow2_pos (e - 52)) as Hq.
  pose proof (nearest_even_near (a / pow2 (e - 52))) as Hm.
  set (m := inject_Z (nearest_even (a / pow2 (e - 52)))) in *.
  assert (pow2 (e - 52) == pow2 e * pow2 (-52)) as Hsplit.
  { unfold pow2. replace (e - 52)%Z with (e + -52)%Z by lia.
    apply Qpower_plus. discriminate. }
  pose proof (pow2_pos (-52)) as H52.
  assert (a / pow2 (e - 52) * pow2 (e - 52) == a) as Hdiv
    by (field; lra).
  set (q := pow2 (e - 52)) in *. set (y := a / q) in *.
  assert (a - q <= m * q <= a + q) as Hb.
  { rewrite <- Hdiv. split; nra. }
  assert (q <= a * pow2 (-52)) as Hqa.
  { rewrite Hsplit. apply Qmult_le_compat_r; lra. }
  rewrite <- Habs. lra.
Qed.

End Float64Facts.


(** ** Score fusion *)

Module FusionFacts.
Import Py PyFacts Fusion.

(** *** The semantic lookup *)

Lemma semantic_map_snoc (sem : list Row) (s : Row) :
  semantic_map (sem ++ [s]) = <[id s := s]> (semantic_map sem).
Proof. unfold semantic_map. now rewrite fold_left_app. Qed.

Lemma semantic_map_lookup (sem : list Row) (k : Z) :
  semantic_map sem !! k = List.find (fun s => (id s =? k)%Z) (rev sem).
Proof.
  induction sem as [|s sem IH] using rev_ind; [reflexivity|].
  rewrite semantic_map_snoc, rev_app_distr. simpl.
  destruct (Z.eqb_spec (id s) k) as [->|Hne].
  - apply lookup_insert_eq.
  - rewrite lookup_insert_ne by assumption. exact IH.
Qed.

Lemma semantic_score_lookup (sem : list Row) (k : Z) :
  match semantic_map sem !! k with
  | Some result => get (norm_cos_sim result) 0
  | None => 0.0
  end = Spec.semantic_of sem k.
Proof. unfold Spec.semantic_of. now rewrite semantic_map_lookup. Qed.

Lemma semantic_of_absent (sem : list Row) (k : Z) :
  ~ In k (map id sem) -> Spec.semantic_of sem k = 0.0.
Proof.
  intros Hnotin. unfold Spec.semantic_of.
  destruct (List.find _ (rev sem)) as [s|] eqn:E; [|reflexivity].
  apply find_some in E. destruct E as [Hin Hk].
  exfalso. apply Hnotin. apply Z.eqb_eq in Hk. subst k.
  apply in_map. now apply in_rev.
Qed.

(** *** The two loops *)

Lemma lexical_loop_acc (m : gmap Z Row) (es : list Row) (seen : gset Z)
    (acc : list Row) (o : Row) :
  In o acc -> In o (fst (lexical_loop m es seen acc)).
Proof.
  revert seen acc. induction es as [|r es IH]; simpl; intros seen acc Hin;
    [assumption|].
  destruct (decide (id r ∈ seen)); apply IH; [assumption|].
  apply in_or_app. now left.
Qed.

Lemma lexical_loop_first (m : gmap Z Row) (pre post : list Row) (r : Row)
    (seen : gset Z) (acc : list Row) :
  id r ∉ seen -> ~ In (id r) (map id pre) ->
  In (fuse_lexical m r) (fst (lexical_loop m (pre ++ r :: post) seen acc)).
Proof.
  revert seen acc. induction pre as [|p pre IH]; simpl; intros seen acc Hseen Hpre.
  - destruct (decide (id r ∈ seen)); [contradiction|].
    apply lexical_loop_acc. apply in_or_app. right. now left.
  - destruct (decide (id p ∈ seen)); apply IH; try tauto.
    rewrite elem_of_union, elem_of_singleton. intros [Heq|Hin]; [|contradiction].
    apply Hpre. left. now symmetry.
Qed.

Lemma lexical_loop_origin (m : gmap Z Row) (es : list Row) (seen : gset Z)
    (acc : list Row) (o : Row) :
  In o (fst (lexical_loop m es seen acc)) ->
  In o acc \/ exists r, In r es /\ o = fuse_lexical m r.
Proof.
  revert seen acc. induction es as [|r es IH]; simpl; intros seen acc Hin;
    [now left|].
  destruct (decide (id r ∈ seen)); apply IH in Hin.
  - destruct Hin as [H|(r' & Hr' & Ho)]; [now left|]. right. exists r'. tauto.
  - destruct Hin as [H|(r' & Hr' & Ho)].
    + apply in_app_or in H. destruct H as [H|[<-|[]]]; [now left|].
      right. exists r. tauto.
    + right. exists r'. tauto.
Qed.

Lemma lexical_loop_seen (m : gmap Z Row) (es : list Row) (seen : gset Z)
    (acc : list Row) (k : Z) :
  k ∈ snd (lexical_loop m es seen acc) <-> k ∈ seen \/ In k (map id es).
Proof.
  revert seen acc. induction es as [|r es IH]; simpl; intros seen acc.
  - tauto.
  - destruct (decide (id r ∈ seen)) as [Hin|Hnotin]; rewrite IH.
    + split; [tauto|]. intros [H|[<-|H]]; tauto.
    + rewrite elem_of_union, elem_of_singleton.
      split; [intros [[->|H]|H]; tauto|intros [H|[<-|H]]; tauto].
Qed.

Lemma semantic_loop_acc (sem : list Row) (seen : gset Z) (acc : list Row) (o : Row) :
  In o acc -> In o (semantic_loop sem seen acc).
Proof.
  revert acc. induction sem as [|s sem IH]; simpl; intros acc Hin; [assumption|].
  destruct (decide (id s ∈ seen)); apply IH; [assumption|].
  apply in_or_app. now left.
Qed.

Lemma semantic_loop_unseen (sem : list Row) (seen : gset Z) (acc : list Row) (s : Row) :
  In s sem -> id s ∉ seen ->
  In (fuse_semantic_only s) (semantic_loop sem seen acc).
Proof.
  revert acc. induction sem as [|s0 sem IH]; simpl; intros acc Hin Hseen;
    [destruct Hin|].
  destruct Hin as [->|Hin].
  - destruct (decide (id s ∈ seen)); [contradiction|].
    apply semantic_loop_acc. apply in_or_app. right. now left.
  - destruct (decide (id s0 ∈ seen)); now apply IH.
Qed.

Lemma semantic_loop_origin (sem : list Row) (seen : gset Z) (acc : list Row) (o : Row) :
  In o (semantic_loop sem seen acc) ->
  In o acc \/ exists s, In s sem /\ o = fuse_semantic_only s.
Proof.
  revert acc. induction sem as [|s sem IH]; simpl; intros acc Hin; [now left|].
  destruct (decide (id s ∈ seen)); apply IH in Hin.
  - destruct Hin as [H|(s' & Hs' & Ho)]; [now left|]. right. exists s'. tauto.
  - destruct Hin as [H|(s' & Hs' & Ho)].
    + apply in_app_or in H. destruct H as [H|[<-|[]]]; [now left|].
      right. exists s. tauto.
    + right. exists s'. tauto.
Qed.

(** Membership in the fused list, in terms of the two loops. *)
Lemma combine_In (es sem : list Row) (o : Row) :
  In o (_combine_results_with_tier_weights es sem)
  <-> In o (semantic_loop sem (snd (lexical_loop (semantic_map sem) es ∅ []))
              (fst (lexical_loop (semantic_map sem) es ∅ []))).
Proof.
  unfold _combine_results_with_tier_weights.
  destruct (lexical_loop (semantic_map sem) es ∅ []) as [acc seen]. simpl.
  apply sorted_reverse_In.
Qed.

Lemma combine_origin (es sem : list Row) (o : Row) :
  In o (_combine_results_with_tier_weights es sem) ->
  (exists r, In r es /\ o = fuse_lexical (semantic_map sem) r)
  \/ (exists s, In s sem /\ o = fuse_semantic_only s).
Proof.
  rewrite combine_In. intros Hin.
  apply semantic_loop_origin in Hin. destruct Hin as [Hin|Hin]; [|now right].
  apply lexical_loop_origin in Hin. destruct Hin as [[]|Hin]. now left.
Qed.

End FusionFacts.


Module FusionProps.
Import Py PyFacts Fusion FusionFacts.

(** C4: every lexical match fed to fusion (the first one for its
    experience id) appears in the output with its own tier and the fused
    score [w_lex * min(lexicalScore / 10000, 1.0) + w_sem * semantic],
    the weights being (0.9, 0.1) for exact, (0.5, 0.5) for relevant and
    (0.1, 0.9) for any other tier, and [semantic] being 0.0 when the id
    has no semantic match; every semantic match whose id is in no lexical
    match appears with tier semantic_only and fused score
    [0.9 * semantic]. *)
Theorem fused_scores_follow_tier_weights (es_results semantic_results : list Row) :
  (forall pre r post,
      es_results = pre ++ r :: post -> ~ In (id r) (map id pre) ->
      exists o,
        In o (_combine_results_with_tier_weights es_results semantic_results)
        /\ id o = id r /\ match_tier o = match_tier r
        /\ combined_search_score o
           = Some (fst (Spec.fusion_weights (get (match_tier r) "similar"))
                   * min (get (elasticsearch_score r) 0 / 10000.0) 1.0
                   + snd (Spec.fusion_weights (get (match_tier r) "similar"))
                     * Spec.semantic_of semantic_results (id r))
        /\ (~ In (id r) (map id semantic_results) ->
            Spec.semantic_of semantic_results (id r) = 0.0))
  /\ (forall s,
        In s semantic_results -> ~ In (id s) (map id es_results) ->
        exists o,
          In o (_combine_results_with_tier_weights es_results semantic_results)
          /\ id o = id s /\ match_tier o = Some "semantic_only"
          /\ combined_search_score o = Some (0.9 * get (norm_cos_sim s) 0)).
Proof.
  split.
  - intros pre r post -> Hfirst.
    exists (fuse_lexical (semantic_map semantic_results) r).
    split; [|split; [|split; [|split]]].
    + apply combine_In, semantic_loop_acc, lexical_loop_first;
        [apply not_elem_of_empty|assumption].
    + unfold fuse_lexical.
      destruct (String.eqb _ "exact"); [reflexivity|].
      destruct (String.eqb _ "relevant"); reflexivity.
    + unfold fuse_lexical.
      destruct (String.eqb _ "exact"); [reflexivity|].
      destruct (String.eqb _ "relevant"); reflexivity.
    + unfold fuse_lexical, Spec.fusion_weights.
      rewrite semantic_score_lookup.
      destruct (String.eqb _ "exact"); [reflexivity|].
      destruct (String.eqb _ "relevant"); reflexivity.
    + apply semantic_of_absent.
  - intros s Hs Hunseen. exists (fuse_semantic_only s).
    split; [|repeat split].
    apply combine_In, semantic_loop_unseen; [assumption|].
    rewrite lexical_loop_seen. intros [H|H]; [|contradiction].
    now apply not_elem_of_empty in H.
Qed.

Lemma fused_scores_follow_tier_weights_witness :
  (exists o,
      In o (_combine_results_with_tier_weights fusion_lexical fusion_semantic)
      /\ id o = 1%Z /\ match_tier o = Some "exact"
      /\ combined_search_score o = Some (0.9 * min (300 / 10000.0) 1.0 + 0.1 * 0.5))
  /\ (exists o,
        In o (_combine_results_with_tier_weights fusion_lexical fusion_semantic)
        /\ id o = 3%Z /\ match_tier o = Some "semantic_only"
        /\ combined_search_score o = Some (0.9 * 0.9)).
Proof.
  destruct (fused_scores_follow_tier_weights fusion_lexical fusion_semantic)
    as [Hlex Hsem].
  split.
  - destruct (Hlex [] (lexical_row 1 1 "exact" 300 day0 day0)
                [lexical_row 2 2 "relevant" 20000 day0 day6y] eq_refl)
      as (o & Hin & Hid & Htier & Hscore & _); [simpl; tauto|].
    exists o. exact (conj Hin (conj Hid (conj Htier Hscore))).
  - destruct (Hsem (semantic_row 3 3 0.9)) as (o & Hin & Hid & Htier & Hscore);
      [now left| simpl; lia |].
    exists o. exact (conj Hin (conj Hid (conj Htier Hscore))).
Defined.

End FusionProps.


Module FusionOrder.
Import Py PyFacts Fusion FusionFacts.

(** *** The sort key against the lexicographic order *)




(** The float sum of a priority and a score in [0,1] lies within 2.5e-10
    of the exact sum. *)
Lemma sum_near (P s : Q) :
  1000 <= P <= 1000000 -> 0 <= s <= 1 ->
  P + s - (1 # 4000000000) <= Float64.add P s <= P + s + (1 # 4000000000).
Proof.
  intros HP Hs. unfold Float64.add.
  pose proof (Float64Facts.round_near (P + s) ltac:(lra)) as Hr.
  assert (Float64.pow2 (-52) == 1 # 4503599627370496) as Hc by reflexivity.
  rewrite Hc in Hr. lra.
Qed.


Lemma StronglySorted_weaken {A} (R R' : A -> A -> Prop) (l : list A) :
  (forall a b, In a l -> In b l -> R a b -> R' a b) ->
  StronglySorted R l -> StronglySorted R' l.
Proof.
  intros Himp Hs. induction Hs as [|a l Hs IH Hall]; constructor.
  - apply IH. intros x y Hx Hy. apply Himp; now right.
  - rewrite List.Forall_forall in *. intros b Hb.
    apply Himp; [now left|now right|now apply Hall].
Qed.

Lemma final_gtb_sorted (l : list Row) :
  StronglySorted (fun a b => get (final_score b) 0 <= get (final_score a) 0)
                 (sorted_reverse final_gtb l).
Proof.
  eapply StronglySorted_weaken; [|apply (sorted_reverse_sorted final_gtb)].
  - intros a b _ _. unfold ngt, final_gtb. now rewrite Qlt_bool_false_iff.
  - unfold ngt, final_gtb. intros a b c. rewrite !Qlt_bool_false_iff. lra.
  - unfold final_gtb. intros a b. rewrite Qlt_bool_iff, Qlt_bool_false_iff. lra.
Qed.

(** *** The key of every fused match *)




Lemma combine_sorted_by_key (es sem : list Row) :
  StronglySorted (fun a b => get (final_score b) 0 <= get (final_score a) 0)
                 (_combine_results_with_tier_weights es sem).
Proof.
  unfold _combine_results_with_tier_weights.
  destruct (lexical_loop (semantic_map sem) es ∅ []) as [acc seen].
  apply final_gtb_sorted.
Qed.

(** Fused scores lie in [0,1] when the retrieval scores are
    non-negative and the similarities lie in [0,1]. *)
Lemma semantic_of_range (sem : list Row) (k : Z) :
  (forall s, In s sem -> 0 <= get (norm_cos_sim s) 0 <= 1) ->
  0 <= Spec.semantic_of sem k <= 1.
Proof.
  intros Hsem. unfold Spec.semantic_of.
  destruct (List.find _ (rev sem)) as [s|] eqn:E.
  - apply find_some in E. destruct E as [Hin _].
    apply Hsem. now apply in_rev.
  - split; unfold Qle; simpl; lia.
Qed.

(** X30: the fused score of every output of the fusion lies in [0, 1],
    when no retrieval score is negative and every similarity lies in
    [0, 1]. *)
Lemma fused_score_range (es sem : list Row) (o : Row) :
  (forall r, In r es -> 0 <= get (elasticsearch_score r) 0) ->
  (forall s, In s sem -> 0 <= get (norm_cos_sim s) 0 <= 1) ->
  In o (_combine_results_with_tier_weights es sem) ->
  0 <= Spec.fusedScore o <= 1.
Proof.
  intros Hes Hsem Hin. apply combine_origin in Hin.
  destruct Hin as [(r & Hr & ->)|(s & Hs & ->)].
  - specialize (Hes r Hr). pose proof (semantic_of_range sem (id r) Hsem) as Hs.
    rewrite <- semantic_score_lookup in Hs.
    pose proof (min_spec (get (elasticsearch_score r) 0 / 10000.0) 1.0) as [_ Hmin].
    assert (0 <= min (get (elasticsearch_score r) 0 / 10000.0) 1.0) as Hmin0.
    { apply min_glb; [|unfold Qle; simpl; lia].
      unfold Qdiv. cbn [Qinv Qnum Qden]. lra. }
    unfold Spec.fusedScore, fuse_lexical.
    set (e := min (get (elasticsearch_score r) 0 / 10000.0) 1.0) in *.
    set (v := match semantic_map sem !! id r with
              | Some result => get (norm_cos_sim result) 0
              | None => 0.0
              end) in *.
    destruct (String.eqb _ "exact"); [simpl; lra|].
    destruct (String.eqb _ "relevant"); simpl; lra.
  - specialize (Hsem s Hs). unfold Spec.fusedScore, fuse_semantic_only. simpl. lra.
Qed.




End FusionOrder.


(** ** Tiered lexical retrieval *)

Module RetrievalProps.
Import Py PyFacts Retrieval.

Section Service.
Variable es_search : SearchBody -> Outcome (list Hit).
Variable translator : option (string -> Outcome string).
Variables strip lower : string -> string.
Variable _is_likely_english : string -> bool.

(** *** Ids of the rows of each pass *)

Lemma with_hit_id (doc : Row) score mtype quality :
  id (with_hit doc score mtype quality) = id doc.
Proof. reflexivity. Qed.

Lemma relevant_matches_excluded (q : string) (limit : Z) (exclude_ids : list Z) :
  honours_must_not es_search ->
  forall r, In r (_get_relevant_matches es_search q limit exclude_ids) ->
            ~ In (id r) exclude_ids.
Proof.
  intros Hes r. unfold _get_relevant_matches.
  destruct (es_search _) as [hits|e] eqn:E; [|intros []].
  intros Hin. apply in_map_iff in Hin. destruct Hin as (h & <- & Hh).
  exact (Hes _ _ E h Hh).
Qed.

Lemma similar_matches_excluded (q : string) (limit : Z) (exclude_ids : list Z) :
  honours_must_not es_search ->
  forall r, In r (_get_similar_matches es_search q limit exclude_ids) ->
            ~ In (id r) exclude_ids.
Proof.
  intros Hes r. unfold _get_similar_matches.
  destruct (es_search _) as [hits|e] eqn:E; [|intros []].
  intros Hin. apply in_map_iff in Hin. destruct Hin as (h & <- & Hh).
  exact (Hes _ _ E h Hh).
Qed.

(** The three tagged groups that make up [all_results]. *)
Lemma tagged_In (tier : string) (priority : Z) (l : list Row) (r : Row) :
  In r (map (fun result => with_tier result tier priority) l) ->
  match_tier r = Some tier /\ In (id r) (map id l).
Proof.
  intros Hin. apply in_map_iff in Hin. destruct Hin as (x & <- & Hx).
  split; [reflexivity|]. simpl. now apply in_map.
Qed.

(** C7: no experience id is returned in more than one of the tiers
    exact, relevant and similar.  The relevant pass is asked to
    exclude the ids returned by the exact pass and the similar pass
    those of both earlier passes, so, for an index that honours the
    exclusion clause, two returned rows with the same id carry the
    same tier, and every returned row carries one of the three
    tiers. *)
Theorem tiers_mutually_exclusive (query : string) (limit : Z) (rows : list Row) :
  honours_must_not es_search ->
  search_with_priority_layers es_search translator strip lower
    _is_likely_english query limit = Returned rows ->
  (forall r, In r rows -> Spec.lexical_tier r)
  /\ (forall r1 r2, In r1 rows -> In r2 rows -> id r1 = id r2 ->
                    match_tier r1 = match_tier r2).
Proof.
  intros Hes. unfold search_with_priority_layers, try_except.
  set (q := english_query_of translator strip lower _is_likely_english query).
  set (exact_results := _get_exact_matches_english es_search q).
  set (relevant_results :=
         if (Z.of_nat (length exact_results) <? limit)%Z
         then _get_relevant_matches es_search q
                (limit - Z.of_nat (length exact_results)) (map id exact_results)
         else []).
  set (similar_results :=
         if (Z.of_nat (length exact_results)
             + Z.of_nat (length relevant_results) <? limit)%Z
         then _get_similar_matches es_search q
                (limit - (Z.of_nat (length exact_results)
                          + Z.of_nat (length relevant_results)))
                (map id (exact_results ++ relevant_results))
         else []).
  intros Heq. injection Heq as Hrows. subst rows.
  assert (forall r, In r relevant_results -> ~ In (id r) (map id exact_results))
    as Hrel.
  { unfold relevant_results.
    destruct (Z.of_nat (length exact_results) <? limit)%Z;
      [|intros r Hr; destruct Hr].
    now apply relevant_matches_excluded. }
  assert (forall r, In r similar_results ->
                    ~ In (id r) (map id (exact_results ++ relevant_results)))
    as Hsim.
  { unfold similar_results.
    destruct (Z.of_nat (length exact_results)
              + Z.of_nat (length relevant_results) <? limit)%Z;
      [|intros r Hr; destruct Hr].
    now apply similar_matches_excluded. }
  match goal with |- context [In _ ?l -> Spec.lexical_tier _] => set (rows := l) end.
  assert (forall r, In r rows ->
            (match_tier r = Some "exact" /\ In (id r) (map id exact_results))
            \/ (match_tier r = Some "relevant" /\ In (id r) (map id relevant_results))
            \/ (match_tier r = Some "similar" /\ In (id r) (map id similar_results)))
    as Hcases.
  { intros r Hr. unfold rows in Hr.
    apply slice_to_In, sorted_reverse_In in Hr.
    apply in_app_or in Hr. destruct Hr as [Hr|Hr];
      [left; now apply tagged_In with (priority := 1000000%Z)|].
    apply in_app_or in Hr. destruct Hr as [Hr|Hr];
      [right; left; now apply tagged_In with (priority := 100000%Z)
      |right; right; now apply tagged_In with (priority := 10000%Z)]. }
  assert (forall k, In k (map id relevant_results) -> ~ In k (map id exact_results))
    as Hrel'.
  { intros k Hk. apply in_map_iff in Hk. destruct Hk as (x & <- & Hx). now apply Hrel. }
  assert (forall k, In k (map id similar_results) ->
                    ~ In k (map id exact_results) /\ ~ In k (map id relevant_results))
    as Hsim'.
  { intros k Hk. apply in_map_iff in Hk. destruct Hk as (x & <- & Hx).
    specialize (Hsim x Hx). rewrite map_app, in_app_iff in Hsim. tauto. }
  split.
  - intros r Hr. unfold Spec.lexical_tier.
    destruct (Hcases r Hr) as [[H _]|[[H _]|[H _]]]; tauto.
  - intros r1 r2 H1 H2 Hid.
    destruct (Hcases r1 H1) as [[T1 I1]|[[T1 I1]|[T1 I1]]];
    destruct (Hcases r2 H2) as [[T2 I2]|[[T2 I2]|[T2 I2]]];
    rewrite ?T1, ?T2; try reflexivity; exfalso; rewrite Hid in I1;
    try (pose proof (Hrel' _ I1)); try (pose proof (Hrel' _ I2));
    try (pose proof (Hsim' _ I1)); try (pose proof (Hsim' _ I2)); tauto.
Qed.

(** *** Failures of the index *)

Lemma exact_matches_absorb (q : string) :
  _get_exact_matches_english es_search q
  = _get_exact_matches_english (absorb_errors es_search) q.
Proof.
  unfold _get_exact_matches_english, absorb_errors.
  now destruct (es_search _).
Qed.

Lemma relevant_matches_absorb (q : string) (limit : Z) (exclude_ids : list Z) :
  _get_relevant_matches es_search q limit exclude_ids
  = _get_relevant_matches (absorb_errors es_search) q limit exclude_ids.
Proof.
  unfold _get_relevant_matches, absorb_errors.
  now destruct (es_search _).
Qed.

Lemma similar_matches_absorb (q : string) (limit : Z) (exclude_ids : list Z) :
  _get_similar_matches es_search q limit exclude_ids
  = _get_similar_matches (absorb_errors es_search) q limit exclude_ids.
Proof.
  unfold _get_similar_matches, absorb_errors.
  now destruct (es_search _).
Qed.

(** C8, as the code has it: an error of the index in any pass, the
    first one and connectivity failures included, makes that pass
    contribute an empty result, and the other passes and the call
    still complete.  The call returns what it returns when every
    failing search answers with no hits, and it never raises. *)
Theorem failing_pass_counts_as_empty (query : string) (limit : Z) :
  (forall q e,
      es_search {| pass := ExactQuery; query_text := q;
                   size := 50; must_not := [] |} = Raised e ->
      _get_exact_matches_english es_search q = [])
  /\ (forall q n exclude_ids e,
        es_search {| pass := RelevantQuery; query_text := q;
                     size := n; must_not := exclude_ids |} = Raised e ->
        _get_relevant_matches es_search q n exclude_ids = [])
  /\ (forall q n exclude_ids e,
        es_search {| pass := SimilarQuery; query_text := q;
                     size := n; must_not := exclude_ids |} = Raised e ->
        _get_similar_matches es_search q n exclude_ids = [])
  /\ search_with_priority_layers es_search translator strip lower
       _is_likely_english query limit
     = search_with_priority_layers (absorb_errors es_search) translator strip
         lower _is_likely_english query limit
  /\ exists rows,
       search_with_priority_layers es_search translator strip lower
         _is_likely_english query limit = Returned rows.
Proof.
  split; [|split; [|split; [|split]]].
  - intros q e Hfail. unfold _get_exact_matches_english. now rewrite Hfail.
  - intros q n exclude_ids e Hfail. unfold _get_relevant_matches. now rewrite Hfail.
  - intros q n exclude_ids e Hfail. unfold _get_similar_matches. now rewrite Hfail.
  - unfold search_with_priority_layers.
    rewrite <- !exact_matches_absorb.
    rewrite <- !relevant_matches_absorb.
    rewrite <- !similar_matches_absorb. reflexivity.
  - unfold search_with_priority_layers, try_except. eexists. reflexivity.
Qed.

End Service.

(** The sample index honours the exclusion clause. *)
Lemma sample_es_search_honours_must_not : honours_must_not sample_es_search.
Proof.
  intros body hits Heq h Hin Hex. unfold sample_es_search in Heq.
  inversion Heq as [Hhits]. clear Heq. rewrite <- Hhits in Hin.
  apply In_firstn, filter_In in Hin. destruct Hin as [_ Hneg].
  apply negb_true_iff in Hneg. unfold excluded in Hneg.
  assert (existsb (Z.eqb (id (hit_source h))) (must_not body) = true) as Htrue.
  { apply existsb_exists. exists (id (hit_source h)). split; [assumption|apply Z.eqb_refl]. }
  congruence.
Qed.

Lemma tiers_mutually_exclusive_witness :
  let rows :=
    [ Retrieval.with_tier
        (Retrieval.with_hit (sample_doc 1 1) 280 "exact" (Some "perfect"))
        "exact" 1000000;
      Retrieval.with_tier
        (Retrieval.with_hit (sample_doc 2 2) 2400 "relevant" None)
        "relevant" 100000;
      Retrieval.with_tier
        (Retrieval.with_hit (sample_doc 3 1) 700 "relevant" None)
        "relevant" 100000;
      Retrieval.with_tier
        (Retrieval.with_hit (sample_doc 4 3) 90 "similar" None)
        "similar" 10000 ] in
  search_with_priority_layers sample_es_search no_translator same_text
    same_text always_english "data engineer" 10 = Returned rows
  /\ (forall r, In r rows -> Spec.lexical_tier r)
  /\ (forall r1 r2, In r1 rows -> In r2 rows -> id r1 = id r2 ->
                    match_tier r1 = match_tier r2).
Proof.
  intros rows.
  assert (search_with_priority_layers sample_es_search no_translator same_text
            same_text always_english "data engineer" 10 = Returned rows) as Hrun
    by (vm_compute; reflexivity).
  split; [exact Hrun|].
  exact (tiers_mutually_exclusive sample_es_search no_translator same_text
           same_text always_english "data engineer" 10 rows
           sample_es_search_honours_must_not Hrun).
Defined.

(** C8 as stated fails: with the connection down on the exact pass the
    retrieval does not raise; it returns the rows of the other two
    passes. *)
Lemma exact_pass_failure_is_not_raised :
  (exists e, exact_pass_down
               {| pass := ExactQuery; query_text := "data engineer";
                  size := 50; must_not := [] |} = Raised e)
  /\ (exists rows,
        search_with_priority_layers exact_pass_down no_translator same_text
          same_text always_english "data engineer" 10 = Returned rows
        /\ map id rows = [1%Z; 2%Z; 3%Z; 4%Z])
  /\ (forall e,
        search_with_priority_layers exact_pass_down no_translator same_text
          same_text always_english "data engineer" 10 <> Raised e).
Proof.
  split; [eexists; reflexivity|]. split.
  - eexists. split; [vm_compute; reflexivity|reflexivity].
  - intros e. vm_compute. discriminate.
Qed.

Lemma failing_pass_counts_as_empty_witness :
  _get_exact_matches_english exact_pass_down "data engineer" = []
  /\ exists rows,
       search_with_priority_layers exact_pass_down no_translator same_text
         same_text always_english "data engineer" 10 = Returned rows.
Proof.
  destruct (failing_pass_counts_as_empty exact_pass_down no_translator same_text
              same_text always_english "data engineer" 10)
    as (Hexact & _ & _ & _ & Hret).
  split; [|exact Hret].
  exact (Hexact "data engineer" (ConnectionError "Connection refused") eq_refl).
Defined.

End RetrievalProps.


(** ** Query processing and the search endpoint *)

Module ApiProps.
Import Py Api.

Section Endpoint.
Variable translate_mongolian_to_english : string -> Outcome string.
Variable generate_embedding : string -> Outcome (option (list Q)).
Variable reduce_embedding : list Q -> Outcome (list Q).
Variable _create_optimized_search_query : string -> string -> string.
Variable hybrid_search :
  option (list Q -> string -> string -> string -> Z -> Outcome (list Row)).
Variable db_search_experiences : list Q -> string -> string -> Outcome (list Row).
Variable today : Z.

(** With both texts empty after stripping, [process_query] returns four
    empty values and calls no collaborator. *)
Lemma process_query_empty (position_mn description_mn : string) (tr : list Event) :
  strip position_mn = "" -> strip description_mn = "" ->
  process_query translate_mongolian_to_english generate_embedding
    reduce_embedding _create_optimized_search_query
    position_mn description_mn tr
  = (Returned ("", "", "", None), tr).
Proof.
  intros Hp Hd. unfold process_query, try_catch.
  rewrite Hp, Hd. destruct (nonempty position_mn), (nonempty description_mn);
    reflexivity.
Qed.

(** For such a request the endpoint raises the 400 error inside its own
    handler, which replaces it: the caller gets the 500 error, and the
    trace of collaborator calls is unchanged. *)
Lemma search_candidates_empty (req : SearchRequest) (tr : list Event) :
  strip (position req) = "" -> strip (description req) = "" ->
  search_candidates translate_mongolian_to_english generate_embedding
    reduce_embedding _create_optimized_search_query hybrid_search
    db_search_experiences today req tr
  = (Raised (HTTPException 500 "Internal server error"), tr).
Proof.
  intros Hp Hd. unfold search_candidates, try_catch, bind.
  rewrite process_query_empty by assumption. reflexivity.
Qed.

(** C9: a request whose position and description are empty or blank is
    not answered with the empty-query error.  [process_query] returns
    normally; the endpoint's 400 "Invalid or empty search query" is
    caught by the endpoint's own handler and the caller receives 500
    "Internal server error".  No translation, embedding or retrieval
    call is made. *)
Theorem empty_query_reported_as_internal_error
    (limit : Z) (score_threshold : Q) (search_method : string) :
  let req := {| position := ""; description := "   ";
                limit := limit; score_threshold := score_threshold;
                search_method := search_method |} in
  process_query translate_mongolian_to_english generate_embedding
    reduce_embedding _create_optimized_search_query
    (position req) (description req) []
  = (Returned ("", "", "", None), [])
  /\ search_candidates translate_mongolian_to_english generate_embedding
       reduce_embedding _create_optimized_search_query hybrid_search
       db_search_experiences today req []
     = (Raised (HTTPException 500 "Internal server error"), [])
  /\ search_candidates translate_mongolian_to_english generate_embedding
       reduce_embedding _create_optimized_search_query hybrid_search
       db_search_experiences today req []
     <> (Raised (HTTPException 400 "Invalid or empty search query"), [])
  /\ existsb is_retrieval
       (snd (search_candidates translate_mongolian_to_english generate_embedding
               reduce_embedding _create_optimized_search_query hybrid_search
               db_search_experiences today req []))
     = false.
Proof.
  intros req. split; [|split; [|split]].
  - now apply process_query_empty.
  - now apply search_candidates_empty.
  - rewrite search_candidates_empty by reflexivity. discriminate.
  - rewrite search_candidates_empty by reflexivity. reflexivity.
Qed.

End Endpoint.

End ApiProps.

(** ** More on the candidate scorer *)

Module ScorerExtra.
Import Py PyFacts Helpers Scorer ScorerFacts ScorerProps.

Ltac qbool :=
  repeat match goal with
         | H : Qle_bool _ _ = true |- _ => apply Qle_bool_iff in H
         | H : Qle_bool _ _ = false |- _ =>
             apply not_true_iff_false in H; rewrite Qle_bool_iff in H
         | H : Qlt_bool _ _ = true |- _ => apply Qlt_bool_iff in H
         | H : Qlt_bool _ _ = false |- _ => apply Qlt_bool_false_iff in H
         end.

Lemma multiplier_le (y1 y2 : Q) :
  y1 <= y2 ->
  calculate_experience_multiplier y1 <= calculate_experience_multiplier y2.
Proof.
  intros Hle. unfold calculate_experience_multiplier.
  destruct (Qle_bool y1 1) eqn:A1; [|destruct (Qle_bool y1 2) eqn:A2;
    [|destruct (Qle_bool y1 3) eqn:A3; [|destruct (Qle_bool y1 4) eqn:A4;
      [|destruct (Qle_bool y1 5) eqn:A5]]]];
  (destruct (Qle_bool y2 1) eqn:B1; [|destruct (Qle_bool y2 2) eqn:B2;
    [|destruct (Qle_bool y2 3) eqn:B3; [|destruct (Qle_bool y2 4) eqn:B4;
      [|destruct (Qle_bool y2 5) eqn:B5]]]]);
  qbool; lra.
Qed.

(** X1: the experience multiplier is a non-decreasing step function of the
    years of experience with values between 1 and 2. *)
Theorem multiplier_monotone (y1 y2 : Q) :
  y1 <= y2 ->
  1 <= calculate_experience_multiplier y1
  /\ calculate_experience_multiplier y1 <= calculate_experience_multiplier y2
  /\ calculate_experience_multiplier y2 <= 2.
Proof.
  intros Hle. pose proof (multiplier_range y1) as H1.
  pose proof (multiplier_range y2) as H2.
  pose proof (multiplier_le y1 y2 Hle) as H12.
  repeat split; [apply H1|exact H12|apply H2].
Qed.

Lemma multiplier_monotone_witness :
  2.5 <= 7
  /\ calculate_experience_multiplier 2.5 == 1.4
  /\ calculate_experience_multiplier 7 == 2
  /\ calculate_experience_multiplier 2.5 <= calculate_experience_multiplier 7.
Proof.
  assert (2.5 <= 7) as H by (unfold Qle; simpl; lia).
  split; [exact H|]. split; [reflexivity|]. split; [reflexivity|].
  exact (proj1 (proj2 (multiplier_monotone 2.5 7 H))).
Defined.

(** X2: the years of experience are never negative.  They are 0 without
    a start date and when the end date precedes the start date; an
    experience without end date runs to today; otherwise they are the
    number of days divided by 365.25. *)
Theorem experience_years_clamped (today : Z) (s : Z) (e : option Z) :
  _calculate_experience_years today None e == 0
  /\ 0 <= _calculate_experience_years today (Some s) e
  /\ _calculate_experience_years today (Some s) None
     == _calculate_experience_years today (Some s) (Some today)
  /\ (forall e', (s <= e')%Z ->
        _calculate_experience_years today (Some s) (Some e')
        == inject_Z (e' - s) / 365.25)
  /\ (forall e', (e' < s)%Z ->
        _calculate_experience_years today (Some s) (Some e') == 0).
Proof.
  split; [reflexivity|]. split; [apply experience_years_nonneg|].
  split; [reflexivity|]. split.
  - intros e' Hle. unfold _calculate_experience_years, max.
    destruct (Qlt_bool _ 0.0) eqn:E; [|reflexivity].
    qbool. exfalso. revert E. unfold Qdiv, Qlt, Qmult, Qinv, inject_Z. simpl. lia.
  - intros e' Hlt. unfold _calculate_experience_years, max.
    destruct (Qlt_bool _ 0.0) eqn:E; [reflexivity|].
    qbool. exfalso. revert E. unfold Qdiv, Qle, Qmult, Qinv, inject_Z. simpl. lia.
Qed.

Lemma experience_years_clamped_witness :
  _calculate_experience_years day6y (Some day0) (Some day6y) == inject_Z 2192 / 365.25
  /\ _calculate_experience_years day0 (Some day6y) (Some day0) == 0.
Proof.
  destruct (experience_years_clamped day6y day0 None) as (_ & _ & _ & Hpos & _).
  destruct (experience_years_clamped day0 day6y None) as (_ & _ & _ & _ & Hneg).
  split; [apply (Hpos day6y)|apply (Hneg day0)]; unfold day0, day6y; lia.
Defined.

(** X3: within one tier the experience score does not decrease when the
    retrieval score or the years of experience grow, for non-negative
    retrieval scores; an exact match scores at least 130, a relevant
    match at least 12 and any other match at least 1.1. *)
Theorem tier_score_monotone (r1 r2 : Row) (y1 y2 : Q) :
  match_tier r1 = match_tier r2 ->
  0 <= get (elasticsearch_score r1) 0 ->
  get (elasticsearch_score r1) 0 <= get (elasticsearch_score r2) 0 ->
  y1 <= y2 ->
  _calculate_tier_score_fixed r1 y1 <= _calculate_tier_score_fixed r2 y2
  /\ 1.1 <= _calculate_tier_score_fixed r1 y1
  /\ (match_tier r1 = Some "relevant" -> 12 <= _calculate_tier_score_fixed r1 y1)
  /\ (match_tier r1 = Some "exact" -> 130 <= _calculate_tier_score_fixed r1 y1).
Proof.
  intros T E1 E2 Y. unfold _calculate_tier_score_fixed. rewrite <- T.
  pose proof (multiplier_le y1 y2 Y) as M12.
  pose proof (proj1 (multiplier_range y1)) as M1.
  pose proof (proj2 (multiplier_range y2)) as M2.
  set (m1 := calculate_experience_multiplier y1) in *.
  set (m2 := calculate_experience_multiplier y2) in *.
  set (e1 := get (elasticsearch_score r1) 0) in *.
  set (e2 := get (elasticsearch_score r2) 0) in *.
  assert (forall t, match_tier r1 = Some t ->
                    String.eqb (get (match_tier r1) "similar") "exact"
                    = String.eqb t "exact"
                    /\ String.eqb (get (match_tier r1) "similar") "relevant"
                       = String.eqb t "relevant") as Ht
    by (intros t ->; split; reflexivity).
  split; [|split; [|split]].
  - destruct (String.eqb _ "exact"); [qnorm; nra|].
    destruct (String.eqb _ "relevant"); qnorm; nra.
  - destruct (String.eqb _ "exact"); [qnorm; nra|].
    destruct (String.eqb _ "relevant"); qnorm; nra.
  - intros T1. destruct (Ht _ T1) as [-> ->]. simpl. qnorm. nra.
  - intros T1. destruct (Ht _ T1) as [-> _]. simpl. qnorm. nra.
Qed.

Lemma tier_score_monotone_witness :
  _calculate_tier_score_fixed (lexical_row 1 1 "exact" 100 day0 day0) 0
  <= _calculate_tier_score_fixed (lexical_row 2 1 "exact" 250 day0 day6y) 6.
Proof.
  refine (proj1 (tier_score_monotone (lexical_row 1 1 "exact" 100 day0 day0)
                   (lexical_row 2 1 "exact" 250 day0 day6y) 0 6 eq_refl _ _ _));
    unfold Qle; simpl; lia.
Defined.


(** *** Shape of the ranked list *)

Lemma StronglySorted_firstn {A} (R : A -> A -> Prop) (n : nat) (l : list A) :
  StronglySorted R l -> StronglySorted R (firstn n l).
Proof.
  intros Hs. revert n. induction Hs as [|a l Hs IH Hall]; intros [|n]; simpl;
    try constructor.
  - apply IH.
  - rewrite List.Forall_forall in *. intros x Hx. apply Hall.
    now apply In_firstn in Hx.
Qed.

Lemma StronglySorted_slice_to {A} (R : A -> A -> Prop) (n : Z) (l : list A) :
  StronglySorted R l -> StronglySorted R (slice_to n l).
Proof. unfold slice_to. destruct (0 <=? n)%Z; apply StronglySorted_firstn. Qed.

Lemma StronglySorted_imp {A} (R R' : A -> A -> Prop) (l : list A) :
  (forall a b, R a b -> R' a b) -> StronglySorted R l -> StronglySorted R' l.
Proof.
  intros Himp Hs. induction Hs as [|a l Hs IH Hall]; constructor; [assumption|].
  rewrite List.Forall_forall in *. intros x Hx. apply Himp. now apply Hall.
Qed.

Lemma cand_sorted (l : list CandidateResponse) :
  StronglySorted (fun a b => cand_final_score b <= cand_final_score a)
                 (sorted_reverse cand_gtb l).
Proof.
  eapply StronglySorted_imp; [|apply (sorted_reverse_sorted cand_gtb)].
  - intros a b. unfold ngt, cand_gtb. now rewrite Qlt_bool_false_iff.
  - unfold ngt, cand_gtb. intros a b c. rewrite !Qlt_bool_false_iff. lra.
  - unfold cand_gtb. intros a b. rewrite Qlt_bool_iff, Qlt_bool_false_iff. lra.
Qed.

Lemma append_experience_length (d : list (Z * list Experience)) cid e :
  (length (append_experience d cid e) <= S (length d))%nat.
Proof.
  induction d as [|[k es] d IH]; simpl; [lia|].
  destruct (k =? cid)%Z; simpl; lia.
Qed.

Lemma aggregate_length (f : Row -> Experience) (rows : list Row) :
  (length (aggregate f rows) <= length rows)%nat.
Proof.
  induction rows as [|r rows IH] using rev_ind; [simpl; lia|].
  rewrite aggregate_snoc, length_app. simpl.
  pose proof (append_experience_length (aggregate f rows) (candidate_id r) (f r)).
  lia.
Qed.

(** The two candidate builders: each gives at most one candidate for an
    entry, with the experiences above the threshold. *)
Section CandidateLists.
Variable cand : Q -> Z * list Experience -> list CandidateResponse.
Hypothesis cand_length : forall t k es, (length (cand t (k, es)) <= 1)%nat.
Hypothesis cand_In :
  forall t k es c,
    In c (cand t (k, es)) ->
    cand_candidate_id c = k
    /\ experiences c = List.filter (fun exp => Qlt_bool t (combined_score exp)) es
    /\ experiences c <> [].

Lemma candidates_keys (t : Q) (d : list (Z * list Experience)) (c : CandidateResponse) :
  In c (flat_map (cand t) d) ->
  exists es, In (cand_candidate_id c, es) d
             /\ experiences c = List.filter (fun exp => Qlt_bool t (combined_score exp)) es
             /\ experiences c <> [].
Proof using cand_In.
  intros Hin. apply in_flat_map in Hin. destruct Hin as ([k es] & Hd & Hc).
  destruct (cand_In _ _ _ _ Hc) as (<- & Hex & Hne). exists es. auto.
Qed.

Lemma candidates_complete (t : Q) (d : list (Z * list Experience)) k es :
  In (k, es) d ->
  cand t (k, es) <> [] ->
  exists c, In c (flat_map (cand t) d) /\ cand_candidate_id c = k
            /\ experiences c = List.filter (fun exp => Qlt_bool t (combined_score exp)) es.
Proof using cand_In.
  intros Hd Hne. destruct (cand t (k, es)) as [|c l] eqn:E; [contradiction|].
  assert (In c (cand t (k, es))) as Hc by (rewrite E; now left).
  destruct (cand_In _ _ _ _ Hc) as (Hk & Hex & _).
  exists c. split; [|tauto]. apply in_flat_map. exists (k, es). tauto.
Qed.

Lemma candidates_NoDup (t : Q) (d : list (Z * list Experience)) :
  List.NoDup (map fst d) ->
  List.NoDup (map cand_candidate_id (flat_map (cand t) d)).
Proof using cand_length cand_In.
  induction d as [|[k es] d IH]; simpl; intros Hnd; [constructor|].
  inversion Hnd as [|? ? Hnotin Hnd']; subst.
  pose proof (cand_length t k es) as Hlen. pose proof (cand_In t k es) as Hin.
  destruct (cand t (k, es)) as [|c [|c' l]]; simpl in *; [now apply IH| |lia].
  destruct (Hin c (or_introl eq_refl)) as (Hk & _).
  constructor; [|now apply IH].
  intros Hc'. apply in_map_iff in Hc'. destruct Hc' as (c' & Hid & Hc').
  apply candidates_keys in Hc'. destruct Hc' as (es' & Hd' & _).
  apply Hnotin. rewrite <- Hk, <- Hid.
  change (cand_candidate_id c') with (fst (cand_candidate_id c', es')).
  now apply in_map.
Qed.

Lemma candidates_length (t : Q) (d : list (Z * list Experience)) :
  (length (flat_map (cand t) d) <= length d)%nat.
Proof using cand_length.
  induction d as [|[k es] d IH]; simpl; [lia|].
  rewrite length_app. pose proof (cand_length t k es). lia.
Qed.
End CandidateLists.

Lemma tier_candidate_experiences (t : Q) (k : Z) (es : list Experience)
    (c : CandidateResponse) :
  In c (tier_candidate t (k, es)) ->
  cand_candidate_id c = k
  /\ experiences c = List.filter (fun exp => Qlt_bool t (combined_score exp)) es
  /\ experiences c <> [].
Proof.
  unfold tier_candidate. destruct (List.filter _ es) as [|x l] eqn:E; [intros []|].
  destruct (ExperienceResponses (x :: l)) as [rs|] eqn:R; [|intros []].
  apply ExperienceResponses_inv in R. destruct R as [-> _].
  intros [<-|[]]. simpl. repeat split. discriminate.
Qed.

Lemma tier_candidate_length_le (t : Q) (k : Z) (es : list Experience) :
  (length (tier_candidate t (k, es)) <= 1)%nat.
Proof.
  unfold tier_candidate. destruct (List.filter _ es) as [|x l]; [simpl; lia|].
  destruct (ExperienceResponses (x :: l)); simpl; lia.
Qed.

Lemma legacy_kept_experiences (t : Q) (k : Z) (es : list Experience)
    (c : CandidateResponse) :
  In c (returned_or_nil (legacy_candidate t (k, es))) ->
  cand_candidate_id c = k
  /\ experiences c = List.filter (fun exp => Qlt_bool t (combined_score exp)) es
  /\ experiences c <> [].
Proof.
  destruct (legacy_candidate t (k, es)) as [new|] eqn:E; [|intros []].
  simpl. now apply legacy_candidate_In.
Qed.

Lemma legacy_kept_length_le (t : Q) (k : Z) (es : list Experience) :
  (length (returned_or_nil (legacy_candidate t (k, es))) <= 1)%nat.
Proof.
  destruct (legacy_candidate t (k, es)) as [new|] eqn:E; [|simpl; lia].
  simpl. rewrite (legacy_candidate_length _ _ _ _ E).
  destruct (List.filter _ es); lia.
Qed.

(** The groups and the candidate builder of each mode: what a run that
    returns has returned, and that every run on rows without null text
    column returns. *)
Lemma ranked_candidates (w : Weights) (today : Z) (results : list Row) :
  exists (cand : Q -> Z * list Experience -> list CandidateResponse)
         (f : Row -> Experience) (rows : list Row),
    (forall t limit ranked,
        score_and_rank_candidates w today results t limit = Returned ranked ->
        ranked = slice_to limit (sorted_reverse cand_gtb
                                   (flat_map (cand t) (aggregate f rows))))
    /\ Permutation rows results
    /\ (forall t k es, (length (cand t (k, es)) <= 1)%nat)
    /\ (forall t k es c,
          In c (cand t (k, es)) ->
          cand_candidate_id c = k
          /\ experiences c = List.filter (fun exp => Qlt_bool t (combined_score exp)) es
          /\ experiences c <> [])
    /\ ((forall r, In r results -> text_present r) ->
        forall t,
          (forall limit, exists ranked,
              score_and_rank_candidates w today results t limit = Returned ranked)
          /\ (forall k es,
                In (k, es) (aggregate f rows) ->
                List.filter (fun exp => Qlt_bool t (combined_score exp)) es <> [] ->
                cand t (k, es) <> [])).
Proof.
  unfold score_and_rank_candidates, try_except. destruct (any _ _).
  - exists tier_candidate, (tier_exp_data today), (sorted_reverse row_gtb results).
    split; [intros t limit ranked H; injection H as <-; reflexivity|].
    split; [apply sorted_reverse_perm|].
    split; [apply tier_candidate_length_le|].
    split; [apply tier_candidate_experiences|].
    intros Htext t. split; [intros limit; eexists; reflexivity|].
    intros k es Hd Hne Hnil.
    assert (forall e, In e es -> ExperienceResponse e = Returned e) as Hes.
    { apply (aggregate_built (tier_exp_data today) (sorted_reverse row_gtb results))
        with (k := k); [|exact Hd].
      intros r Hr. apply tier_exp_data_built, Htext.
      now apply sorted_reverse_In in Hr. }
    pose proof (tier_candidate_length t k es Hes) as Hlen. rewrite Hnil in Hlen.
    destruct (List.filter _ es); [contradiction|discriminate].
  - exists (fun t entry => returned_or_nil (legacy_candidate t entry)),
           (legacy_exp_data w today), results.
    split.
    { intros t limit ranked H. unfold _score_legacy_results in H.
      destruct (legacy_candidates t _ []) as [out|] eqn:E; [|discriminate].
      injection H as <-. apply legacy_candidates_returned in E. now subst out. }
    split; [reflexivity|].
    split; [apply legacy_kept_length_le|].
    split; [apply legacy_kept_experiences|].
    intros Htext t.
    assert (forall entry,
              In entry (aggregate (legacy_exp_data w today) results) ->
              exists new, legacy_candidate t entry = Returned new) as Hbuilt.
    { intros [k es] Hd. apply legacy_candidate_built.
      apply (aggregate_built (legacy_exp_data w today) results) with (k := k);
        [|exact Hd].
      intros r Hr. now apply legacy_exp_data_built, Htext. }
    split.
    + intros limit. unfold _score_legacy_results.
      destruct (legacy_candidates_built t _ [] Hbuilt) as (out & ->).
      eexists. reflexivity.
    + intros k es Hd Hne Hnil. destruct (Hbuilt _ Hd) as (new & E).
      rewrite E in Hnil. simpl in Hnil. subst new.
      apply legacy_candidate_length in E. simpl in E.
      destruct (List.filter _ es); [contradiction|discriminate].
Qed.

(** X4: whenever [score_and_rank_candidates] returns, the candidates are
    in descending order of final score, in the tier-based and in the
    legacy mode, for every limit. *)
Theorem ranked_by_final_score (w : Weights) (today : Z) (results : list Row)
    (score_threshold : Q) (limit : Z) (ranked : list CandidateResponse) :
  score_and_rank_candidates w today results score_threshold limit = Returned ranked ->
  StronglySorted (fun a b => cand_final_score b <= cand_final_score a) ranked.
Proof.
  intros Hrun.
  destruct (ranked_candidates w today results) as (cand & f & rows & Heq & _).
  rewrite (Heq _ _ _ Hrun). apply StronglySorted_slice_to, cand_sorted.
Qed.

Lemma ranked_by_final_score_witness :
  exists ranked,
    score_and_rank_candidates default_weights day6y rows_exact_vs_relevant 0.1 10
    = Returned ranked
    /\ map (fun c => Qred (cand_final_score c)) ranked = [182; 847 # 5]
    /\ StronglySorted (fun a b => cand_final_score b <= cand_final_score a) ranked.
Proof.
  eexists. split; [vm_compute; reflexivity|]. split; [vm_compute; reflexivity|].
  refine (ranked_by_final_score default_weights day6y rows_exact_vs_relevant 0.1 10
            _ _).
  vm_compute. reflexivity.
Defined.

(** X5: whenever [score_and_rank_candidates] returns with a non-negative
    limit, it returns at most [limit] candidates, and never more than
    there are rows in the input. *)
Theorem at_most_limit_candidates (w : Weights) (today : Z) (results : list Row)
    (score_threshold : Q) (limit : Z) (ranked : list CandidateResponse) :
  (0 <= limit)%Z ->
  score_and_rank_candidates w today results score_threshold limit = Returned ranked ->
  (length ranked <= Z.to_nat limit)%nat /\ (length ranked <= length results)%nat.
Proof.
  intros Hlimit Hrun.
  destruct (ranked_candidates w today results)
    as (cand & f & rows & Heq & Hperm & Hlen & Hin & _).
  rewrite (Heq _ _ _ Hrun). unfold slice_to.
  destruct (Z.leb_spec 0 limit) as [_|Hneg]; [|lia].
  rewrite length_firstn, sorted_reverse_length.
  pose proof (candidates_length cand Hlen score_threshold (aggregate f rows)).
  pose proof (aggregate_length f rows).
  apply Permutation_length in Hperm. lia.
Qed.

Lemma at_most_limit_candidates_witness :
  exists ranked,
    score_and_rank_candidates default_weights day6y rows_exact_vs_relevant 0.1 1
    = Returned ranked
    /\ length ranked = 1%nat
    /\ (length ranked <= Z.to_nat 1)%nat.
Proof.
  eexists. split; [vm_compute; reflexivity|]. split; [vm_compute; reflexivity|].
  refine (proj1 (at_most_limit_candidates default_weights day6y
                   rows_exact_vs_relevant 0.1 1 _ _ _)); [lia|].
  vm_compute. reflexivity.
Defined.

(** X6: whenever [score_and_rank_candidates] returns, every returned
    candidate lists at least one experience, every listed experience
    scores strictly above the threshold, the candidate ids of the
    returned list are pairwise distinct, and each of them is the
    candidate id of an input row. *)
Theorem returned_candidates_well_formed (w : Weights) (today : Z)
    (results : list Row) (score_threshold : Q) (limit : Z)
    (ranked : list CandidateResponse) :
  score_and_rank_candidates w today results score_threshold limit = Returned ranked ->
  List.NoDup (map cand_candidate_id ranked)
  /\ forall c,
       In c ranked ->
       experiences c <> []
       /\ (forall exp, In exp (experiences c) -> score_threshold < combined_score exp)
       /\ exists r, In r results /\ candidate_id r = cand_candidate_id c.
Proof.
  intros Hrun.
  destruct (ranked_candidates w today results)
    as (cand & f & rows & Heq & Hperm & Hlen & Hin & _).
  rewrite (Heq _ _ _ Hrun).
  destruct (aggregate_inv f rows) as (Hnd & _ & Hgroups). split.
  - assert (List.NoDup (map cand_candidate_id
              (sorted_reverse cand_gtb
                 (flat_map (cand score_threshold) (aggregate f rows))))) as Hs.
    { eapply Permutation_NoDup;
        [apply Permutation_map; symmetry; apply sorted_reverse_perm|].
      now apply candidates_NoDup. }
    unfold slice_to. destruct (0 <=? limit)%Z;
      rewrite <- firstn_map;
      match goal with
      | |- List.NoDup (firstn ?n ?l) =>
          rewrite <- (firstn_skipn n l) in Hs;
          exact (NoDup_app_remove_r _ _ Hs)
      end.
  - intros c Hc. apply slice_to_In, sorted_reverse_In in Hc.
    apply (candidates_keys cand Hin) in Hc.
    destruct Hc as (es & Hd & Hex & Hne). split; [assumption|]. split.
    + intros exp Hexp. rewrite Hex in Hexp. apply filter_In in Hexp.
      now apply Qlt_bool_iff.
    + apply Hgroups in Hd.
      destruct (List.filter (fun r => (candidate_id r =? cand_candidate_id c)%Z) rows)
        as [|r l] eqn:E.
      * subst es. simpl in Hex. contradiction.
      * assert (In r (List.filter
                       (fun r => (candidate_id r =? cand_candidate_id c)%Z) rows)) as Hr
          by (rewrite E; now left).
        apply filter_In in Hr. destruct Hr as [Hr Hid]. exists r. split.
        -- eapply Permutation_in; eassumption.
        -- now apply Z.eqb_eq.
Qed.

Lemma returned_candidates_well_formed_witness :
  exists ranked,
    score_and_rank_candidates default_weights day6y rows_exact_vs_relevant 0.1 10
    = Returned ranked
    /\ map cand_candidate_id ranked = [2%Z; 1%Z]
    /\ List.NoDup (map cand_candidate_id ranked).
Proof.
  eexists. split; [vm_compute; reflexivity|]. split; [vm_compute; reflexivity|].
  refine (proj1 (returned_candidates_well_formed default_weights day6y
                   rows_exact_vs_relevant 0.1 10 _ _)).
  vm_compute. reflexivity.
Defined.


(** *** The legacy final score *)

Lemma fold_left_Qplus_shift (l : list Q) (a : Q) :
  fold_left Qplus l a == a + fold_left Qplus l 0.
Proof.
  revert a. induction l as [|x l IH]; intros a; simpl; [lra|].
  rewrite (IH (a + x)), (IH (0 + x)). lra.
Qed.

Lemma sum_cons (x : Q) (l : list Q) : sum (x :: l) == x + sum l.
Proof. unfold sum. simpl. rewrite fold_left_Qplus_shift. lra. Qed.

Lemma legacy_loop_fst (t : Q) (es : list Experience) (fs fs' : Q)
    (rel rel' : list Experience) :
  legacy_loop t es fs rel = Returned (fs', rel') ->
  fs' == fs + sum (map (fun exp => calculate_experience_multiplier (years exp)
                                   * combined_score exp)
                       (List.filter (fun exp => Qlt_bool t (combined_score exp)) es)).
Proof.
  revert fs rel. induction es as [|e es IH]; simpl; intros fs rel H.
  - injection H as <- _. unfold sum. simpl. lra.
  - destruct (Qlt_bool t (combined_score e)); simpl.
    + destruct (ExperienceResponse e); [|discriminate].
      rewrite (IH _ _ H), sum_cons. lra.
    + exact (IH _ _ H).
Qed.

(** X7: in the legacy mode, whenever the call returns, the final score
    of a returned candidate is the sum, over the experiences listed for
    the candidate (those above the threshold), of the experience
    multiplier times the experience score. *)
Theorem legacy_final_is_weighted_sum (w : Weights) (today : Z) (results : list Row)
    (score_threshold : Q) (limit : Z) (ranked : list CandidateResponse)
    (c : CandidateResponse) :
  _score_legacy_results w today results score_threshold limit = Returned ranked ->
  In c ranked ->
  cand_final_score c
  == sum (map (fun exp => calculate_experience_multiplier (years exp)
                          * combined_score exp)
              (experiences c)).
Proof.
  unfold _score_legacy_results. intros Hrun Hin.
  destruct (legacy_candidates score_threshold _ []) as [out|] eqn:E; [|discriminate].
  injection Hrun as <-. apply legacy_candidates_returned in E. subst out.
  apply slice_to_In, sorted_reverse_In, in_flat_map in Hin.
  destruct Hin as ([k es] & _ & Hc). unfold legacy_candidate in Hc.
  destruct (legacy_loop score_threshold es 0.0 []) as [[fs rel]|] eqn:L;
    [|destruct Hc].
  pose proof (legacy_loop_snd _ _ _ _ _ _ L) as Hsnd.
  pose proof (legacy_loop_fst _ _ _ _ _ _ L) as Hfst.
  simpl in Hsnd. subst rel.
  destruct (List.filter _ es) as [|x l] eqn:F; [destruct Hc|].
  destruct Hc as [<-|[]]. simpl experiences. simpl cand_final_score.
  rewrite Hfst. lra.
Qed.

Lemma legacy_final_is_weighted_sum_witness :
  let rows := [semantic_row 1 1 0.9; semantic_row 2 1 0.8; semantic_row 3 1 0.4] in
  exists ranked c,
    _score_legacy_results default_weights day6y rows 0.1 10 = Returned ranked
    /\ In c ranked
    /\ map (fun exp => Qred (combined_score exp)) (experiences c) = [9 # 50; 4 # 25]
    /\ cand_final_score c
       == sum (map (fun exp => calculate_experience_multiplier (years exp)
                               * combined_score exp)
                   (experiences c)).
Proof.
  intros rows.
  assert (exists ranked c,
             _score_legacy_results default_weights day6y rows 0.1 10 = Returned ranked
             /\ In c ranked
             /\ map (fun exp => Qred (combined_score exp)) (experiences c)
                = [9 # 50; 4 # 25])
    as (ranked & c & Hrun & Hin & Hexps).
  { eexists _, _. split; [vm_compute; reflexivity|].
    split; [left; reflexivity|reflexivity]. }
  exists ranked, c. split; [exact Hrun|]. split; [exact Hin|]. split; [exact Hexps|].
  exact (legacy_final_is_weighted_sum default_weights day6y rows 0.1 10 ranked c
           Hrun Hin).
Defined.

(** *** Order of the experiences of a candidate *)

Lemma key_gtb_iff (a b : Z * Q) :
  key_gtb a b = true
  <-> (fst b < fst a)%Z \/ (fst a = fst b /\ snd b < snd a).
Proof.
  unfold key_gtb.
  rewrite orb_true_iff, andb_true_iff, Z.ltb_lt, Z.eqb_eq, Qlt_bool_iff. tauto.
Qed.

Lemma key_gtb_false_iff (a b : Z * Q) :
  key_gtb a b = false
  <-> (fst a < fst b)%Z \/ (fst a = fst b /\ snd a <= snd b).
Proof.
  rewrite <- not_true_iff_false, key_gtb_iff. split.
  - intros H. destruct (Z_lt_le_dec (fst a) (fst b)) as [Hlt|Hge]; [now left|].
    right. assert (fst a = fst b) as Heq.
    { destruct (Z.eq_dec (fst a) (fst b)); [assumption|]. exfalso. apply H. left. lia. }
    split; [assumption|]. apply Qnot_lt_le. intros Hlt. apply H. now right.
  - intros [Hlt|[Heq Hle]] [H|[H1 H2]]; try lia. lra.
Qed.

Lemma StronglySorted_filter {A} (R : A -> A -> Prop) (p : A -> bool) (l : list A) :
  StronglySorted R l -> StronglySorted R (List.filter p l).
Proof.
  intros Hs. induction Hs as [|a l Hs IH Hall]; simpl; [constructor|].
  destruct (p a); [|assumption]. constructor; [assumption|].
  rewrite List.Forall_forall in *. intros x Hx. apply filter_In in Hx. now apply Hall.
Qed.

Lemma StronglySorted_map {A B} (R : B -> B -> Prop) (f : A -> B) (l : list A) :
  StronglySorted (fun a b => R (f a) (f b)) l -> StronglySorted R (map f l).
Proof.
  intros Hs. induction Hs as [|a l Hs IH Hall]; simpl; constructor; [assumption|].
  rewrite List.Forall_forall in *. intros x Hx. apply in_map_iff in Hx.
  destruct Hx as (y & <- & Hy). now apply Hall.
Qed.

Lemma rows_sorted (results : list Row) :
  StronglySorted (fun a b => key_gtb (sort_key b) (sort_key a) = false)
                 (sorted_reverse row_gtb results).
Proof.
  apply (sorted_reverse_sorted row_gtb).
  - unfold ngt, row_gtb. intros a b c. rewrite !key_gtb_false_iff.
    intros [H1|[H1 H1']] [H2|[H2 H2']]; [left; lia|left; lia|left; lia|].
    right. split; [lia|lra].
  - unfold row_gtb. intros a b. rewrite key_gtb_iff, key_gtb_false_iff.
    intros [H|[H H']]; [left; lia|right; split; [lia|lra]].
Qed.

(** X8: in the tier-based mode the experiences listed for a candidate are
    ordered by tier priority, highest first, and within one tier by
    retrieval score, highest first. *)
Theorem experiences_listed_by_tier (today : Z) (results : list Row)
    (score_threshold : Q) (limit : Z) (c : CandidateResponse) :
  In c (_score_tier_based_results_fixed today results score_threshold limit) ->
  StronglySorted
    (fun e1 e2 =>
       (get (exp_tier_priority e2) 0%Z < get (exp_tier_priority e1) 0%Z)%Z
       \/ (get (exp_tier_priority e2) 0%Z = get (exp_tier_priority e1) 0%Z
           /\ get (exp_elasticsearch_score e2) 0
              <= get (exp_elasticsearch_score e1) 0))
    (experiences c).
Proof.
  unfold _score_tier_based_results_fixed. intros Hin.
  apply slice_to_In, sorted_reverse_In, in_flat_map in Hin.
  destruct Hin as ([k es] & Hd & Hc).
  apply tier_candidate_experiences in Hc. destruct Hc as (_ & -> & _).
  destruct (aggregate_inv (tier_exp_data today) (sorted_reverse row_gtb results))
    as (_ & _ & Hgroups).
  rewrite (Hgroups _ _ Hd).
  apply StronglySorted_filter, StronglySorted_map, StronglySorted_filter.
  eapply StronglySorted_imp; [|apply rows_sorted].
  intros a b. rewrite key_gtb_false_iff. unfold sort_key. simpl. tauto.
Qed.

Lemma experiences_listed_by_tier_witness :
  let out := _score_tier_based_results_fixed day6y rows_exact_vs_relevant 0.1 10 in
  let c := nth 1 out no_candidate in
  In c out
  /\ map exp_match_tier (experiences c) = [Some "exact"; Some "relevant"]
  /\ StronglySorted
       (fun e1 e2 =>
          (get (exp_tier_priority e2) 0%Z < get (exp_tier_priority e1) 0%Z)%Z
          \/ (get (exp_tier_priority e2) 0%Z = get (exp_tier_priority e1) 0%Z
              /\ get (exp_elasticsearch_score e2) 0
                 <= get (exp_elasticsearch_score e1) 0))
       (experiences c).
Proof.
  intros out c.
  assert (In c out) as Hin by (vm_compute; right; left; reflexivity).
  split; [exact Hin|]. split; [vm_compute; reflexivity|].
  exact (experiences_listed_by_tier day6y rows_exact_vs_relevant 0.1 10 c Hin).
Defined.

(** *** The final score against the threshold *)

Lemma tier_scores_positive (today : Z) (rows : list Row) (e : Experience) :
  (forall r, In r rows -> 0 <= get (elasticsearch_score r) 0) ->
  In e (map (tier_exp_data today) rows) -> 1.1 <= combined_score e.
Proof.
  intros Hes He. apply in_map_iff in He. destruct He as (r & <- & Hr).
  specialize (Hes r Hr). cbn [tier_exp_data combined_score].
  unfold _calculate_tier_score_fixed.
  pose proof (multiplier_range
                (_calculate_experience_years today (start_date r) (end_date r))) as Hm.
  set (m := calculate_experience_multiplier _) in *.
  set (es := get (elasticsearch_score r) 0) in *.
  destruct (String.eqb _ "exact"); [qnorm; nra|].
  destruct (String.eqb _ "relevant"); qnorm; nra.
Qed.

(** X9: in the tier-based mode, when no retrieval score is negative, the
    final score of a returned candidate is at least the score of each of
    the candidate's listed experiences, hence strictly above the
    threshold. *)
Theorem final_score_above_threshold (today : Z) (results : list Row)
    (score_threshold : Q) (limit : Z) (c : CandidateResponse) :
  (forall r, In r results -> 0 <= get (elasticsearch_score r) 0) ->
  In c (_score_tier_based_results_fixed today results score_threshold limit) ->
  score_threshold < cand_final_score c
  /\ forall exp, In exp (experiences c) -> combined_score exp <= cand_final_score c.
Proof.
  intros Hes Hin. pose proof (ranked_In _ _ _ _ _ Hin) as Hfinal.
  unfold _score_tier_based_results_fixed in Hin.
  apply slice_to_In, sorted_reverse_In, in_flat_map in Hin.
  destruct Hin as ([k es] & Hd & Hc).
  pose proof (tier_candidate_experiences _ _ _ _ Hc) as (Hk & Hex & Hne).
  destruct (aggregate_inv (tier_exp_data today) (sorted_reverse row_gtb results))
    as (_ & _ & Hgroups).
  pose proof (Hgroups _ _ Hd) as Hes'. rewrite <- Hk in Hes'.
  fold (Spec.all_experiences today results (cand_candidate_id c)) in Hes'.
  rewrite <- Hes' in Hfinal.
  assert (forall e, In e es -> 1.1 <= combined_score e) as Hpos.
  { intros e He. rewrite Hes' in He.
    apply (tier_scores_positive today
             (List.filter (fun r => (candidate_id r =? cand_candidate_id c)%Z)
                          (sorted_reverse row_gtb results))); [|exact He].
    intros r Hr. apply filter_In in Hr. destruct Hr as [Hr _].
    apply Hes. now apply sorted_reverse_In in Hr. }
  assert (forall e, In e es -> combined_score e <= cand_final_score c) as Hle.
  { rewrite Hfinal. unfold _calculate_candidate_final_score_fixed.
    destruct es as [|e0 rest]; [intros e []|]. intros e He.
    destruct (max_by_score_spec e0 rest) as [Hbest Hmax].
    assert (0 <= sum (map (fun exp => combined_score exp * 0.1) (slice 1 3 (e0 :: rest))))
      as Hadd.
    { destruct (additional_score_bounds (e0 :: rest)
                  (combined_score (max_by_score e0 rest))) as [[H _]|H];
        [|exact H|discriminate].
      intros x Hx. split; [specialize (Hpos x Hx); lra|now apply Hmax]. }
    specialize (Hmax e He).
    destruct (get_eq _ "exact"); lra. }
  assert (forall exp, In exp (experiences c) ->
                      score_threshold < combined_score exp /\ In exp es) as Hlisted.
  { intros exp Hexp. rewrite Hex in Hexp. apply filter_In in Hexp.
    destruct Hexp as [Hexp Hthr]. split; [now apply Qlt_bool_iff|assumption]. }
  split.
  - destruct (experiences c) as [|x l] eqn:E; [contradiction|].
    destruct (Hlisted x (or_introl eq_refl)) as [Hthr Hx].
    specialize (Hle x Hx). lra.
  - intros exp Hexp. apply Hle. now apply Hlisted.
Qed.

Lemma final_score_above_threshold_witness :
  let out := _score_tier_based_results_fixed day6y rows_exact_vs_relevant 0.1 10 in
  let c := nth 0 out no_candidate in
  In c out /\ 0.1 < cand_final_score c.
Proof.
  intros out c.
  assert (In c out) as Hin by (vm_compute; left; reflexivity).
  split; [exact Hin|].
  refine (proj1 (final_score_above_threshold day6y rows_exact_vs_relevant 0.1 10 c
                   _ Hin)).
  intros r [<-|[<-|[<-|[]]]]; unfold Qle; simpl; lia.
Defined.


(** *** Raising the threshold *)

Lemma slice_to_all {A} (n : Z) (l : list A) :
  (Z.of_nat (length l) <= n)%Z -> slice_to n l = l.
Proof.
  intros H. unfold slice_to. destruct (Z.leb_spec 0 n); [|lia].
  apply firstn_all2. lia.
Qed.

(** X10: on rows without null text column, when the limit does not
    truncate the list (it is at least the number of input rows), raising
    the threshold only removes: every candidate returned for the higher
    threshold is also returned for the lower one, and with at least the
    same experiences. *)
Theorem raising_threshold_only_removes (w : Weights) (today : Z)
    (results : list Row) (limit : Z) (t1 t2 : Q)
    (ranked2 : list CandidateResponse) (c2 : CandidateResponse) :
  (forall r, In r results -> text_present r) ->
  (Z.of_nat (length results) <= limit)%Z ->
  t1 <= t2 ->
  score_and_rank_candidates w today results t2 limit = Returned ranked2 ->
  In c2 ranked2 ->
  exists ranked1 c1,
    score_and_rank_candidates w today results t1 limit = Returned ranked1
    /\ In c1 ranked1
    /\ cand_candidate_id c1 = cand_candidate_id c2
    /\ incl (experiences c2) (experiences c1).
Proof.
  intros Htext Hlimit Hle Hrun2 Hc2.
  destruct (ranked_candidates w today results)
    as (cand & f & rows & Heq & Hperm & Hlen & Hin & Hbuilt).
  destruct (Hbuilt Htext t1) as [Hrun1 Hfull].
  destruct (Hrun1 limit) as (ranked1 & Hrun1').
  rewrite (Heq _ _ _ Hrun2) in Hc2.
  assert (forall t, slice_to limit
                      (sorted_reverse cand_gtb (flat_map (cand t) (aggregate f rows)))
                    = sorted_reverse cand_gtb (flat_map (cand t) (aggregate f rows)))
    as Hall.
  { intros t. apply slice_to_all. rewrite sorted_reverse_length.
    pose proof (candidates_length cand Hlen t (aggregate f rows)).
    pose proof (aggregate_length f rows).
    apply Permutation_length in Hperm. lia. }
  rewrite Hall, sorted_reverse_In in Hc2.
  apply (candidates_keys cand Hin) in Hc2.
  destruct Hc2 as (es & Hd & Hex & Hne). rewrite Hex in Hne.
  pose proof (filter_threshold_nonempty t1 t2 es Hle Hne) as Hne1.
  destruct (candidates_complete cand Hin t1 (aggregate f rows) _ _ Hd
              (Hfull _ _ Hd Hne1)) as (c1 & Hc1 & Hk & Hex1).
  exists ranked1, c1. split; [exact Hrun1'|].
  rewrite (Heq _ _ _ Hrun1'), Hall, sorted_reverse_In.
  split; [assumption|]. split; [assumption|].
  rewrite Hex, Hex1. intros e He. apply filter_In in He. destruct He as [He Ht].
  apply filter_In. split; [assumption|]. eapply Qlt_bool_mono; eassumption.
Qed.

Lemma raising_threshold_only_removes_witness :
  exists ranked2 c2 ranked1 c1,
    score_and_rank_candidates default_weights day6y rows_exact_vs_relevant 140 10
    = Returned ranked2
    /\ In c2 ranked2
    /\ length (experiences c2) = 1%nat
    /\ score_and_rank_candidates default_weights day6y rows_exact_vs_relevant 0.1 10
       = Returned ranked1
    /\ In c1 ranked1
    /\ cand_candidate_id c1 = cand_candidate_id c2
    /\ incl (experiences c2) (experiences c1).
Proof.
  assert (exists ranked2 c2,
             score_and_rank_candidates default_weights day6y rows_exact_vs_relevant
               140 10 = Returned ranked2
             /\ In c2 ranked2 /\ length (experiences c2) = 1%nat)
    as (ranked2 & c2 & Hrun2 & Hc2 & Hone).
  { eexists _, _. split; [vm_compute; reflexivity|].
    split; [right; left; reflexivity|reflexivity]. }
  assert (forall r, In r rows_exact_vs_relevant -> text_present r) as Htext
    by (intros r [<-|[<-|[<-|[]]]]; repeat split; discriminate).
  assert (Z.of_nat (length rows_exact_vs_relevant) <= 10)%Z as Hlimit
    by (simpl; lia).
  assert (0.1 <= 140) as Hle by (unfold Qle; simpl; lia).
  destruct (raising_threshold_only_removes default_weights day6y
              rows_exact_vs_relevant 10 0.1 140 ranked2 c2 Htext Hlimit Hle Hrun2 Hc2)
    as (ranked1 & c1 & H).
  exists ranked2, c2, ranked1, c1. tauto.
Defined.

Lemma exact_boost_when_scores_bounded_witness :
  _calculate_candidate_final_score_fixed
    (map (tier_exp_data day6y) [lexical_row 2 2 "relevant" 20000 day0 day6y])
  < _calculate_candidate_final_score_fixed
      (map (tier_exp_data day6y) [lexical_row 1 1 "exact" 300 day0 day0]).
Proof.
  refine (exact_boost_when_scores_bounded day6y
            [lexical_row 1 1 "exact" 300 day0 day0]
            [lexical_row 2 2 "relevant" 20000 day0 day6y] _ _ _).
  - intros r [<-|[<-|[]]]; split; unfold Qle; simpl; lia.
  - eexists. split; [left; reflexivity|reflexivity].
  - intros e0 rest H. injection H as <- <-. reflexivity.
Defined.

End ScorerExtra.

(** ** The search modes *)

Module SearchExtra.
Import Py PyFacts Helpers Scorer ScorerFacts Search.

Section Engine.
Variable db_search_experiences : list Q -> string -> string -> Outcome (list Row).
Variable es_search : Retrieval.SearchBody -> Outcome (list Retrieval.Hit).
Variable translator : option (string -> Outcome string).
Variables strip lower : string -> string.
Variable _is_likely_english : string -> bool.
Variable _enrich_with_candidate_details : list Row -> list Row.

(** X11: in the semantic-only mode the similarity plays no part in the
    ranking.  Every row is tagged with the tier "semantic", so the scorer
    works in its tier-based mode and gives each experience the score
    1.0 * (1 + 0.1 * multiplier), between 1.1 and 1.2, whatever its
    [norm_cos_sim]. *)
Theorem semantic_only_scores_ignore_similarity (today : Z) (w : Weights)
    (query_embedding : list Q) (structured_en structured_mn : string)
    (limit : Z) (r : Row) :
  In r (_semantic_only_search db_search_experiences query_embedding
          structured_en structured_mn limit) ->
  combined_score (tier_exp_data today r)
  == 1 + 0.1 * calculate_experience_multiplier
                 (_calculate_experience_years today (start_date r) (end_date r))
  /\ 1.1 <= combined_score (tier_exp_data today r) <= 1.2
  /\ forall score_threshold n,
       score_and_rank_candidates w today
         (_semantic_only_search db_search_experiences query_embedding
            structured_en structured_mn limit) score_threshold n
       = Returned
           (_score_tier_based_results_fixed today
              (_semantic_only_search db_search_experiences query_embedding
                 structured_en structured_mn limit) score_threshold n).
Proof.
  intros Hin.
  assert (forall x, In x (_semantic_only_search db_search_experiences query_embedding
                            structured_en structured_mn limit) ->
                    match_tier x = Some "semantic"
                    /\ elasticsearch_score x = Some 0) as Hrows.
  { intros x Hx. unfold _semantic_only_search in Hx.
    destruct query_embedding; [destruct Hx|].
    destruct (db_search_experiences _ _ _); [|destruct Hx].
    apply slice_to_In, in_map_iff in Hx. destruct Hx as (y & <- & _).
    split; reflexivity. }
  destruct (Hrows r Hin) as [T E].
  pose proof (multiplier_range
                (_calculate_experience_years today (start_date r) (end_date r))) as Hm.
  assert (combined_score (tier_exp_data today r)
          == 1 + 0.1 * calculate_experience_multiplier
                         (_calculate_experience_years today (start_date r) (end_date r)))
    as Hscore.
  { unfold tier_exp_data, _calculate_tier_score_fixed. simpl. rewrite T, E. simpl.
    unfold Qdiv. cbn [Qinv Qnum Qden]. lra. }
  split; [exact Hscore|]. split; [rewrite Hscore; lra|].
  intros score_threshold n. unfold score_and_rank_candidates.
  destruct (_semantic_only_search _ _ _ _ _) as [|x l] eqn:Erows; [destruct Hin|].
  destruct (Hrows x (or_introl eq_refl)) as [Tx _].
  unfold slice. simpl. rewrite Tx. reflexivity.
Qed.

(** X12: when the vector store fails during a hybrid search, the hybrid
    search returns the empty list, although the lexical retrieval has
    succeeded; [search] then returns that empty list and does not fall
    back to the relational store. *)
Theorem hybrid_search_empty_when_store_fails
    (query_embedding : list Q) (structured_en structured_mn : string) (limit : Z)
    (e : exn) :
  query_embedding <> [] ->
  db_search_experiences query_embedding structured_en structured_mn = Raised e ->
  _hybrid_search_with_tiers db_search_experiences es_search translator strip lower
    _is_likely_english _enrich_with_candidate_details
    query_embedding structured_en structured_mn limit = []
  /\ search db_search_experiences es_search translator strip lower
       _is_likely_english _enrich_with_candidate_details
       query_embedding structured_en structured_mn "hybrid" limit = Returned [].
Proof.
  intros Hq Hdb.
  assert (_hybrid_search_with_tiers db_search_experiences es_search translator strip
            lower _is_likely_english _enrich_with_candidate_details
            query_embedding structured_en structured_mn limit = []) as H.
  { unfold _hybrid_search_with_tiers.
    destruct (search_with_priority_layers _ _ _ _ _ _ _); [|reflexivity].
    destruct query_embedding; [contradiction|]. now rewrite Hdb. }
  split; [exact H|]. unfold search. simpl. now rewrite H.
Qed.

End Engine.

Lemma semantic_only_scores_ignore_similarity_witness :
  let rows := _semantic_only_search sample_db [0.5] "data engineer" "" 10 in
  let r := nth 0 rows (semantic_row 0 0 0) in
  In r rows
  /\ map norm_cos_sim rows = [Some 0.95; Some 0.6; Some 0.3]
  /\ 1.1 <= combined_score (tier_exp_data day6y r) <= 1.2.
Proof.
  intros rows r.
  assert (In r rows) as Hr by (vm_compute; left; reflexivity).
  split; [exact Hr|]. split; [reflexivity|].
  exact (proj1 (proj2 (semantic_only_scores_ignore_similarity sample_db day6y
                         default_weights [0.5] "data engineer" "" 10 r Hr))).
Defined.

Lemma hybrid_search_empty_when_store_fails_witness :
  (exists rows,
      Retrieval.search_with_priority_layers sample_es_search no_translator same_text
        same_text always_english "data engineer" 20 = Returned rows
      /\ length rows = 4%nat)
  /\ _hybrid_search_with_tiers db_down sample_es_search no_translator same_text
       same_text always_english same_rows [0.5] "data engineer" "" 10 = [].
Proof.
  split; [eexists; split; [vm_compute; reflexivity|reflexivity]|].
  refine (proj1 (hybrid_search_empty_when_store_fails db_down sample_es_search
                   no_translator same_text same_text always_english same_rows
                   [0.5] "data engineer" "" 10
                   (ConnectionError "connection pool exhausted") _ eq_refl)).
  discriminate.
Defined.

End SearchExtra.

(** ** More on score fusion *)

Module FusionExtra.
Import Py PyFacts Fusion FusionFacts FusionOrder.

Lemma fuse_lexical_fields (m : gmap Z Row) (r : Row) :
  id (fuse_lexical m r) = id r
  /\ candidate_id (fuse_lexical m r) = candidate_id r
  /\ match_tier (fuse_lexical m r) = match_tier r
  /\ elasticsearch_score (fuse_lexical m r) = elasticsearch_score r.
Proof.
  unfold fuse_lexical.
  destruct (String.eqb _ "exact"); [repeat split|].
  destruct (String.eqb _ "relevant"); repeat split.
Qed.

Lemma in_split_first (l : list Row) (k : Z) :
  In k (map id l) ->
  exists pre r post, l = pre ++ r :: post /\ id r = k /\ ~ In k (map id pre).
Proof.
  induction l as [|x l IH]; simpl; [intros []|].
  destruct (Z.eq_dec (id x) k) as [Heq|Hne].
  - intros _. exists [], x, l. simpl. tauto.
  - intros [H|H]; [contradiction|].
    destruct (IH H) as (pre & r & post & -> & Hr & Hpre).
    exists (x :: pre), r, post. simpl. split; [reflexivity|]. split; [assumption|].
    intros [H'|H']; contradiction.
Qed.

Lemma lexical_loop_length (m : gmap Z Row) (es : list Row) (seen : gset Z)
    (acc : list Row) :
  (length (fst (lexical_loop m es seen acc)) <= length acc + length es)%nat.
Proof.
  revert seen acc. induction es as [|r es IH]; simpl; intros seen acc; [lia|].
  destruct (decide (id r ∈ seen)).
  - specialize (IH seen acc). lia.
  - specialize (IH ({[id r]} ∪ seen) (acc ++ [fuse_lexical m r])).
    rewrite length_app in IH. simpl in IH. lia.
Qed.

Lemma semantic_loop_length (sem : list Row) (seen : gset Z) (acc : list Row) :
  (length (semantic_loop sem seen acc) <= length acc + length sem)%nat.
Proof.
  revert acc. induction sem as [|s sem IH]; simpl; intros acc; [lia|].
  destruct (decide (id s ∈ seen)).
  - specialize (IH acc). lia.
  - specialize (IH (acc ++ [fuse_semantic_only s])).
    rewrite length_app in IH. simpl in IH. lia.
Qed.

(** X13: fusion loses no experience and invents none: an experience id is
    in the fused list exactly when it is the id of a lexical or of a
    semantic match, and the fused list is no longer than the two inputs
    together. *)
Theorem fusion_covers_both_inputs (es_results semantic_results : list Row) :
  (forall k,
      In k (map id (_combine_results_with_tier_weights es_results semantic_results))
      <-> In k (map id es_results) \/ In k (map id semantic_results))
  /\ (length (_combine_results_with_tier_weights es_results semantic_results)
      <= length es_results + length semantic_results)%nat.
Proof.
  split.
  - intros k. split.
    + intros Hk. apply in_map_iff in Hk. destruct Hk as (o & <- & Ho).
      apply combine_origin in Ho. destruct Ho as [(r & Hr & ->)|(s & Hs & ->)].
      * left. rewrite (proj1 (fuse_lexical_fields _ r)). now apply in_map.
      * right. simpl. now apply in_map.
    + intros Hk.
      destruct (in_dec Z.eq_dec k (map id es_results)) as [Hes|Hnes].
      * destruct (in_split_first _ _ Hes) as (pre & r & post & -> & Hr & Hpre).
        apply in_map_iff. exists (fuse_lexical (semantic_map semantic_results) r).
        split; [now rewrite (proj1 (fuse_lexical_fields _ r))|].
        apply combine_In, semantic_loop_acc, lexical_loop_first;
          [apply not_elem_of_empty|now rewrite Hr].
      * destruct Hk as [Hk|Hk]; [contradiction|].
        apply in_map_iff in Hk. destruct Hk as (s & <- & Hs).
        apply in_map_iff. exists (fuse_semantic_only s). split; [reflexivity|].
        apply combine_In, semantic_loop_unseen; [assumption|].
        rewrite lexical_loop_seen. intros [H|H]; [|contradiction].
        now apply not_elem_of_empty in H.
  - unfold _combine_results_with_tier_weights.
    pose proof (lexical_loop_length (semantic_map semantic_results) es_results ∅ []) as H1.
    destruct (lexical_loop (semantic_map semantic_results) es_results ∅ [])
      as [acc seen]. simpl in H1.
    rewrite sorted_reverse_length.
    pose proof (semantic_loop_length semantic_results seen acc). lia.
Qed.

(** *** No duplicates *)

Lemma NoDup_snoc {A} (l : list A) (x : A) :
  List.NoDup l -> ~ In x l -> List.NoDup (l ++ [x]).
Proof.
  intros Hnd Hx. eapply Permutation_NoDup; [apply Permutation_cons_append|].
  now constructor.
Qed.

Lemma lexical_loop_NoDup (m : gmap Z Row) (es : list Row) (seen : gset Z)
    (acc : list Row) :
  List.NoDup (map id acc) -> (forall k, In k (map id acc) -> k ∈ seen) ->
  List.NoDup (map id (fst (lexical_loop m es seen acc)))
  /\ (forall k, In k (map id (fst (lexical_loop m es seen acc))) ->
                k ∈ snd (lexical_loop m es seen acc)).
Proof.
  revert seen acc. induction es as [|r es IH]; simpl; intros seen acc Hnd Hsub;
    [tauto|].
  destruct (decide (id r ∈ seen)) as [Hin|Hnotin]; [now apply IH|].
  apply IH.
  - rewrite map_app. simpl. rewrite (proj1 (fuse_lexical_fields m r)).
    apply NoDup_snoc; [assumption|]. intros Hk. apply Hnotin. now apply Hsub.
  - intros k Hk. rewrite map_app, in_app_iff in Hk. simpl in Hk.
    rewrite (proj1 (fuse_lexical_fields m r)) in Hk.
    rewrite elem_of_union, elem_of_singleton.
    destruct Hk as [Hk|[Hk|[]]]; [right; now apply Hsub|left; now symmetry].
Qed.

Lemma semantic_loop_NoDup (sem : list Row) (seen : gset Z) (acc : list Row) :
  List.NoDup (map id sem) -> List.NoDup (map id acc) ->
  (forall k, In k (map id acc) -> In k (map id sem) -> k ∈ seen) ->
  List.NoDup (map id (semantic_loop sem seen acc)).
Proof.
  revert acc. induction sem as [|s sem IH]; simpl; intros acc Hsem Hacc Hsub;
    [assumption|].
  inversion Hsem as [|? ? Hs Hsem']; subst.
  destruct (decide (id s ∈ seen)) as [Hin|Hnotin].
  - apply IH; [assumption|assumption|]. intros k Hk Hk'. apply Hsub; [assumption|].
    now right.
  - apply IH; [assumption| |].
    + rewrite map_app. simpl. apply NoDup_snoc; [assumption|].
      intros Hk. apply Hnotin. apply Hsub; [assumption|now left].
    + intros k Hk Hk'. rewrite map_app, in_app_iff in Hk. simpl in Hk.
      destruct Hk as [Hk|[Hk|[]]].
      * apply Hsub; [assumption|now right].
      * subst k. contradiction.
Qed.

(** X14: when the semantic matches have pairwise distinct ids, every
    experience id occurs once in the fused list, whether or not the
    lexical matches repeat an id. *)
Theorem fused_ids_distinct (es_results semantic_results : list Row) :
  List.NoDup (map id semantic_results) ->
  List.NoDup (map id (_combine_results_with_tier_weights es_results semantic_results)).
Proof.
  intros Hsem. unfold _combine_results_with_tier_weights.
  pose proof (lexical_loop_NoDup (semantic_map semantic_results) es_results ∅ [])
    as Hlex.
  destruct (lexical_loop (semantic_map semantic_results) es_results ∅ [])
    as [acc seen]. simpl in Hlex.
  destruct Hlex as [Hnd Hsub]; [constructor|intros k []|].
  eapply Permutation_NoDup;
    [apply Permutation_map; symmetry; apply sorted_reverse_perm|].
  apply semantic_loop_NoDup; auto.
Qed.

Lemma fused_ids_distinct_witness :
  let es := [lexical_row 1 1 "exact" 300 day0 day0;
             lexical_row 1 1 "relevant" 20000 day0 day0;
             lexical_row 2 2 "similar" 150 day0 day6y] in
  map id (_combine_results_with_tier_weights es fusion_semantic) = [1%Z; 2%Z; 3%Z]
  /\ List.NoDup (map id (_combine_results_with_tier_weights es fusion_semantic)).
Proof.
  intros es. split; [vm_compute; reflexivity|].
  apply (fused_ids_distinct es fusion_semantic).
  repeat constructor; simpl; intuition discriminate.
Defined.


(** *** Fusion without semantic results *)

Lemma norm_range (r : Row) :
  0 <= get (elasticsearch_score r) 0 ->
  0 <= min (get (elasticsearch_score r) 0 / 10000.0) 1.0 <= 1.
Proof.
  intros H. split.
  - apply min_glb; [|unfold Qle; simpl; lia].
    unfold Qdiv. cbn [Qinv Qnum Qden]. lra.
  - pose proof (min_spec (get (elasticsearch_score r) 0 / 10000.0) 1.0) as [_ Hm].
    lra.
Qed.

Lemma fuse_lexical_alone (r : Row) :
  0 <= get (elasticsearch_score r) 0 ->
  exists (p : Z) (wl n : Q),
    0 <= n <= 1
    /\ n = min (get (elasticsearch_score r) 0 / 10000.0) 1.0
    /\ wl = fst (Spec.fusion_weights (get (match_tier r) "similar"))
    /\ ((p = 1000000%Z /\ wl == 0.9) \/ (p = 100000%Z /\ wl == 0.5)
        \/ (p = 10000%Z /\ wl == 0.1))
    /\ tier_priority (fuse_lexical ∅ r) = Some p
    /\ es_component_score (fuse_lexical ∅ r) = Some n
    /\ semantic_component_score (fuse_lexical ∅ r) = Some 0.0
    /\ Spec.fusedScore (fuse_lexical ∅ r) == wl * n
    /\ final_score (fuse_lexical ∅ r)
       = Some (Float64.add (inject_Z p) (Spec.fusedScore (fuse_lexical ∅ r))).
Proof.
  intros H. pose proof (norm_range r H) as Hn.
  unfold fuse_lexical, Spec.fusion_weights, Spec.fusedScore.
  rewrite lookup_empty.
  set (n := min (get (elasticsearch_score r) 0 / 10000.0) 1.0) in *.
  destruct (String.eqb _ "exact");
    [|destruct (String.eqb _ "relevant")];
    eexists _, _, n; (split; [exact Hn|]); (split; [reflexivity|]);
    (split; [reflexivity|]);
    cbn [fst with_fusion tier_priority es_component_score semantic_component_score
         combined_search_score final_score get];
    (split; [first [left; split; [reflexivity|reflexivity]
                   |right; left; split; [reflexivity|reflexivity]
                   |right; right; split; [reflexivity|reflexivity]]|]);
    (split; [reflexivity|]); (split; [reflexivity|]); (split; [reflexivity|]);
    (split; [lra|reflexivity]).
Qed.

(** X15: when the semantic retriever returns nothing and no retrieval
    score is negative, fusion keeps every lexical match that is the first
    with its id, in its tier and with a zero semantic term, its fused
    score being the lexical weight of the tier times the normalised
    retrieval score, and returns nothing else.  The fused list is ordered
    by tier priority, highest first, and within a tier by the float sort
    key, so that a match never stands before a match of the same tier
    whose normalised retrieval score is higher by more than 1e-8. *)
Theorem fusion_without_semantic_results (es_results : list Row) :
  (forall r, In r es_results -> 0 <= get (elasticsearch_score r) 0) ->
  (forall pre r post,
      es_results = pre ++ r :: post -> ~ In (id r) (map id pre) ->
      In (fuse_lexical ∅ r) (_combine_results_with_tier_weights es_results []))
  /\ (forall o, In o (_combine_results_with_tier_weights es_results []) ->
        exists r, In r es_results /\ o = fuse_lexical ∅ r /\ id o = id r
          /\ match_tier o = match_tier r
          /\ semantic_component_score o = Some 0.0
          /\ Spec.fusedScore o
             == fst (Spec.fusion_weights (get (match_tier r) "similar"))
                * min (get (elasticsearch_score r) 0 / 10000.0) 1.0)
  /\ StronglySorted
       (fun a b =>
          (get (tier_priority b) 0 < get (tier_priority a) 0)%Z
          \/ (get (tier_priority a) 0%Z = get (tier_priority b) 0%Z
              /\ get (final_score b) 0 <= get (final_score a) 0
              /\ get (es_component_score b) 0
                 <= get (es_component_score a) 0 + (1 # 100000000)))
       (_combine_results_with_tier_weights es_results []).
Proof.
  intros Hes.
  assert (forall o, In o (_combine_results_with_tier_weights es_results []) ->
            exists r, In r es_results /\ o = fuse_lexical ∅ r) as Horigin.
  { intros o Ho. apply combine_origin in Ho.
    destruct Ho as [(r & Hr & ->)|(s & [] & _)]. exists r. split; [assumption|reflexivity]. }
  split; [|split].
  - intros pre r post -> Hpre.
    apply combine_In, semantic_loop_acc.
    apply (lexical_loop_first (semantic_map [])); [apply not_elem_of_empty|exact Hpre].
  - intros o Ho. destruct (Horigin o Ho) as (r & Hr & ->). exists r.
    destruct (fuse_lexical_fields ∅ r) as (Hid & _ & Htier & _).
    destruct (fuse_lexical_alone r (Hes r Hr))
      as (p & wl & n & _ & -> & -> & _ & _ & _ & Hsem & Hfused & _).
    repeat split; assumption.
  - apply (FusionOrder.StronglySorted_weaken
             (fun a b => get (final_score b) 0 <= get (final_score a) 0));
      [|apply combine_sorted_by_key].
    intros a b Ha Hb Hle.
    destruct (Horigin a Ha) as (ra & Hra & ->).
    destruct (Horigin b Hb) as (rb & Hrb & ->).
    destruct (fuse_lexical_alone ra (Hes ra Hra))
      as (pa & wa & na & Hna & _ & _ & Hpa & Ta & Ea & _ & Fa & Ka).
    destruct (fuse_lexical_alone rb (Hes rb Hrb))
      as (pb & wb & nb & Hnb & _ & _ & Hpb & Tb & Eb & _ & Fb & Kb).
    rewrite Ta, Tb, Ea, Eb. cbn [get].
    assert (forall p w n s, 0 <= n <= 1 -> s == w * n ->
              (p = 1000000%Z /\ w == 0.9) \/ (p = 100000%Z /\ w == 0.5)
              \/ (p = 10000%Z /\ w == 0.1) ->
              inject_Z p + w * n - (1 # 4000000000)
              <= Float64.add (inject_Z p) s
              <= inject_Z p + w * n + (1 # 4000000000)) as Hnear.
    { intros p w n s Hn Hs Hp.
      assert (1000 <= inject_Z p <= 1000000 /\ 0 <= s <= 1) as [HP Hs01].
      { destruct Hp as [[-> W]|[[-> W]|[-> W]]]; rewrite Hs, W;
          (split; [split; unfold Qle; simpl; lia|lra]). }
      pose proof (sum_near (inject_Z p) s HP Hs01). lra. }
    pose proof (Hnear pa wa na _ Hna Fa Hpa) as Na.
    pose proof (Hnear pb wb nb _ Hnb Fb Hpb) as Nb.
    rewrite Ka, Kb in Hle |- *. cbn [get] in Hle |- *.
    set (ka := Float64.add (inject_Z pa) _) in *.
    set (kb := Float64.add (inject_Z pb) _) in *.
    destruct Hpa as [[-> Wa]|[[-> Wa]|[-> Wa]]];
    destruct Hpb as [[-> Wb]|[[-> Wb]|[-> Wb]]];
    rewrite Wa in Na; rewrite Wb in Nb; unfold inject_Z in Na, Nb;
    first [left; lia
          | right; split; [reflexivity|split; [exact Hle|lra]]
          | exfalso; lra].
Qed.

Lemma fusion_without_semantic_results_witness :
  map (fun o => (id o, semantic_component_score o))
      (_combine_results_with_tier_weights fusion_lexical [])
  = [(1%Z, Some 0.0); (2%Z, Some 0.0)]
  /\ In (fuse_lexical ∅ (lexical_row 2 2 "relevant" 20000 day0 day6y))
        (_combine_results_with_tier_weights fusion_lexical []).
Proof.
  split; [vm_compute; reflexivity|].
  refine (proj1 (fusion_without_semantic_results fusion_lexical _)
            [lexical_row 1 1 "exact" 300 day0 day0]
            (lexical_row 2 2 "relevant" 20000 day0 day6y) [] eq_refl _).
  - intros r [<-|[<-|[]]]; unfold Qle; simpl; lia.
  - simpl. intros [H|[]]. discriminate.
Defined.

(** The fused scores of the sample inputs lie in [0,1]. *)
Lemma fused_score_range_witness :
  let out := _combine_results_with_tier_weights fusion_lexical fusion_semantic in
  let o := nth 0 out (semantic_row 0 0 0) in
  In o out /\ Spec.fusedScore o == 0.077 /\ 0 <= Spec.fusedScore o <= 1.
Proof.
  intros out o.
  assert (In o out) as Ho by (vm_compute; left; reflexivity).
  split; [exact Ho|]. split; [vm_compute; reflexivity|].
  apply (fused_score_range fusion_lexical fusion_semantic o); [| |exact Ho].
  - intros r [<-|[<-|[]]]; unfold Qle; simpl; lia.
  - intros s [<-|[<-|[]]]; split; unfold Qle; simpl; lia.
Defined.

(** X16: when several semantic matches share an experience id, the
    lexical match with that id is fused with the similarity of the last of
    them. *)
Theorem last_semantic_duplicate_wins (es_results pre post : list Row) (s r : Row) :
  In r es_results -> id s = id r -> ~ In (id r) (map id post) ->
  exists o,
    In o (_combine_results_with_tier_weights es_results (pre ++ s :: post))
    /\ id o = id r
    /\ semantic_component_score o = Some (get (norm_cos_sim s) 0).
Proof.
  intros Hr Hid Hpost.
  assert (In (id r) (map id es_results)) as Hk by now apply in_map.
  destruct (in_split_first _ _ Hk) as (pre' & r' & post' & -> & Hr' & Hpre').
  exists (fuse_lexical (semantic_map (pre ++ s :: post)) r').
  split; [|split].
  - apply combine_In, semantic_loop_acc, lexical_loop_first;
      [apply not_elem_of_empty|now rewrite Hr'].
  - now rewrite (proj1 (fuse_lexical_fields _ r')).
  - assert (semantic_map (pre ++ s :: post) !! id r' = Some s) as Hlook.
    { rewrite semantic_map_lookup, rev_app_distr. simpl. rewrite <- app_assoc. simpl.
      rewrite Hr'.
      assert (forall l, ~ In (id r) (map id l) ->
                List.find (fun x => (id x =? id r)%Z) (l ++ s :: rev pre) = Some s) as Hfind.
      { induction l as [|x l IH]; simpl; intros Hl.
        - rewrite Hid, Z.eqb_refl. reflexivity.
        - destruct (Z.eqb_spec (id x) (id r)) as [Heq|_]; [exfalso; tauto|].
          apply IH. tauto. }
      apply Hfind. rewrite map_rev. intros H. apply Hpost. now apply in_rev. }
    unfold fuse_lexical. rewrite Hlook.
    destruct (String.eqb _ "exact"); [reflexivity|].
    destruct (String.eqb _ "relevant"); reflexivity.
Qed.

Lemma last_semantic_duplicate_wins_witness :
  exists o,
    In o (_combine_results_with_tier_weights fusion_lexical
            ([semantic_row 1 1 0.2] ++ semantic_row 1 1 0.7 :: [semantic_row 3 3 0.9]))
    /\ id o = 1%Z
    /\ semantic_component_score o = Some 0.7.
Proof.
  refine (last_semantic_duplicate_wins fusion_lexical [semantic_row 1 1 0.2]
            [semantic_row 3 3 0.9] (semantic_row 1 1 0.7)
            (lexical_row 1 1 "exact" 300 day0 day0) _ eq_refl _).
  - now left.
  - simpl. intros [H|[]]. discriminate.
Defined.

End FusionExtra.

(** ** More on the tiered retrieval *)

Module RetrievalExtra.
Import Py PyFacts Retrieval ScorerExtra.

Lemma filter_length_perm {A} (p : A -> bool) (l l' : list A) :
  Permutation l l' -> length (List.filter p l) = length (List.filter p l').
Proof.
  induction 1 as [|x l l' _ IH|x y l|l l' l'' _ IH1 _ IH2]; simpl;
    [reflexivity| | |congruence].
  - destruct (p x); simpl; congruence.
  - destruct (p x), (p y); reflexivity.
Qed.

Lemma filter_length_firstn {A} (p : A -> bool) (n : nat) (l : list A) :
  (length (List.filter p (firstn n l)) <= length (List.filter p l))%nat.
Proof.
  rewrite <- (firstn_skipn n l) at 2. rewrite List.filter_app, length_app. lia.
Qed.

Lemma sorted_reverse_fixed {A} (gtb : A -> A -> bool) (l : list A) :
  StronglySorted (ngt gtb) l -> sorted_reverse gtb l = l.
Proof.
  induction 1 as [|x l Hs IH Hall]; simpl; [reflexivity|].
  rewrite IH. destruct l as [|y l']; [reflexivity|]. simpl.
  rewrite List.Forall_forall in Hall. specialize (Hall y (or_introl eq_refl)).
  unfold ngt in Hall. now rewrite Hall.
Qed.

Lemma tier_gtb_sorted (l : list Row) :
  StronglySorted (ngt tier_gtb) (sorted_reverse tier_gtb l).
Proof.
  apply (sorted_reverse_sorted tier_gtb).
  - unfold ngt, tier_gtb. intros a b c. rewrite !key_gtb_false_iff. simpl.
    intros [H1|[H1 H1']] [H2|[H2 H2']]; [left; lia|left; lia|left; lia|].
    right. split; [lia|lra].
  - unfold tier_gtb. intros a b. rewrite key_gtb_iff, key_gtb_false_iff. simpl.
    intros [H|[H H']]; [left; lia|right; split; [lia|lra]].
Qed.

Section Service.
Variable es_search : SearchBody -> Outcome (list Hit).
Variable translator : option (string -> Outcome string).
Variables strip lower : string -> string.
Variable _is_likely_english : string -> bool.

Lemma exact_matches_capped (q : string) :
  (length (_get_exact_matches_english es_search q) <= 20)%nat.
Proof.
  unfold _get_exact_matches_english. destruct (es_search _); [|simpl; lia].
  unfold slice. rewrite length_firstn. apply Nat.le_min_l.
Qed.

(** The rows of [all_results], before the final sort. *)
Lemma returned_rows (query : string) (limit : Z) (rows : list Row) :
  search_with_priority_layers es_search translator strip lower
    _is_likely_english query limit = Returned rows ->
  exists exact_results relevant_results similar_results,
    (length exact_results <= 20)%nat
    /\ rows = slice_to limit
                (sorted_reverse tier_gtb
                   (map (fun result => with_tier result "exact" 1000000) exact_results
                    ++ map (fun result => with_tier result "relevant" 100000)
                         relevant_results
                    ++ map (fun result => with_tier result "similar" 10000)
                         similar_results))
    /\ (forall r, In r exact_results -> elasticsearch_score r <> None)
    /\ (forall r, In r relevant_results -> elasticsearch_score r <> None)
    /\ (forall r, In r similar_results -> elasticsearch_score r <> None)
    /\ ((limit <= 0)%Z -> relevant_results = [] /\ similar_results = []).
Proof.
  unfold search_with_priority_layers, try_except. intros Heq.
  injection Heq as <-.
  set (q := english_query_of translator strip lower _is_likely_english query).
  eexists (_get_exact_matches_english es_search q), _, _.
  split; [apply exact_matches_capped|]. split; [reflexivity|].
  assert (forall mtype quality hits r,
            In r (map (fun hit => with_hit (hit_source hit) (hit_score hit)
                                    mtype quality) hits) ->
            elasticsearch_score r <> None) as Hmap.
  { intros mtype quality hits r Hr. apply in_map_iff in Hr.
    destruct Hr as (h & <- & _). discriminate. }
  split; [|split; [|split]].
  - intros r. unfold _get_exact_matches_english.
    destruct (es_search _) as [hits|]; [|intros []].
    unfold slice. intros Hr. apply In_firstn in Hr. simpl in Hr.
    assert (forall hs seen acc,
              (forall x, In x acc -> elasticsearch_score x <> None) ->
              forall x, In x (exact_loop hs seen acc) -> elasticsearch_score x <> None)
      as Hloop.
    { induction hs as [|h hs IH]; simpl; intros seen acc Hacc; [assumption|].
      destruct (decide (hit_id h ∈ seen)); apply IH; [assumption|].
      intros x Hx. apply in_app_or in Hx. destruct Hx as [Hx|[<-|[]]];
        [now apply Hacc|discriminate]. }
    apply (Hloop hits ∅ []); [intros x []|exact Hr].
  - intros r. destruct (_ <? limit)%Z; [|intros []].
    unfold _get_relevant_matches. destruct (es_search _); [apply Hmap|intros []].
  - intros r. destruct (_ <? limit)%Z; [|intros []].
    unfold _get_similar_matches. destruct (es_search _); [apply Hmap|intros []].
  - intros Hlimit.
    match goal with
    | |- context [(?a <? limit)%Z] =>
        destruct (Z.ltb_spec a limit) as [H|_]; [exfalso; lia|]
    end.
    split; [reflexivity|].
    match goal with
    | |- context [(?a <? limit)%Z] =>
        destruct (Z.ltb_spec a limit) as [H|_]; [exfalso; simpl in H; lia|]
    end.
    reflexivity.
Qed.

(** X17: the tiered retrieval returns its rows ordered by tier priority
    and, within a tier, by retrieval score, highest first; for a
    non-negative limit it returns at most [limit] rows, and in any case
    at most 20 rows of the exact tier. *)
Theorem retrieval_output_shape (query : string) (limit : Z) (rows : list Row) :
  search_with_priority_layers es_search translator strip lower
    _is_likely_english query limit = Returned rows ->
  StronglySorted
    (fun a b =>
       (get (tier_priority b) 0 < get (tier_priority a) 0)%Z
       \/ (get (tier_priority a) 0%Z = get (tier_priority b) 0%Z
           /\ get (elasticsearch_score b) 0 <= get (elasticsearch_score a) 0))
    rows
  /\ ((0 <= limit)%Z -> (length rows <= Z.to_nat limit)%nat)
  /\ (length (List.filter (fun r => get_eq (match_tier r) "exact") rows) <= 20)%nat.
Proof.
  intros Hrun. destruct (returned_rows query limit rows Hrun)
    as (E & R & S & Hcap & -> & _). split; [|split].
  - apply StronglySorted_slice_to.
    eapply StronglySorted_imp; [|apply tier_gtb_sorted].
    intros a b. unfold ngt, tier_gtb. rewrite key_gtb_false_iff. simpl.
    intros [H|[H H']]; [left; lia|right; split; [lia|lra]].
  - intros Hlimit. unfold slice_to. destruct (Z.leb_spec 0 limit); [|lia].
    rewrite length_firstn. lia.
  - unfold slice_to.
    destruct (0 <=? limit)%Z;
      (eapply Nat.le_trans; [apply filter_length_firstn|]);
      rewrite (filter_length_perm _ _ _ (sorted_reverse_perm tier_gtb _));
      rewrite !List.filter_app, !length_app;
      rewrite (ScorerFacts.filter_none _ (map _ R)), (ScorerFacts.filter_none _ (map _ S));
      try (intros x Hx; apply in_map_iff in Hx; destruct Hx as (y & <- & _);
           reflexivity);
      simpl; pose proof (List.filter_length_le
                           (fun r => get_eq (match_tier r) "exact")
                           (map (fun result => with_tier result "exact" 1000000) E));
      rewrite length_map in *; lia.
Qed.

(** X18: the scorer's first step, the sort by tier priority and
    retrieval score, leaves the rows of the tiered retrieval as they are:
    every returned row carries a retrieval score and the priority that
    the scorer's own table gives to its tier, so the two orders agree. *)
Theorem scorer_presort_keeps_retrieval_order (query : string) (limit : Z)
    (rows : list Row) :
  search_with_priority_layers es_search translator strip lower
    _is_likely_english query limit = Returned rows ->
  sorted_reverse Scorer.row_gtb rows = rows
  /\ forall r, In r rows ->
       elasticsearch_score r <> None
       /\ tier_priority r = Some (Scorer.tier_priority_map (Spec.tier_of r)).
Proof.
  intros Hrun. destruct (returned_rows query limit rows Hrun)
    as (E & R & S & _ & -> & HE & HR & HS & _).
  assert (forall r,
            In r (map (fun result => with_tier result "exact" 1000000) E
                  ++ map (fun result => with_tier result "relevant" 100000) R
                  ++ map (fun result => with_tier result "similar" 10000) S) ->
            elasticsearch_score r <> None
            /\ tier_priority r = Some (Scorer.tier_priority_map (Spec.tier_of r)))
    as Hrows.
  { intros r Hr. apply in_app_or in Hr. destruct Hr as [Hr|Hr];
      [|apply in_app_or in Hr; destruct Hr as [Hr|Hr]];
      apply in_map_iff in Hr; destruct Hr as (x & <- & Hx);
      (split; [simpl; auto|reflexivity]). }
  split.
  - apply sorted_reverse_fixed.
    eapply FusionOrder.StronglySorted_weaken;
      [|apply (StronglySorted_slice_to (ngt tier_gtb)), tier_gtb_sorted].
    intros a b Ha Hb. apply slice_to_In, sorted_reverse_In in Ha, Hb.
    destruct (Hrows a Ha) as [_ Pa]. destruct (Hrows b Hb) as [_ Pb].
    unfold ngt, tier_gtb, Scorer.row_gtb, Scorer.sort_key, Spec.tier_of in *.
    rewrite Pa, Pb. simpl. trivial.
  - intros r Hr. apply slice_to_In, sorted_reverse_In in Hr. now apply Hrows.
Qed.

(** With a limit of zero or less only the exact pass contributes:
    a zero limit gives the empty list, and a negative limit [-k] gives
    the sorted exact matches without the last [k] of them. *)
Theorem non_positive_limit (query : string) (limit : Z) (rows : list Row) :
  (limit <= 0)%Z ->
  search_with_priority_layers es_search translator strip lower
    _is_likely_english query limit = Returned rows ->
  (forall r, In r rows -> match_tier r = Some "exact")
  /\ (limit = 0%Z -> rows = [])
  /\ rows
     = slice_to limit
         (sorted_reverse tier_gtb
            (map (fun result => with_tier result "exact" 1000000)
                 (_get_exact_matches_english es_search
                    (english_query_of translator strip lower _is_likely_english
                       query)))).
Proof.
  intros Hlimit Hrun.
  unfold search_with_priority_layers, try_except in Hrun.
  injection Hrun as Hrows.
  match type of Hrows with
  | context [(?a <? limit)%Z] =>
      destruct (Z.ltb_spec a limit) as [H|_]; [exfalso; lia|]
  end.
  simpl in Hrows.
  match type of Hrows with
  | context [(?a <? limit)%Z] =>
      destruct (Z.ltb_spec a limit) as [H|_]; [exfalso; simpl in H; lia|]
  end.
  simpl in Hrows. rewrite app_nil_r in Hrows. rewrite <- Hrows. split; [|split].
  - intros r Hr. apply slice_to_In, sorted_reverse_In, in_map_iff in Hr.
    destruct Hr as (x & <- & _). reflexivity.
  - intros ->. reflexivity.
  - reflexivity.
Qed.

End Service.

Lemma retrieval_output_shape_witness :
  exists rows,
    search_with_priority_layers sample_es_search no_translator same_text
      same_text always_english "data engineer" 3 = Returned rows
    /\ map id rows = [1%Z; 2%Z; 3%Z]
    /\ (length rows <= Z.to_nat 3)%nat.
Proof.
  eexists. split; [vm_compute; reflexivity|]. split; [reflexivity|].
  refine (proj1 (proj2 (retrieval_output_shape sample_es_search no_translator
                          same_text same_text always_english "data engineer" 3 _
                          _)) _); [vm_compute; reflexivity|lia].
Defined.

Lemma scorer_presort_keeps_retrieval_order_witness :
  exists rows,
    search_with_priority_layers sample_es_search no_translator same_text
      same_text always_english "data engineer" 10 = Returned rows
    /\ length rows = 4%nat
    /\ sorted_reverse Scorer.row_gtb rows = rows.
Proof.
  eexists. split; [vm_compute; reflexivity|]. split; [reflexivity|].
  refine (proj1 (scorer_presort_keeps_retrieval_order sample_es_search no_translator
                   same_text same_text always_english "data engineer" 10 _ _)).
  vm_compute. reflexivity.
Defined.

Lemma non_positive_limit_witness :
  exists rows,
    search_with_priority_layers sample_es_search no_translator same_text
      same_text always_english "data engineer" 0 = Returned rows
    /\ rows = [].
Proof.
  eexists. split; [vm_compute; reflexivity|].
  refine (proj1 (proj2 (non_positive_limit sample_es_search no_translator
                          same_text same_text always_english "data engineer" 0 _
                          _ _)) eq_refl); [lia|vm_compute; reflexivity].
Defined.

End RetrievalExtra.

(** ** More on query processing and the search endpoint *)

Module ApiExtra.
Import Py Api.

Lemma strip_or_empty (s : string) :
  (if nonempty s then strip s else "") = strip s.
Proof. destruct s; reflexivity. Qed.

Section Endpoint.
Variable translate_mongolian_to_english : string -> Outcome string.
Variable generate_embedding : string -> Outcome (option (list Q)).
Variable reduce_embedding : list Q -> Outcome (list Q).
Variable _create_optimized_search_query : string -> string -> string.
Variable hybrid_search :
  option (list Q -> string -> string -> string -> Z -> Outcome (list Row)).
Variable db_search_experiences : list Q -> string -> string -> Outcome (list Row).
Variable today : Z.

Ltac events0 :=
  eexists _, (@nil Event); split;
  [rewrite app_nil_r; reflexivity|split; [reflexivity|simpl; lia]].
Ltac events1 :=
  eexists _, (cons _ nil); split; [reflexivity|split; [reflexivity|simpl; lia]].
Ltac events2 :=
  eexists _, (cons _ (cons _ nil)); split;
  [rewrite <- app_assoc; reflexivity|split; [reflexivity|simpl; lia]].

(** The embedding step never raises and makes at most one call. *)
Lemma embed_trace (structured_en : string) (tr : list Event) :
  exists v evs,
    embed generate_embedding reduce_embedding structured_en tr = (Returned v, tr ++ evs)
    /\ existsb is_retrieval evs = false /\ (length evs <= 1)%nat.
Proof.
  unfold embed, try_catch, bind, call, ret.
  destruct (nonempty structured_en); [|events0].
  destruct (generate_embedding structured_en) as [[[|x raw]|]|e];
    [events1| |events1|events1].
  destruct (reduce_embedding (x :: raw)); events1.
Qed.

(** The end of [process_query], from the embedding step on. *)
Lemma process_query_tail (combined_query structured_mn structured_en : string)
    (fallback : string * string * string * option (list Q))
    (tr : list Event) (evs0 : list Event) :
  existsb is_retrieval evs0 = false -> (length evs0 <= 2)%nat ->
  exists v evs,
    (match bind (embed generate_embedding reduce_embedding structured_en)
             (fun query_embedding =>
                ret (combined_query, structured_mn, structured_en, query_embedding))
             (tr ++ evs0) with
     | (Returned a, tr') => (Returned a, tr')
     | (Raised e, tr') => ret fallback tr'
     end)
    = (@Returned (string * string * string * option (list Q)) v, tr ++ evs)
    /\ existsb is_retrieval evs = false /\ (length evs <= 3)%nat.
Proof.
  intros Hr0 Hl0. unfold bind, ret.
  destruct (embed_trace structured_en (tr ++ evs0)) as (v & evs & -> & Hr & Hl).
  eexists _, (evs0 ++ evs). split; [rewrite app_assoc; reflexivity|].
  rewrite existsb_app, Hr0, Hr, length_app. split; [reflexivity|lia].
Qed.

Lemma process_query_trace (position_mn description_mn : string)
    (tr : list Event) :
  exists v evs,
    process_query translate_mongolian_to_english generate_embedding
      reduce_embedding _create_optimized_search_query
      position_mn description_mn tr
    = (Returned v, tr ++ evs)
    /\ existsb is_retrieval evs = false
    /\ (length evs <= 3)%nat.
Proof.
  unfold process_query. rewrite !strip_or_empty.
  unfold try_catch.
  destruct (nonempty (strip position_mn)), (nonempty (strip description_mn));
    cbn [negb andb]; [| | |unfold ret; events0].
  - unfold bind at 1, translate at 1, call at 1.
    destruct (translate_mongolian_to_english (strip position_mn)) as [pe|e];
      [|unfold ret; events1].
    unfold bind at 1, translate at 1, call at 1.
    destruct (translate_mongolian_to_english (strip description_mn)) as [de|e];
      [|unfold ret; events2].
    rewrite <- app_assoc. simpl app.
    apply process_query_tail; [reflexivity|simpl; lia].
  - unfold bind at 1, translate at 1, call at 1.
    destruct (translate_mongolian_to_english (strip position_mn)) as [pe|e];
      [|unfold ret; events1].
    unfold bind at 1, ret at 1.
    apply process_query_tail; [reflexivity|simpl; lia].
  - unfold bind at 1, ret at 1. unfold bind at 1, translate at 1, call at 1.
    destruct (translate_mongolian_to_english (strip description_mn)) as [de|e];
      [|unfold ret; events1].
    apply process_query_tail; [reflexivity|simpl; lia].
Qed.

(** X20: [process_query] never raises, whatever the translator and the
    embedding provider do; it calls the translator at most twice and the
    embedding provider at most once, and makes no retrieval call. *)
Theorem process_query_never_raises (position_mn description_mn : string)
    (tr : list Event) :
  exists v evs,
    process_query translate_mongolian_to_english generate_embedding
      reduce_embedding _create_optimized_search_query
      position_mn description_mn tr
    = (Returned v, tr ++ evs)
    /\ existsb is_retrieval evs = false
    /\ (length evs <= 3)%nat.
Proof.
  exact (process_query_trace position_mn description_mn tr).
Qed.

(** X21: when the translator raises on the position text,
    [process_query] falls back to the texts as given: the combined query
    is the stripped position and description joined by a space, both
    structured texts are built from the untranslated texts, there is no
    embedding, and neither the description is translated nor the embedding
    provider called. *)
Theorem translation_failure_falls_back (position_mn description_mn : string)
    (tr : list Event) (e : exn) :
  strip position_mn <> "" ->
  translate_mongolian_to_english (strip position_mn) = Raised e ->
  process_query translate_mongolian_to_english generate_embedding
    reduce_embedding _create_optimized_search_query
    position_mn description_mn tr
  = (Returned (strip (String.append (strip position_mn)
                        (String.append " " (strip description_mn))),
               create_structured_text (strip position_mn) (strip description_mn),
               create_structured_text (strip position_mn) (strip description_mn),
               None),
     tr ++ [TranslateCall (strip position_mn)]).
Proof.
  intros Hp He. unfold process_query. rewrite !strip_or_empty.
  assert (nonempty (strip position_mn) = true) as ->.
  { unfold nonempty. apply negb_true_iff, String.eqb_neq. exact Hp. }
  cbn [negb andb]. unfold try_catch, bind at 1, translate at 1, call at 1.
  rewrite He. reflexivity.
Qed.

(** The retrieval dispatch makes at most one call, a retrieval call. *)
Lemma retrieve_trace (req : SearchRequest)
    (combined_query structured_mn structured_en : string)
    (query_embedding : option (list Q)) (tr : list Event) :
  exists o evs,
    retrieve hybrid_search db_search_experiences req combined_query structured_mn
      structured_en query_embedding tr = (o, tr ++ evs)
    /\ (length evs <= 1)%nat
    /\ (query_embedding = None ->
        (hybrid_search = None
         \/ (search_method req <> "elasticsearch" /\ search_method req <> "hybrid")) ->
        evs = []
        /\ o = Raised (HTTPException 500 "Failed to generate query embedding")).
Proof.
  unfold retrieve, search_via_hybrid, search_via_db, call, raise.
  destruct hybrid_search as [search|].
  - destruct (String.eqb_spec (search_method req) "elasticsearch") as [Hm|Hm].
    { eexists _, (cons _ nil). split; [reflexivity|]. split; [simpl; lia|].
      intros _ [H|[H _]]; [discriminate|contradiction]. }
    destruct (String.eqb_spec (search_method req) "hybrid") as [Hh|Hh].
    { eexists _, (cons _ nil). split; [reflexivity|]. split; [simpl; lia|].
      intros _ [H|[_ H]]; [discriminate|contradiction]. }
    destruct (String.eqb (search_method req) "semantic");
      destruct query_embedding as [v|];
      try (eexists _, (cons _ nil); split; [reflexivity|]; split; [simpl; lia|];
           intros H; discriminate);
      eexists _, (@nil Event); (split; [rewrite app_nil_r; reflexivity|]);
      (split; [simpl; lia|]); intros _ _; split; reflexivity.
  - destruct query_embedding as [v|].
    + eexists _, (cons _ nil). split; [reflexivity|]. split; [simpl; lia|].
      intros H; discriminate.
    + eexists _, (@nil Event). split; [rewrite app_nil_r; reflexivity|].
      split; [simpl; lia|]. intros _ _. split; reflexivity.
Qed.

(** X22: whatever fails inside the [/search] endpoint, the caller is
    given the same error, HTTP 500 "Internal server error"; and a request
    makes at most one retrieval call. *)
Theorem endpoint_failures_are_uniform (req : SearchRequest) (tr : list Event) :
  exists o evs,
    search_candidates translate_mongolian_to_english generate_embedding
      reduce_embedding _create_optimized_search_query hybrid_search
      db_search_experiences today req tr = (o, tr ++ evs)
    /\ (length (List.filter is_retrieval evs) <= 1)%nat
    /\ forall e, o = Raised e -> e = HTTPException 500 "Internal server error".
Proof.
  unfold search_candidates, try_catch, bind at 1.
  destruct (process_query_trace (position req) (description req) tr)
    as ([[[cq smn] sen] emb] & evs0 & -> & Hr0 & _).
  assert (List.filter is_retrieval evs0 = []) as Hf0.
  { apply ScorerFacts.filter_none. intros ev Hev.
    destruct (is_retrieval ev) eqn:E; [|reflexivity].
    assert (existsb is_retrieval evs0 = true) as Ht
      by (apply existsb_exists; exists ev; tauto).
    congruence. }
  destruct (negb (nonempty cq) && negb (nonempty sen)).
  - eexists _, evs0. unfold raise. split; [reflexivity|].
    split; [rewrite Hf0; simpl; lia|]. intros e He. congruence.
  - unfold bind.
    destruct (retrieve_trace req cq smn sen emb (tr ++ evs0))
      as (o & evs & -> & Hl & _).
    pose proof (List.filter_length_le is_retrieval evs).
    destruct o as [rows|e0]; unfold ret, raise;
      [destruct (Scorer.score_and_rank_candidates Scorer.default_weights today rows
                   (score_threshold req) (limit req)) as [ranked|e1]|];
      eexists _, (evs0 ++ evs); (split; [now rewrite app_assoc|]);
      rewrite List.filter_app, Hf0, length_app; (split; [simpl; lia|]);
      intros e He; congruence.
Qed.

(** X23: a request for which no embedding could be produced is refused
    with the 500 error, without any retrieval call, whenever the search
    index is unavailable or the method is neither "elasticsearch" nor
    "hybrid". *)
Theorem no_embedding_no_semantic_search (req : SearchRequest) (tr tr' : list Event)
    (combined_query structured_mn structured_en : string) :
  process_query translate_mongolian_to_english generate_embedding
    reduce_embedding _create_optimized_search_query
    (position req) (description req) tr
  = (Returned (combined_query, structured_mn, structured_en, None), tr') ->
  hybrid_search = None
  \/ (search_method req <> "elasticsearch" /\ search_method req <> "hybrid") ->
  search_candidates translate_mongolian_to_english generate_embedding
    reduce_embedding _create_optimized_search_query hybrid_search
    db_search_experiences today req tr
  = (Raised (HTTPException 500 "Internal server error"), tr').
Proof.
  intros Hpq Hmode. unfold search_candidates, try_catch, bind at 1. rewrite Hpq.
  destruct (negb (nonempty combined_query) && negb (nonempty structured_en));
    [reflexivity|].
  unfold bind.
  destruct (retrieve_trace req combined_query structured_mn structured_en None tr')
    as (o & evs & -> & _ & Hnone).
  destruct (Hnone eq_refl Hmode) as [-> ->]. rewrite app_nil_r. reflexivity.
Qed.

End Endpoint.

Lemma translation_failure_falls_back_witness :
  process_query translator_down no_embedding keep_embedding position_only
    (String.append " data engineer" no_break_space) "python" []
  = (Returned ("data engineer python",
               create_structured_text "data engineer" "python",
               create_structured_text "data engineer" "python", None),
     [TranslateCall "data engineer"]).
Proof.
  refine (translation_failure_falls_back translator_down no_embedding keep_embedding
            position_only (String.append " data engineer" no_break_space) "python" []
            (ConnectionError "translation service unreachable") _ eq_refl).
  vm_compute. discriminate.
Defined.

Lemma no_embedding_no_semantic_search_witness :
  search_candidates translator_fixed no_embedding keep_embedding position_only
    no_hybrid_search sample_db day6y semantic_request []
  = (Raised (HTTPException 500 "Internal server error"),
     [TranslateCall "data engineer"; EmbeddingCall "Position: data engineer"]).
Proof.
  refine (no_embedding_no_semantic_search translator_fixed no_embedding
            keep_embedding position_only no_hybrid_search sample_db day6y
            semantic_request [] _ "data engineer" "Position: data engineer"
            "Position: data engineer" _ _).
  - vm_compute. reflexivity.
  - now left.
Defined.

End ApiExtra.

(** ** The translator and the language heuristics *)

Module TranslatorExtra.
Import Py PyFacts Text Translator.

Lemma ascii_ratio_above (a n : nat) :
  (0 < n)%nat ->
  (0.8 < inject_Z (Z.of_nat a) / inject_Z (Z.of_nat n)
   <-> (4 * Z.of_nat n < 5 * Z.of_nat a)%Z).
Proof.
  intros Hn. unfold Qdiv, Qlt, Qmult, Qinv, inject_Z. simpl.
  destruct (Z.of_nat n) as [|p|p] eqn:E; try lia. simpl.
  rewrite Pos.mul_1_l. lia.
Qed.

Lemma listed_chars_range (k : N) :
  In k ServiceHeuristic.mongolian_chars ->
  (128 <= k < 1024 \/ 1279 < k)%N.
Proof.
  intros Hk.
  assert (forallb (fun k => (128 <=? k) && (k <? 1024) || (1279 <? k))%N
            ServiceHeuristic.mongolian_chars = true) as Hall by reflexivity.
  rewrite forallb_forall in Hall. specialize (Hall k Hk).
  apply orb_true_iff in Hall. destruct Hall as [H|H].
  - apply andb_true_iff in H. destruct H as [H1 H2].
    apply N.leb_le in H1. apply N.ltb_lt in H2. left. lia.
  - apply N.ltb_lt in H. right. lia.
Qed.

(** X24: the translator takes a text for English exactly when it is not
    empty and more than four fifths of its characters are ASCII.  The
    retriever's heuristic accepts the empty text, which the translator's
    rejects; on any other text it accepts no more than the translator's,
    and the two agree when the text in lower case has only ASCII and
    Cyrillic characters, none of which is in the retriever's character
    list. *)
Theorem language_heuristics (lower : list N -> list N) (text : list N) :
  (_is_likely_english text = true
   <-> text <> []
       /\ (4 * Z.of_nat (length text)
           < 5 * Z.of_nat (length (List.filter (fun c => (c <? 128)%N) text)))%Z)
  /\ ServiceHeuristic._is_likely_english lower [] = true
  /\ _is_likely_english [] = false
  /\ (text <> [] ->
      ServiceHeuristic._is_likely_english lower text = true ->
      _is_likely_english text = true)
  /\ (text <> [] ->
      (forall c, In c (lower text) -> (c < 128 \/ 1024 <= c <= 1279)%N) ->
      ServiceHeuristic._is_likely_english lower text = _is_likely_english text).
Proof.
  split; [|split; [reflexivity|split; [reflexivity|split]]].
  - unfold _is_likely_english. destruct text as [|c t]; [split; [discriminate|tauto]|].
    set (n := length (c :: t)). set (a := length (List.filter _ (c :: t))).
    rewrite Qlt_bool_iff.
    rewrite (ascii_ratio_above a n) by (unfold n; simpl; lia).
    split; [intros H; split; [discriminate|exact H]|tauto].
  - intros Hne. destruct text as [|c t]; [contradiction|].
    unfold ServiceHeuristic._is_likely_english, _is_likely_english.
    intros H. apply andb_true_iff in H. apply H.
  - intros Hne Hchars. destruct text as [|c t]; [contradiction|].
    unfold ServiceHeuristic._is_likely_english, _is_likely_english.
    assert (any (fun char => existsb (N.eqb char) ServiceHeuristic.mongolian_chars)
                (lower (c :: t)) = false) as ->; [|reflexivity].
    unfold any. apply not_true_iff_false. intros H.
    apply existsb_exists in H. destruct H as (x & Hx & H).
    apply existsb_exists in H. destruct H as (k & Hk & Hxk).
    apply N.eqb_eq in Hxk. subst k.
    pose proof (listed_chars_range x Hk). pose proof (Hchars x Hx). lia.
Qed.

Lemma language_heuristics_witness :
  _is_likely_english messy_text = true
  /\ ServiceHeuristic._is_likely_english same_chars cyrillic_text = false
  /\ ServiceHeuristic._is_likely_english same_chars cyrillic_text
     = _is_likely_english cyrillic_text.
Proof.
  split; [reflexivity|]. split; [reflexivity|].
  refine (proj2 (proj2 (proj2 (proj2 (language_heuristics same_chars cyrillic_text))))
            _ _).
  - discriminate.
  - intros c Hc. right.
    repeat (destruct Hc as [<-|Hc]; [lia|]). destruct Hc.
Defined.

Section Service.
Variable md5 : list N -> string.
Variable lower : list N -> list N.
Variable cfg : Config.
Variable post : list N -> Outcome (list N).

Lemma stored_translation_found (stored now : Q) (original translated : list N)
    (c : Cache) :
  enable_cache cfg = true ->
  now - stored < inject_Z (cache_expiry_hours cfg * 3600) ->
  _get_memory_cached_translation md5 lower cfg now original
    (_cache_translation md5 lower cfg stored original translated c)
  = (Some translated, _cache_translation md5 lower cfg stored original translated c).
Proof.
  intros Hen Ht. unfold _get_memory_cached_translation, _cache_translation.
  rewrite Hen. cbn [negb _memory_cache _cache_timestamps].
  rewrite !lookup_insert_eq. apply Qlt_bool_iff in Ht. now rewrite Ht.
Qed.

(** X25: a translation stored in the memory cache is found again, for
    every text with the same hash, as long as less than the expiry time
    has passed; from then on the lookup finds nothing and removes the
    entry and its timestamp. *)
Theorem cache_round_trip (stored now : Q) (original translated text : list N)
    (c : Cache) :
  enable_cache cfg = true ->
  _get_text_hash md5 lower text = _get_text_hash md5 lower original ->
  let c' := _cache_translation md5 lower cfg stored original translated c in
  (now - stored < inject_Z (cache_expiry_hours cfg * 3600) ->
   _get_memory_cached_translation md5 lower cfg now text c' = (Some translated, c'))
  /\ (inject_Z (cache_expiry_hours cfg * 3600) <= now - stored ->
      fst (_get_memory_cached_translation md5 lower cfg now text c') = None
      /\ _memory_cache (snd (_get_memory_cached_translation md5 lower cfg now text c'))
         !! _get_text_hash md5 lower original = None
      /\ _cache_timestamps (snd (_get_memory_cached_translation md5 lower cfg now text c'))
         !! _get_text_hash md5 lower original = None).
Proof.
  intros Hen Hhash c'. unfold c', _get_memory_cached_translation, _cache_translation.
  rewrite Hen, Hhash. cbn [negb _memory_cache _cache_timestamps].
  rewrite !lookup_insert_eq. split; intros Ht.
  - apply Qlt_bool_iff in Ht. now rewrite Ht.
  - apply Qlt_bool_false_iff in Ht. rewrite Ht. cbn [fst snd _memory_cache _cache_timestamps].
    rewrite !lookup_delete_eq. repeat split.
Qed.

Lemma translate_nonblank (now later : Q) (text : list N) (c : Cache) :
  strip text <> [] ->
  translate_mongolian_to_english md5 lower cfg post now later text c
  = if _is_likely_english (strip text) then (strip text, c)
    else
      match _get_memory_cached_translation md5 lower cfg now (strip text) c with
      | (Some (x :: cached), c) => (x :: cached, c)
      | (_, c) =>
          request_translation md5 lower cfg post later
            (_clean_input_text
               (if (4000 <? length (strip text))%nat
                then firstn 4000 (strip text) else strip text)) c
      end.
Proof.
  intros Hs. unfold translate_mongolian_to_english.
  destruct text as [|x t]; [contradiction|].
  destruct (strip (x :: t)) as [|y s]; [contradiction|].
  cbn [length Nat.eqb]. reflexivity.
Qed.

(** X26: a blank text is returned as it is and a text that looks English
    is returned stripped; in both cases the translation service is not
    asked and the cache is left as it was. *)
Theorem translate_passes_english_through (now later : Q) (text : list N) (c : Cache) :
  (strip text = [] ->
   translate_mongolian_to_english md5 lower cfg post now later text c = (text, c))
  /\ (_is_likely_english (strip text) = true ->
      translate_mongolian_to_english md5 lower cfg post now later text c
      = (strip text, c)).
Proof.
  split.
  - intros Hs. unfold translate_mongolian_to_english.
    destruct text; [reflexivity|]. now rewrite Hs.
  - intros He. rewrite translate_nonblank.
    + now rewrite He.
    + intros Hs. rewrite Hs in He. discriminate.
Qed.

(** X27: when the request to the translation service fails, or its answer
    is blank, the translator returns the text it has sent, that is the
    stripped text cut to 4000 characters and cleaned, and stores nothing. *)
Theorem translate_failure_returns_cleaned (now later : Q) (text : list N) (c : Cache) :
  strip text <> [] ->
  _is_likely_english (strip text) = false ->
  _memory_cache c !! _get_text_hash md5 lower (strip text) = None ->
  let sent := _clean_input_text
                (if (4000 <? length (strip text))%nat
                 then firstn 4000 (strip text) else strip text) in
  (exists e, post sent = Raised e)
  \/ (exists content, post sent = Returned content /\ strip content = []) ->
  translate_mongolian_to_english md5 lower cfg post now later text c = (sent, c).
Proof.
  intros Hs He Hc sent Hpost. rewrite (translate_nonblank _ _ _ _ Hs), He.
  fold sent.
  assert (request_translation md5 lower cfg post later sent c = (sent, c)) as Hreq.
  { unfold request_translation.
    destruct Hpost as [(e & ->)|(content & -> & ->)]; reflexivity. }
  unfold _get_memory_cached_translation. rewrite Hc.
  destruct (negb (enable_cache cfg)); exact Hreq.
Qed.

(** X28: a text that cleaning leaves unchanged is translated once: after
    a first call has stored a valid translation, a second call for the
    same text, made before the entry expires, returns that translation
    from the cache, whatever the translation service would answer then. *)
Theorem second_translation_from_cache (post' : list N -> Outcome (list N))
    (now later now2 later2 : Q) (text content : list N) (c : Cache) :
  enable_cache cfg = true ->
  strip text <> [] ->
  _is_likely_english (strip text) = false ->
  (length (strip text) <= 4000)%nat ->
  _clean_input_text (strip text) = strip text ->
  _memory_cache c !! _get_text_hash md5 lower (strip text) = None ->
  post (strip text) = Returned content ->
  _is_valid_translation lower (strip text) (strip content) = Returned true ->
  now2 - later < inject_Z (cache_expiry_hours cfg * 3600) ->
  fst (translate_mongolian_to_english md5 lower cfg post now later text c)
  = strip content
  /\ translate_mongolian_to_english md5 lower cfg post' now2 later2 text
       (snd (translate_mongolian_to_english md5 lower cfg post now later text c))
     = (strip content,
        snd (translate_mongolian_to_english md5 lower cfg post now later text c)).
Proof.
  intros Hen Hs He Hlen Hclean Hc Hpost Hvalid Ht.
  assert (translate_mongolian_to_english md5 lower cfg post now later text c
          = (strip content,
             _cache_translation md5 lower cfg later (strip text) (strip content) c))
    as Hfirst.
  { rewrite (translate_nonblank _ _ _ _ Hs), He.
    unfold _get_memory_cached_translation. rewrite Hen, Hc. cbn [negb].
    destruct (Nat.ltb_spec 4000 (length (strip text))) as [Hgt|_]; [lia|].
    rewrite Hclean. unfold request_translation. now rewrite Hpost, Hvalid. }
  rewrite Hfirst. cbn [fst snd]. split; [reflexivity|].
  assert (strip content <> []) as Hne.
  { intros Hnil. rewrite Hnil in Hvalid. discriminate. }
  unfold translate_mongolian_to_english at 1.
  destruct text as [|x t]; [contradiction|].
  destruct (strip (x :: t)) as [|y s] eqn:Hst; [contradiction|].
  cbn [length Nat.eqb]. rewrite He.
  rewrite (stored_translation_found later now2 (y :: s) (strip content) c Hen Ht).
  destruct (strip content); [contradiction|reflexivity].
Qed.

End Service.

Lemma cache_round_trip_witness :
  let c' := _cache_translation text_key same_chars day_cache 0 cyrillic_text
              [101; 110; 103]%N empty_cache in
  _get_text_hash text_key same_chars (32%N :: cyrillic_text)
  = _get_text_hash text_key same_chars cyrillic_text
  /\ _get_memory_cached_translation text_key same_chars day_cache 3600
       (32%N :: cyrillic_text) c'
     = (Some [101; 110; 103]%N, c')
  /\ fst (_get_memory_cached_translation text_key same_chars day_cache 86400
            (32%N :: cyrillic_text) c') = None.
Proof.
  intros c'.
  assert (_get_text_hash text_key same_chars (32%N :: cyrillic_text)
          = _get_text_hash text_key same_chars cyrillic_text) as Hhash
    by (vm_compute; reflexivity).
  assert (3600 - 0 < inject_Z (cache_expiry_hours day_cache * 3600)) as Hin
    by (vm_compute; reflexivity).
  assert (inject_Z (cache_expiry_hours day_cache * 3600) <= 86400 - 0) as Hout
    by (vm_compute; discriminate).
  split; [exact Hhash|]. split.
  - exact (proj1 (cache_round_trip text_key same_chars day_cache 0 3600 cyrillic_text
                    [101; 110; 103]%N (32%N :: cyrillic_text) empty_cache eq_refl
                    Hhash) Hin).
  - exact (proj1 (proj2 (cache_round_trip text_key same_chars day_cache 0 86400
                           cyrillic_text [101; 110; 103]%N (32%N :: cyrillic_text)
                           empty_cache eq_refl Hhash) Hout)).
Defined.

Lemma translate_failure_returns_cleaned_witness :
  translate_mongolian_to_english text_key same_chars day_cache service_down 0 0
    (32%N :: cyrillic_text) empty_cache
  = (cyrillic_text, empty_cache).
Proof.
  refine (translate_failure_returns_cleaned text_key same_chars day_cache service_down
            0 0 (32%N :: cyrillic_text) empty_cache _ eq_refl eq_refl _).
  - vm_compute. discriminate.
  - left. eexists. reflexivity.
Defined.

Lemma second_translation_from_cache_witness :
  let first := translate_mongolian_to_english text_key same_chars day_cache
                 answer_engineer 0 10 (32%N :: cyrillic_text) empty_cache in
  fst first = [101; 110; 103; 105; 110; 101; 101; 114]%N
  /\ translate_mongolian_to_english text_key same_chars day_cache service_down
       100 110 (32%N :: cyrillic_text) (snd first)
     = ([101; 110; 103; 105; 110; 101; 101; 114]%N, snd first).
Proof.
  refine (second_translation_from_cache text_key same_chars day_cache answer_engineer
            service_down 0 10 100 110 (32%N :: cyrillic_text)
            [32; 101; 110; 103; 105; 110; 101; 101; 114; 32]%N empty_cache
            eq_refl _ eq_refl _ eq_refl eq_refl eq_refl _ _).
  - vm_compute. discriminate.
  - vm_compute. lia.
  - vm_compute. reflexivity.
  - vm_compute. reflexivity.
Defined.

End TranslatorExtra.

(** ** Cleaning of the text sent to the translation service *)

Module CleanExtra.
Import Py Text Translator.

Lemma split_from_words (t acc : list N) :
  plain acc -> List.Forall word (split_from t acc).
Proof.
  revert acc. induction t as [|c t IH]; intros acc Hacc; simpl.
  - destruct acc; constructor; [|constructor]. split; [discriminate|exact Hacc].
  - destruct (is_whitespace c) eqn:Hc.
    + destruct acc as [|a acc'].
      * apply IH. constructor.
      * constructor; [split; [discriminate|exact Hacc]|]. apply IH. constructor.
    + apply IH. apply List.Forall_app. split; [exact Hacc|]. now constructor.
Qed.

Lemma split_from_chars (P : N -> Prop) (t acc : list N) :
  List.Forall P t -> List.Forall P acc ->
  List.Forall (List.Forall P) (split_from t acc).
Proof.
  revert acc. induction t as [|c t IH]; intros acc Ht Hacc; simpl.
  - destruct acc; constructor; [exact Hacc|constructor].
  - inversion Ht as [|? ? Hc Ht']; subst.
    destruct (is_whitespace c).
    + destruct acc as [|a acc'].
      * apply IH; [exact Ht'|constructor].
      * constructor; [exact Hacc|]. apply IH; [exact Ht'|constructor].
    + apply IH; [exact Ht'|]. apply List.Forall_app. split; [exact Hacc|].
      now constructor.
Qed.

Lemma join_chars (P : N -> Prop) (ws : list (list N)) :
  P 32%N -> List.Forall (List.Forall P) ws -> List.Forall P (join [32%N] ws).
Proof.
  intros Hsp. induction ws as [|w ws IH]; intros Hws; [constructor|].
  inversion Hws as [|? ? Hw Hws']; subst. simpl.
  destruct ws as [|w' ws']; [exact Hw|].
  apply List.Forall_app. split; [exact Hw|].
  constructor; [exact Hsp|]. now apply IH.
Qed.

Lemma split_from_plain (w rest acc : list N) :
  plain w -> split_from (w ++ rest) acc = split_from rest (acc ++ w).
Proof.
  revert acc. induction w as [|c w IH]; intros acc Hw; simpl.
  - now rewrite app_nil_r.
  - inversion Hw as [|? ? Hc Hw']; subst. rewrite Hc, IH by exact Hw'.
    now rewrite <- app_assoc.
Qed.

Lemma split_join (ws : list (list N)) :
  List.Forall word ws -> split (join [32%N] ws) = ws.
Proof.
  unfold split. induction ws as [|w ws IH]; intros Hws; [reflexivity|].
  inversion Hws as [|? ? [Hne Hw] Hws']; subst. simpl.
  destruct ws as [|w' ws'].
  - rewrite <- (app_nil_r w) at 1. rewrite split_from_plain by exact Hw.
    simpl. destruct w; [contradiction|reflexivity].
  - rewrite split_from_plain by exact Hw. cbn [app split_from].
    replace (is_whitespace 32%N) with true by reflexivity.
    destruct w; [contradiction|]. f_equal. now apply IH.
Qed.

Lemma remove_backslashes_chars (P : N -> Prop) (t : list N) :
  List.Forall P t -> List.Forall P (remove_backslashes t).
Proof.
  unfold remove_backslashes. induction 1 as [|c t Hc Ht IH]; simpl; [constructor|].
  destruct (negb (c =? 92)%N); [constructor|]; assumption.
Qed.

Lemma remove_backslashes_none (t : list N) :
  List.Forall (fun c => c <> 92%N) (remove_backslashes t).
Proof.
  unfold remove_backslashes. induction t as [|c t IH]; simpl; [constructor|].
  destruct (N.eqb_spec c 92%N); simpl; [exact IH|]. now constructor.
Qed.

Lemma remove_backslashes_fixed (t : list N) :
  List.Forall (fun c => c <> 92%N) t -> remove_backslashes t = t.
Proof.
  unfold remove_backslashes. induction 1 as [|c t Hc Ht IH]; simpl; [reflexivity|].
  destruct (N.eqb_spec c 92%N); [contradiction|]. simpl. now rewrite IH.
Qed.

Lemma replace_triple_newline_chars (P : N -> Prop) (t : list N) :
  List.Forall P t -> List.Forall P (replace_triple_newline t).
Proof.
  assert (forall n t, (length t <= n)%nat -> List.Forall P t ->
                      List.Forall P (replace_triple_newline t)) as H.
  { induction n as [|n IH]; intros u Hlen Hu.
    - destruct u; [constructor|simpl in Hlen; lia].
    - destruct u as [|c u]; [constructor|].
      inversion Hu as [|? ? Hc Hu']; subst. simpl in Hlen.
      assert (List.Forall P (c :: replace_triple_newline u)) as Hskip
        by (constructor; [exact Hc|apply IH; [lia|exact Hu']]).
      destruct (N.eq_dec c 10%N) as [->|Hne].
      + destruct u as [|c1 u]; [exact Hskip|].
        destruct (N.eq_dec c1 10%N) as [->|Hne1].
        * destruct u as [|c2 u]; [exact Hskip|].
          destruct (N.eq_dec c2 10%N) as [->|Hne2].
          -- cbn [replace_triple_newline]. constructor; [exact Hc|].
             inversion Hu' as [|? ? _ Hu'']; subst.
             inversion Hu'' as [|? ? _ Hu3]; subst.
             apply IH; [simpl in Hlen; lia|exact Hu3].
          -- replace (replace_triple_newline (10%N :: 10%N :: c2 :: u))
               with (10%N :: replace_triple_newline (10%N :: c2 :: u)); [exact Hskip|].
             simpl. destruct c2 as [|p]; [reflexivity|].
             do 4 (destruct p as [p|p|]; try reflexivity). contradiction.
        * replace (replace_triple_newline (10%N :: c1 :: u))
            with (10%N :: replace_triple_newline (c1 :: u)); [exact Hskip|].
          simpl. destruct c1 as [|p]; [reflexivity|].
          do 4 (destruct p as [p|p|]; try reflexivity). contradiction.
      + replace (replace_triple_newline (c :: u))
          with (c :: replace_triple_newline u); [exact Hskip|].
        simpl. destruct c as [|p]; [reflexivity|].
        do 4 (destruct p as [p|p|]; try reflexivity). contradiction. }
  intros Ht. now apply (H (length t)).
Qed.

Lemma replace_triple_newline_fixed (t : list N) :
  List.Forall (fun c => c <> 10%N) t -> replace_triple_newline t = t.
Proof.
  induction 1 as [|c t Hc Ht IH]; [reflexivity|].
  replace (replace_triple_newline (c :: t)) with (c :: replace_triple_newline t).
  - now rewrite IH.
  - simpl. destruct c as [|p]; [reflexivity|].
    do 4 (destruct p as [p|p|]; try reflexivity). contradiction.
Qed.

Lemma words_chars (P : N -> Prop) (ws : list (list N)) :
  (forall c, is_whitespace c = false -> P c) ->
  List.Forall word ws -> List.Forall (List.Forall P) ws.
Proof.
  intros HP Hws. eapply List.Forall_impl; [|exact Hws].
  intros w [_ Hw]. eapply List.Forall_impl; [|exact Hw]. exact HP.
Qed.

(** X29: the text sent to the translation service contains no backslash
    and no whitespace other than the single space, its words are those of
    the text after the two replacements, and cleaning it again changes
    nothing. *)
Theorem clean_input_normal_form (text : list N) :
  let out := _clean_input_text text in
  List.Forall (fun c => c <> 92%N) out
  /\ List.Forall (fun c => is_whitespace c = true -> c = 32%N) out
  /\ split out = split (replace_triple_newline (remove_backslashes text))
  /\ out = join [32%N] (split out)
  /\ _clean_input_text out = out.
Proof.
  intros out. unfold out, _clean_input_text.
  set (t := replace_triple_newline (remove_backslashes text)).
  assert (List.Forall word (split t)) as Hws by (apply split_from_words; constructor).
  assert (List.Forall (fun c => c <> 92%N) (join [32%N] (split t))) as Hbs.
  { apply join_chars; [discriminate|]. apply split_from_chars; [|constructor].
    apply replace_triple_newline_chars, remove_backslashes_none. }
  assert (List.Forall (fun c => c <> 10%N) (join [32%N] (split t))) as Hnl.
  { apply join_chars; [discriminate|]. apply words_chars; [|exact Hws].
    intros c Hc ->. discriminate. }
  split; [exact Hbs|]. split; [|split; [|split]].
  - apply join_chars; [reflexivity|]. apply words_chars; [|exact Hws].
    intros c Hc Hc'. congruence.
  - now apply split_join.
  - now rewrite split_join.
  - rewrite remove_backslashes_fixed by exact Hbs.
    rewrite replace_triple_newline_fixed by exact Hnl.
    now rewrite split_join.
Qed.

End CleanExtra.
